(** * Safari ERP Financeiro: hierarquia do plano de contas e motor da DFC

    Shallow embedding of the cash-flow engine of [app.py]: the account-code
    helpers ([codigo_blocos], [codigo_pais], [eh_sintetico]), the hierarchy
    and roll-up of the "DFC - Caixa" view ([filhos], [tem_pai], [total_no]),
    the opening-balance resolution, the formula dispatch, and the simulation
    of the "Auditoria DFC" view; then the table [configuracoes]
    ([set_config], [get_config], [get_config_bool]), the forms that write
    the tables ("Lancar Saldo", "Novo Lancamento", the status of imported
    rows, the adjustment in "Validacao", [atualizar_atrasados]) and the tree
    drawn by [render_no].

    Conventions of the model:
    - a Python [str] is a [string]; [str.strip] is modelled for the ASCII
      white space characters;
    - in the views the FLOAT column [valor] is an exact integer amount
      (centavos) and sums are exact; the order in which the program adds
      the amounts, which matters on binary64 numbers, is kept by the
      roll-up of module [Aritmetica], over any arithmetic;
    - a date or timestamp is a [Z] (the app stores ISO [YYYY-MM-DD] texts,
      whose text order is the date order);
    - a Python [dict] is a [gmap]; where the source iterates over a dict the
      model iterates over the list of its keys in insertion order. *)

From Stdlib Require Import ZArith Ascii String List Lia PrimFloat.
From stdpp Require Import base option list gmap strings sorting.

Local Open Scope string_scope.
Local Open Scope Z_scope.

(** ** Python string helpers *)

Module Str.

(** [c.isspace()] for the ASCII range: TAB, LF, VT, FF, CR, the four
    separators FS, GS, RS, US and the space. *)
Definition is_ws (c : ascii) : bool :=
  let n := nat_of_ascii c in
  ((9 <=? n)%nat && (n <=? 13)%nat) || ((28 <=? n)%nat && (n <=? 32)%nat).

Fixpoint lstrip (s : string) : string :=
  match s with
  | EmptyString => EmptyString
  | String c r => if is_ws c then lstrip r else s
  end.

Fixpoint rstrip (s : string) : string :=
  match s with
  | EmptyString => EmptyString
  | String c r =>
      match rstrip r with
      | EmptyString => if is_ws c then EmptyString else String c EmptyString
      | r' => String c r'
      end
  end.

(** [s.strip()] *)
Definition strip (s : string) : string := rstrip (lstrip s).

Definition ponto : ascii := "."%char.

(** [s.split(".")]: never empty, [split "" = [""]]. *)
Fixpoint split (s : string) : list string :=
  match s with
  | EmptyString => [EmptyString]
  | String c r =>
      if Ascii.eqb c ponto then EmptyString :: split r
      else match split r with
           | [] => [String c EmptyString]
           | h :: t => String c h :: t
           end
  end.

(** [s.startswith(p)] *)
Fixpoint startswith (p s : string) : bool :=
  match p, s with
  | EmptyString, _ => true
  | String a p', String b s' => Ascii.eqb a b && startswith p' s'
  | String _ _, EmptyString => false
  end.

(** No ["."] occurs in [s]. *)
Fixpoint sem_ponto (s : string) : bool :=
  match s with
  | EmptyString => true
  | String c r => negb (Ascii.eqb c ponto) && sem_ponto r
  end.

End Str.

(** ** Account codes (UTILITARIOS) *)

Module Codigo.

(** [normalizar_codigo]: the callers pass a [str]; the [None] case of the
    source maps to the empty text, which is [strip ""] as well. *)
Definition normalizar_codigo (cod : string) : string := Str.strip cod.

(** [codigo_blocos]: split on dots, right-pad with ["00"] to four blocks,
    keep the first four. *)
Definition codigo_blocos (cod : string) : list string :=
  let p := Str.split (normalizar_codigo cod) in
  let p := if (List.length p <? 4)%nat
           then (p ++ replicate (4 - List.length p) "00")%list else p in
  take 4 p.

(** The candidates of [codigo_pais] from the four blocks. *)
Definition pais_de_blocos (a b c d : string) : list string :=
  ((if bool_decide (d ≠ "00") then [a +:+ "." +:+ b +:+ "." +:+ c +:+ ".00"] else [])
   ++ (if bool_decide (c ≠ "00") then [a +:+ "." +:+ b +:+ ".00.00"] else [])
   ++ (if bool_decide (b ≠ "00") then [a +:+ ".00.00.00"] else []))%list.

(** [codigo_pais]: [a, b, c, d = codigo_blocos(cod)] always unpacks, since
    [codigo_blocos] returns exactly four blocks. *)
Definition codigo_pais (cod : string) : list string :=
  match codigo_blocos cod with
  | [a; b; c; d] => pais_de_blocos a b c d
  | _ => []
  end.

(** [eh_sintetico] *)
Definition eh_sintetico (cod : string) : bool :=
  match codigo_blocos cod with
  | [a; b; c; d] => bool_decide (d = "00")
  | _ => false
  end.

(** Number of blocks after the first that differ from ["00"]: the
    specificity of a code. *)
Definition nivel_blocos (l : list string) : nat :=
  match l with
  | [a; b; c; d] =>
      (if bool_decide (b ≠ "00") then 1 else 0)
      + (if bool_decide (c ≠ "00") then 1 else 0)
      + (if bool_decide (d ≠ "00") then 1 else 0)
  | _ => 0
  end%nat.

Definition nivel (cod : string) : nat := nivel_blocos (codigo_blocos cod).

(** The first block of a code is empty or starts with a character that is
    not white space. *)
Definition inicio_ok (a : string) : Prop :=
  match a with
  | EmptyString => True
  | String x _ => Str.is_ws x = false
  end.

(** The three ancestors of a code as the specification lists them. *)
Definition candidatos_spec (cod : string) : list string :=
  match codigo_blocos cod with
  | [a; b; c; d] =>
      [a +:+ "." +:+ b +:+ "." +:+ c +:+ ".00"; a +:+ "." +:+ b +:+ ".00.00"; a +:+ ".00.00.00"]
  | _ => []
  end.

(** A digit of a block. *)
Definition eh_digito (c : ascii) : bool :=
  let n := nat_of_ascii c in (48 <=? n)%nat && (n <=? 57)%nat.

Fixpoint so_digitos (s : string) : bool :=
  match s with
  | EmptyString => true
  | String c r => eh_digito c && so_digitos r
  end.

Definition numerico (s : string) : bool :=
  negb (bool_decide (s = "")) && so_digitos s.

(** A malformed code: fewer than four blocks, or a block that is not a
    number. *)
Definition malformado (cod : string) : bool :=
  let p := Str.split (normalizar_codigo cod) in
  (List.length p <? 4)%nat || negb (forallb numerico p).

End Codigo.

(** ** Data model: the tables and the configuration *)

(** Column [natureza] of [plano_contas]: [transformar_plano], the only writer
    of the table, stores one of the two texts. *)
Inductive Natureza := Entrada | Saida.

(** Column [tipo] of [saldos]: the form offers exactly these two. *)
Inductive TipoSaldo := Inicial | Final.

#[global] Instance Natureza_eq_dec : EqDecision Natureza.
Proof. solve_decision. Defined.

#[global] Instance Natureza_countable : Countable Natureza.
Proof.
  refine (inj_countable' (λ n, match n with Entrada => true | Saida => false end)
            (λ b : bool, if b then Entrada else Saida) _).
  by intros [].
Defined.

#[global] Instance TipoSaldo_eq_dec : EqDecision TipoSaldo.
Proof. solve_decision. Defined.

(** A row of [plano_contas] (the columns the engine reads). *)
Record Conta := mkConta {
  codigo : string;
  descricao : string;
  natureza : Natureza
}.

(** A row of [lancamentos]; [data_pagamento] is the column after
    [pd.to_datetime(..., errors="coerce")]: [None] is NaT. *)
Record Lancamento := mkLanc {
  data_pagamento : option Z;
  valor : Z;
  status : string;
  plano_conta_id : string
}.

(** A row of [saldos]. The table is the list of its rows in rowid order:
    [id INTEGER PRIMARY KEY AUTOINCREMENT] grows with every insertion, so a
    row further down the list has the larger [id]. *)
Record Saldo := mkSaldo {
  data_referencia : Z;
  tipo : TipoSaldo;
  saldo_valor : Z
}.

(** The five settings of the table [configuracoes]. *)
Record Config := mkConfig {
  modelo : string;
  considerar_somente_conciliados : bool;
  usar_saldo_lancado : bool;
  usar_saldo_calculado : bool;
  forcar_saida_negativa : bool
}.

(** A row of the join [lancamentos l JOIN plano_contas p ON
    l.plano_conta_id = p.codigo]. *)
Record Mov := mkMov {
  mov_data : option Z;
  mov_valor : Z;
  mov_status : string;
  mov_codigo : string;
  mov_natureza : Natureza
}.

#[global] Instance Mov_eq_dec : EqDecision Mov.
Proof. solve_decision. Defined.

(** ** TRANSFORMAR PLANO *)

Module Plano.

Definition natureza_de_codigo (cod : string) : Natureza :=
  if Str.startswith "1" cod then Entrada else Saida.

(** [transformar_plano] on the rows (descricao, codigo) of the sheet:
    rows without a code are dropped ([dropna]), the code is stripped and
    the nature is read off its first character. *)
Definition transformar_plano (df_original : list (string * option string)) : list Conta :=
  omap (λ r : string * option string,
          match r.2 with
          | None => None
          | Some c =>
              let cod := Str.strip c in
              Some (mkConta cod r.1 (natureza_de_codigo cod))
          end) df_original.

(** Column [aceita_lancamento] of [transformar_plano]. *)
Definition aceita_lancamento (c : Conta) : bool := negb (Codigo.eh_sintetico (codigo c)).

End Plano.

(** ** Shared steps of the two views *)

Module Passos.

Definition somaZ (l : list Z) : Z := foldr Z.add 0 l.

(** The SQL join: one row per pair of an entry and an account row with
    the entry's code. *)
Definition juntar (lancs : list Lancamento) (plano : list Conta) : list Mov :=
  flat_map (λ l : Lancamento,
    map (λ p : Conta,
           mkMov (data_pagamento l) (valor l) (status l) (codigo p) (natureza p))
        (List.filter (λ p : Conta, bool_decide (plano_conta_id l = codigo p)) plano))
    lancs.

(** [df.dropna(subset=["data_pagamento"])] *)
Definition dropna (df : list Mov) : list Mov :=
  List.filter (λ m : Mov, bool_decide (is_Some (mov_data m))) df.

Definition conciliado (m : Mov) : bool :=
  match mov_natureza m with
  | Entrada => bool_decide (mov_status m = "Recebido")
  | Saida => bool_decide (mov_status m = "Pago")
  end.

Definition filtro_conciliacao (so_conciliados : bool) (df : list Mov) : list Mov :=
  if so_conciliados then List.filter conciliado df else df.

(** [df[(df.data_pagamento >= ini) & (df.data_pagamento <= fim)]];
    a comparison with NaT is false. *)
Definition no_periodo (ini fim : Z) (m : Mov) : bool :=
  match mov_data m with
  | Some d => (ini <=? d) && (d <=? fim)
  | None => false
  end.

Definition antes_de (ini : Z) (m : Mov) : bool :=
  match mov_data m with
  | Some d => d <? ini
  | None => false
  end.

Definition de_natureza (n : Natureza) (m : Mov) : bool :=
  bool_decide (mov_natureza m = n).

(** [df[df.natureza == n]["valor"].sum()] *)
Definition soma_natureza (n : Natureza) (df : list Mov) : Z :=
  somaZ (map mov_valor (List.filter (de_natureza n) df)).

(** [valor_ajustado]: [valor] for Entrada, [-valor] otherwise. *)
Definition valor_ajustado (m : Mov) : Z :=
  match mov_natureza m with
  | Entrada => mov_valor m
  | Saida => - mov_valor m
  end.

(** [-abs(t) if forcar_saida_negativa else -t] *)
Definition sinal_saidas (forcar : bool) (t : Z) : Z :=
  if forcar then - Z.abs t else - t.

(** Rows of type [t] with [data_referencia <= d]. *)
Definition saldos_ate (t : TipoSaldo) (d : Z) (saldos : list Saldo) : list Saldo :=
  List.filter (λ s : Saldo, bool_decide (tipo s = t) && (data_referencia s <=? d)) saldos.

(** One row of the scan against the best row so far: the later date wins
    and, at equal dates, the later row. *)
Definition passo_ultimo (best : option Saldo) (s : Saldo) : option Saldo :=
  match best with
  | None => Some s
  | Some b => if data_referencia b <=? data_referencia s then Some s else Some b
  end.

(** [ORDER BY data_referencia DESC, id DESC LIMIT 1] over rows in rowid
    order: the latest date wins and, at equal dates, the later row. *)
Definition ultimo_saldo (rows : list Saldo) : option Saldo :=
  foldl passo_ultimo None rows.

(** The greatest [data_referencia] of the rows. *)
Definition maior_data (rows : list Saldo) : option Z :=
  foldl (λ (best : option Z) (s : Saldo),
           match best with
           | None => Some (data_referencia s)
           | Some b => Some (Z.max b (data_referencia s))
           end) None rows.

(** [ORDER BY data_referencia DESC LIMIT 1]: SQL leaves the order of rows
    with equal keys to the engine; [desempate] is the engine's pick among
    the rows (in rowid order) that share the latest date. *)
Definition saldo_mais_recente (desempate : list Saldo → option Saldo)
    (rows : list Saldo) : option Saldo :=
  match maior_data rows with
  | None => None
  | Some m => desempate (List.filter (λ s : Saldo, data_referencia s =? m) rows)
  end.

(** An engine returns one of the rows it is given. *)
Definition desempate_valido (desempate : list Saldo → option Saldo) : Prop :=
  ∀ rows, rows ≠ [] → ∃ s, desempate rows = Some s ∧ s ∈ rows.

(** The engine that returns the first row of the scan. *)
Definition primeira_linha (rows : list Saldo) : option Saldo := head rows.

(** At most one row per date and type: what the form "Lancar Saldo"
    keeps, deleting the row of a date and type before it inserts. *)
Definition sem_empate (saldos : list Saldo) : Prop :=
  NoDup (map (λ s : Saldo, (data_referencia s, tipo s)) saldos).

(** The group a row falls into, if it is one of [K]. *)
Definition grupo_em (K : list string) (o : option string) : bool :=
  match o with
  | Some k => bool_decide (k ∈ K)
  | None => false
  end.

(** The recorded opening balance in the words of the specification: the
    amount of the row of type Inicial with the latest reference date at or
    before [d], a tie at that date broken by the most recent insertion
    (every row after it in the table has an earlier date); nothing when
    the table has no row of type Inicial at or before [d]. *)
Definition registrado_spec (saldos : list Saldo) (d : Z) (registrado : option Z) : Prop :=
  match registrado with
  | Some v =>
      ∃ l1 s l2,
        saldos = (l1 ++ s :: l2)%list
        ∧ tipo s = Inicial ∧ data_referencia s ≤ d ∧ saldo_valor s = v
        ∧ (∀ x, x ∈ l1 → tipo x = Inicial → data_referencia x ≤ d →
                data_referencia x ≤ data_referencia s)
        ∧ (∀ x, x ∈ l2 → tipo x = Inicial → data_referencia x ≤ d →
                data_referencia x < data_referencia s)
  | None => ∀ x, x ∈ saldos → tipo x = Inicial → d < data_referencia x
  end.

(** The opening balance in the words of the specification: the recorded
    part, if enabled and found, plus the computed part, if enabled. *)
Definition abertura_spec (cfg : Config) (registrado : option Z) (df_mov : list Mov) (d : Z) : Z :=
  (if usar_saldo_lancado cfg then default 0 registrado else 0)
  + (if usar_saldo_calculado cfg
     then somaZ (map valor_ajustado (List.filter (antes_de d) df_mov))
     else 0).

End Passos.

(** ** The view "DFC - Caixa": summary of the period *)

Module DFC.
Import Passos.

Record Relatorio := mkRelatorio {
  saldo_inicial_lancado : option Z;
  saldo_inicial_calc : Z;
  saldo_inicial : Z;
  total_entradas : Z;
  total_saidas_raw : Z;
  total_saidas : Z;
  saldo_final_calc : Z;
  saldo_final_lancado : option Z;
  geracao_caixa : Z
}.

(** "Aplicar modelo oficial": the dispatch on the stored formula text. *)
Definition aplicar_modelo (modelo_oficial : string)
    (saldo_inicial total_entradas total_saidas : Z) : Z :=
  if bool_decide (modelo_oficial = "Saldo + Entradas + Saídas") then
    saldo_inicial + total_entradas + total_saidas
  else if bool_decide (modelo_oficial = "Saldo + Entradas - Saídas") then
    saldo_inicial + total_entradas - total_saidas
  else if bool_decide (modelo_oficial = "Saldo + (Entradas - Saídas)") then
    saldo_inicial + (total_entradas - total_saidas)
  else if bool_decide (modelo_oficial = "Saldo + Somente Entradas") then
    saldo_inicial + total_entradas
  else if bool_decide (modelo_oficial = "Saldo + Somente Saídas") then
    saldo_inicial + total_saidas
  else
    saldo_inicial + total_entradas + total_saidas.

(** The query of the recorded balance of type [t] at or before [d]. *)
Definition consulta_saldo (t : TipoSaldo) (saldos : list Saldo) (d : Z) : option Z :=
  saldo_valor <$> ultimo_saldo (saldos_ate t d saldos).

(** "Saldo inicial": recorded and computed parts, combined by the two
    toggles. [df_mov] is the admissible set. *)
Definition resolver_saldo_lancado (cfg : Config) (saldos : list Saldo) (d : Z) : option Z :=
  if usar_saldo_lancado cfg then consulta_saldo Inicial saldos d else None.

Definition resolver_saldo_calc (cfg : Config) (df_mov : list Mov) (d : Z) : Z :=
  if usar_saldo_calculado cfg
  then somaZ (map valor_ajustado (List.filter (antes_de d) df_mov))
  else 0.

Definition combinar_saldos (cfg : Config) (lancado : option Z) (calc : Z) : Z :=
  let saldo_inicial := 0 in
  let saldo_inicial :=
    match usar_saldo_lancado cfg, lancado with
    | true, Some v => saldo_inicial + v
    | _, _ => saldo_inicial
    end in
  if usar_saldo_calculado cfg then saldo_inicial + calc else saldo_inicial.

(** The view, from the tables, the official configuration and the two
    dates of the form. [None]: the view stopped with a warning
    ([st.warning] followed by [st.stop]). *)
Definition dfc_caixa (cfg : Config) (plano : list Conta) (lancs : list Lancamento)
    (saldos : list Saldo) (data_inicio data_fim : Z) : option Relatorio :=
  let df_mov := juntar lancs plano in
  if bool_decide (df_mov = []) then None else
  let df_mov := dropna df_mov in
  let df_mov := filtro_conciliacao (considerar_somente_conciliados cfg) df_mov in
  if bool_decide (df_mov = []) then None else
  let df_periodo := List.filter (no_periodo data_inicio data_fim) df_mov in
  if bool_decide (df_periodo = []) then None else
  let lancado := resolver_saldo_lancado cfg saldos data_inicio in
  let calc := resolver_saldo_calc cfg df_mov data_inicio in
  let saldo_inicial := combinar_saldos cfg lancado calc in
  let total_entradas := soma_natureza Entrada df_periodo in
  let total_saidas_raw := soma_natureza Saida df_periodo in
  let total_saidas := sinal_saidas (forcar_saida_negativa cfg) total_saidas_raw in
  let saldo_final_calc := aplicar_modelo (modelo cfg) saldo_inicial total_entradas total_saidas in
  let saldo_final_lancado := consulta_saldo Final saldos data_fim in
  let geracao_caixa := saldo_final_calc - saldo_inicial in
  Some (mkRelatorio lancado calc saldo_inicial total_entradas total_saidas_raw
          total_saidas saldo_final_calc saldo_final_lancado geracao_caixa).

(** The admissible set and the rows of the period, as the view builds
    them before it resolves balances and totals. *)
Definition admissiveis (cfg : Config) (plano : list Conta) (lancs : list Lancamento) : list Mov :=
  filtro_conciliacao (considerar_somente_conciliados cfg) (dropna (juntar lancs plano)).

Definition periodo (cfg : Config) (plano : list Conta) (lancs : list Lancamento)
    (data_inicio data_fim : Z) : list Mov :=
  List.filter (no_periodo data_inicio data_fim) (admissiveis cfg plano lancs).

End DFC.

(** ** The view "Auditoria DFC": the simulation *)

Module Simulacao.
Import Passos.

Record Resultado := mkResultado {
  saldo_inicial_sim : Z;
  total_entradas_periodo : Z;
  total_saidas_periodo : Z;
  saldo_final_sim : Z
}.

(** "Aplicar formula" *)
Definition aplicar_formula (modelo_formula : string)
    (saldo_inicial_sim total_entradas_periodo total_saidas_periodo : Z) : Z :=
  if bool_decide (modelo_formula = "Saldo + Entradas - Saídas") then
    saldo_inicial_sim + total_entradas_periodo - total_saidas_periodo
  else if bool_decide (modelo_formula = "Saldo + Entradas + Saídas") then
    saldo_inicial_sim + total_entradas_periodo + total_saidas_periodo
  else if bool_decide (modelo_formula = "Saldo + (Entradas - Saídas)") then
    saldo_inicial_sim + (total_entradas_periodo - total_saidas_periodo)
  else if bool_decide (modelo_formula = "Saldo + Somente Entradas") then
    saldo_inicial_sim + total_entradas_periodo
  else if bool_decide (modelo_formula = "Saldo + Somente Saídas") then
    saldo_inicial_sim + total_saidas_periodo
  else
    saldo_inicial_sim + total_entradas_periodo - total_saidas_periodo.

(** The query of the simulation: no [id] in its [ORDER BY]. *)
Definition consulta_saldo_sim (desempate : list Saldo → option Saldo)
    (saldos : list Saldo) (d : Z) : option Z :=
  saldo_valor <$> saldo_mais_recente desempate (saldos_ate Inicial d saldos).

(** "Calcular saldo inicial" *)
Definition saldo_inicial_de (desempate : list Saldo → option Saldo) (cfg : Config)
    (saldos : list Saldo) (df_mov_sim : list Mov) (d : Z) : Z :=
  let saldo_inicial_sim := 0 in
  let saldo_inicial_sim :=
    if usar_saldo_lancado cfg then
      match consulta_saldo_sim desempate saldos d with
      | Some v => saldo_inicial_sim + v
      | None => saldo_inicial_sim
      end
    else saldo_inicial_sim in
  if usar_saldo_calculado cfg
  then saldo_inicial_sim + somaZ (map valor_ajustado (List.filter (antes_de d) df_mov_sim))
  else saldo_inicial_sim.

(** "Executar Simulacao", from the tables, the settings of the form and
    the two dates. [None]: only a warning is shown. *)
Definition simular (desempate : list Saldo → option Saldo) (cfg : Config)
    (plano : list Conta) (lancs : list Lancamento) (saldos : list Saldo)
    (data_sim_ini data_sim_fim : Z) : option Resultado :=
  let df_mov_sim := juntar lancs plano in
  if bool_decide (df_mov_sim = []) then None else
  let df_mov_sim := dropna df_mov_sim in
  let df_mov_sim := filtro_conciliacao (considerar_somente_conciliados cfg) df_mov_sim in
  if bool_decide (df_mov_sim = []) then None else
  let saldo_inicial_sim := saldo_inicial_de desempate cfg saldos df_mov_sim data_sim_ini in
  let df_periodo_sim := List.filter (no_periodo data_sim_ini data_sim_fim) df_mov_sim in
  let total_entradas_periodo := soma_natureza Entrada df_periodo_sim in
  let total_saidas_periodo :=
    sinal_saidas (forcar_saida_negativa cfg) (soma_natureza Saida df_periodo_sim) in
  let saldo_final_sim :=
    aplicar_formula (modelo cfg) saldo_inicial_sim total_entradas_periodo total_saidas_periodo in
  Some (mkResultado saldo_inicial_sim total_entradas_periodo total_saidas_periodo saldo_final_sim).

(** The four figures both views show. *)
Definition resumo_dfc (r : DFC.Relatorio) : Resultado :=
  mkResultado (DFC.saldo_inicial r) (DFC.total_entradas r) (DFC.total_saidas r)
    (DFC.saldo_final_calc r).

(** The five texts of the selectbox "Formula do Saldo Final". *)
Definition formulas : list string :=
  [ "Saldo + Entradas - Saídas";
    "Saldo + Entradas + Saídas";
    "Saldo + (Entradas - Saídas)";
    "Saldo + Somente Entradas";
    "Saldo + Somente Saídas" ].

End Simulacao.

(** ** The view "DFC - Caixa": HIERARQUIA + ROLL-UP *)

Module Rollup.
Import Passos.

(** [df_plano["codigo"].astype(str).str.strip()] *)
Definition ler_plano (plano : list Conta) : list Conta :=
  map (λ r : Conta, mkConta (Str.strip (codigo r)) (descricao r) (natureza r)) plano.

(** [{row["codigo"]: ... for _, row in df_plano.iterrows()}]: a later row
    overwrites an earlier one with the same code. *)
Definition plano_desc (df_plano : list Conta) : gmap string string :=
  foldl (λ (m : gmap string string) (r : Conta), <[codigo r := descricao r]> m) ∅ df_plano.

Definition plano_nat (df_plano : list Conta) : gmap string Natureza :=
  foldl (λ (m : gmap string Natureza) (r : Conta), <[codigo r := natureza r]> m) ∅ df_plano.

(** [plano_desc.keys()]: the distinct codes in the order of their first
    row. *)
Definition chaves (df_plano : list Conta) : list string :=
  reverse (remove_dups (reverse (map codigo df_plano))).

(** [df_periodo.groupby(["codigo", "natureza"])["valor"].sum()] as a dict. *)
Definition soma_por_codigo (df_periodo : list Mov) : gmap (string * Natureza) Z :=
  foldl (λ (m : gmap (string * Natureza) Z) (r : Mov),
           let k := (mov_codigo r, mov_natureza r) in
           <[k := default 0 (m !! k) + mov_valor r]> m) ∅ df_periodo.

(** [sorted(...)] on texts. *)
Definition ordenar (l : list string) : list string := merge_sort String.le l.

Section hierarquia.
Variable desc : gmap string string.
Variable nat_de : gmap string Natureza.
Variable ks : list string.

Definition existe (p : string) : bool := bool_decide (is_Some (desc !! p)).

(** The inner loop: the first candidate that is a key of [plano_desc]. *)
Definition pai_existente (cod : string) : option string :=
  List.find existe (Codigo.codigo_pais cod).

(** [if pai_existente:] a text is true when it is not empty. *)
Definition verdadeiro (o : option string) : bool :=
  match o with
  | Some (String _ _) => true
  | _ => false
  end.

(** [{cod: [] for cod in plano_desc.keys()}] *)
Definition filhos_vazio : gmap string (list string) :=
  foldl (λ (m : gmap string (list string)) (k : string), <[k := []]> m) ∅ ks.

(** One round of the loop: [filhos[pai_existente].append(cod)]; the
    parent is a key of [plano_desc], hence of [filhos]. *)
Definition anexar_filho (f : gmap string (list string)) (cod : string)
    : gmap string (list string) :=
  let pai := pai_existente cod in
  if verdadeiro pai then
    match pai with
    | Some p => alter (λ l : list string, (l ++ [cod])%list) p f
    | None => f
    end
  else f.

(** [filhos] after [filhos[k] = sorted(list(set(filhos[k])))]. *)
Definition filhos : gmap string (list string) :=
  (λ l : list string, ordenar (remove_dups l)) <$> foldl anexar_filho filhos_vazio ks.

Definition tem_pai (cod : string) : bool :=
  existsb existe (Codigo.codigo_pais cod).

(** [roots_entrada] and [roots_saida] *)
Definition roots (n : Natureza) : list string :=
  ordenar (List.filter
             (λ c : string, negb (tem_pai c) && bool_decide (nat_de !! c = Some n)) ks).

Variable soma : gmap (string * Natureza) Z.

(** The loop over the children of [total_no], given the recursive call:
    the state is [base] and [cache_total]; [None] when a call ran out
    of depth. *)
Definition laco_filhos
    (rec : gmap (string * Natureza) Z → string → Natureza
            → option (Z * gmap (string * Natureza) Z))
    (natureza : Natureza) (chs : list string)
    (base : Z) (cache : gmap (string * Natureza) Z)
    : option (Z * gmap (string * Natureza) Z) :=
  foldl (λ (st : option (Z * gmap (string * Natureza) Z)) (ch : string),
           match st with
           | None => None
           | Some (base, cache) =>
               let nat_ch := default natureza (nat_de !! ch) in
               if bool_decide (nat_ch ≠ natureza) then Some (base, cache)
               else match rec cache ch natureza with
                    | Some (v, cache') => Some (base + v, cache')
                    | None => None
                    end
           end) (Some (base, cache)) chs.

(** [total_no], with [cache_total] passed along and [prof] bounding the
    depth of the recursion. *)
Fixpoint total_no (prof : nat) (cache_total : gmap (string * Natureza) Z)
    (cod : string) (natureza : Natureza)
    : option (Z * gmap (string * Natureza) Z) :=
  match prof with
  | O => None
  | S prof' =>
      let key := (cod, natureza) in
      match cache_total !! key with
      | Some v => Some (v, cache_total)
      | None =>
          let base := default 0 (soma !! (cod, natureza)) in
          match laco_filhos (total_no prof') natureza
                  (default [] (filhos !! cod)) base cache_total with
          | Some (base, cache_total) => Some (base, <[key := base]> cache_total)
          | None => None
          end
      end
  end.

(** The totals shown for a list of nodes, in order, on one cache. *)
Fixpoint totais (prof : nat) (cache_total : gmap (string * Natureza) Z)
    (cods : list string) (natureza : Natureza)
    : option (list Z * gmap (string * Natureza) Z) :=
  match cods with
  | [] => Some ([], cache_total)
  | cod :: resto =>
      match total_no prof cache_total cod natureza with
      | None => None
      | Some (v, cache_total) =>
          match totais prof cache_total resto natureza with
          | None => None
          | Some (vs, cache_total) => Some (v :: vs, cache_total)
          end
      end
  end.

(** The total of a node without the cache: the node's own sum plus the
    totals of its children of the same nature. *)
Fixpoint total_puro (prof : nat) (cod : string) (natureza : Natureza) : Z :=
  match prof with
  | O => 0
  | S prof' =>
      default 0 (soma !! (cod, natureza))
      + somaZ (map (λ ch : string, total_puro prof' ch natureza)
                 (List.filter
                    (λ ch : string,
                       bool_decide (default natureza (nat_de !! ch) = natureza))
                    (default [] (filhos !! cod))))
  end.

(** [c] has [k] as its first existing candidate. *)
Definition filho_de (k c : string) : bool := bool_decide (pai_existente c = Some k).

(** The children of [cod] that [total_no] descends into. *)
Definition filhos_nat (cod : string) (n : Natureza) : list string :=
  List.filter (λ ch : string, bool_decide (default n (nat_de !! ch) = n))
    (default [] (filhos !! cod)).

(** The total of a node, free of the depth bound. *)
Definition total (cod : string) (N : Natureza) : Z :=
  total_puro 4 cod N.

(** Every entry of [cache_total] is the total of its key. *)
Definition cache_ok (cache : gmap (string * Natureza) Z) : Prop :=
  ∀ c N v, cache !! (c, N) = Some v → v = total c N.

(** The keys of a nature. *)
Definition chaves_nat (N : Natureza) : list string :=
  List.filter (λ k : string, bool_decide (nat_de !! k = Some N)) ks.

End hierarquia.

(** The hierarchy of a run of the view. *)
Definition filhos_de (plano : list Conta) : gmap string (list string) :=
  let df_plano := ler_plano plano in
  filhos (plano_desc df_plano) (chaves df_plano).

Definition roots_de (plano : list Conta) (n : Natureza) : list string :=
  let df_plano := ler_plano plano in
  roots (plano_desc df_plano) (plano_nat df_plano) (chaves df_plano) n.

Definition pai_de (plano : list Conta) (cod : string) : option string :=
  pai_existente (plano_desc (ler_plano plano)) cod.

(** [total_no(cod, natureza)] on a fresh [cache_total]. Four calls deep is
    as far as a chain of children goes. *)
Definition total_de (plano : list Conta) (df_periodo : list Mov)
    (cod : string) (n : Natureza) : option Z :=
  let df_plano := ler_plano plano in
  fst <$> total_no (plano_desc df_plano) (plano_nat df_plano) (chaves df_plano)
            (soma_por_codigo df_periodo) 4 ∅ cod n.

(** The totals of the roots of a nature, as the tree shows them. *)
Definition totais_raizes (plano : list Conta) (df_periodo : list Mov) (n : Natureza)
    : option (list Z) :=
  let df_plano := ler_plano plano in
  fst <$> totais (plano_desc df_plano) (plano_nat df_plano) (chaves df_plano)
            (soma_por_codigo df_periodo) 4 ∅ (roots_de plano n) n.

(** Every account row carries the nature of its stripped code: what
    [transformar_plano] stores. *)
Definition plano_coerente (plano : list Conta) : Prop :=
  Forall (λ r : Conta, codigo r = Str.strip (codigo r)
                       ∧ natureza r = Plano.natureza_de_codigo (codigo r)) plano.

Definition da_conta (cod : string) (N : Natureza) (m : Mov) : bool :=
  bool_decide (mov_codigo m = cod) && de_natureza N m.

(** The own sum of an account: the rows of the period with its code and
    the nature asked for. *)
Definition soma_propria (df_periodo : list Mov) (cod : string) (N : Natureza) : Z :=
  somaZ (map mov_valor (List.filter (da_conta cod N) df_periodo)).

(** The children of [cod] with the nature [N] recorded in the plan. *)
Definition filhos_mesma_natureza (plano : list Conta) (cod : string) (N : Natureza)
    : list string :=
  List.filter (λ ch : string, bool_decide (plano_nat (ler_plano plano) !! ch = Some N))
    (default [] (filhos_de plano !! cod)).

(** The first text of a list that is a code of the plan. *)
Definition primeiro_existente (plano : list Conta) (l : list string) : option string :=
  List.find (λ p : string, bool_decide (p ∈ chaves (ler_plano plano))) l.

Definition eh_raiz (plano : list Conta) (cod : string) : bool :=
  negb (tem_pai (plano_desc (ler_plano plano)) cod).

End Rollup.

(** ** The roll-up over the arithmetic of the amounts *)

Module Aritmetica.
Import Passos Rollup.

(** A row of [df_periodo] as the roll-up and the totals read it, with an
    amount of type [V]: the column [valor] is FLOAT, a binary64 number. *)
Record Linha (V : Type) := mkLinha {
  lin_codigo : string;
  lin_natureza : Natureza;
  lin_valor : V
}.
Arguments mkLinha {V} _ _ _.
Arguments lin_codigo {V} _.
Arguments lin_natureza {V} _.
Arguments lin_valor {V} _.

Section numeros.
Context {V : Type}.

(** [0.0] and [+] *)
Variable zero : V.
Variable mais : V → V → V.

(** [.sum()] of a column: the values are added one by one, from the
    first row on. *)
Definition soma_coluna (l : list V) : V := foldl mais zero l.

(** [df[df.natureza == n]["valor"].sum()] *)
Definition soma_natureza_em (n : Natureza) (df : list (Linha V)) : V :=
  soma_coluna
    (map lin_valor (List.filter (λ r : Linha V, bool_decide (lin_natureza r = n)) df)).

(** [df_periodo.groupby(["codigo", "natureza"])["valor"].sum()] as a dict:
    the sum of a group, row by row. *)
Definition soma_por_codigo_em (df_periodo : list (Linha V)) : gmap (string * Natureza) V :=
  foldl (λ (m : gmap (string * Natureza) V) (r : Linha V),
           let k := (lin_codigo r, lin_natureza r) in
           <[k := mais (default zero (m !! k)) (lin_valor r)]> m) ∅ df_periodo.

Variable desc : gmap string string.
Variable nat_de : gmap string Natureza.
Variable ks : list string.
Variable soma : gmap (string * Natureza) V.

(** The loop over the children of [total_no]: [base += total_no(ch,
    natureza)]. *)
Definition laco_filhos_em
    (rec : gmap (string * Natureza) V → string → Natureza
            → option (V * gmap (string * Natureza) V))
    (natureza : Natureza) (chs : list string)
    (base : V) (cache : gmap (string * Natureza) V)
    : option (V * gmap (string * Natureza) V) :=
  foldl (λ (st : option (V * gmap (string * Natureza) V)) (ch : string),
           match st with
           | None => None
           | Some (base, cache) =>
               let nat_ch := default natureza (nat_de !! ch) in
               if bool_decide (nat_ch ≠ natureza) then Some (base, cache)
               else match rec cache ch natureza with
                    | Some (v, cache') => Some (mais base v, cache')
                    | None => None
                    end
           end) (Some (base, cache)) chs.

(** [total_no] over the amounts of type [V]. *)
Fixpoint total_no_em (prof : nat) (cache_total : gmap (string * Natureza) V)
    (cod : string) (natureza : Natureza)
    : option (V * gmap (string * Natureza) V) :=
  match prof with
  | O => None
  | S prof' =>
      let key := (cod, natureza) in
      match cache_total !! key with
      | Some v => Some (v, cache_total)
      | None =>
          let base := default zero (soma !! (cod, natureza)) in
          match laco_filhos_em (total_no_em prof') natureza
                  (default [] (filhos desc ks !! cod)) base cache_total with
          | Some (base, cache_total) => Some (base, <[key := base]> cache_total)
          | None => None
          end
      end
  end.

(** The total of a node without the cache: onto the node's own sum the
    totals of its children of the same nature are added one by one, in
    the order of the list of children. *)
Fixpoint total_puro_em (prof : nat) (cod : string) (natureza : Natureza) : V :=
  match prof with
  | O => zero
  | S prof' =>
      foldl mais (default zero (soma !! (cod, natureza)))
        (map (λ ch : string, total_puro_em prof' ch natureza)
           (filhos_nat desc nat_de ks cod natureza))
  end.

(** Every entry of [cache_total] is the total of its key. *)
Definition cache_ok_em (cache : gmap (string * Natureza) V) : Prop :=
  ∀ c N v, cache !! (c, N) = Some v → v = total_puro_em 4 c N.

End numeros.

(** [total_no(cod, natureza)] on a fresh [cache_total], given the dict
    [soma_por_codigo]. *)
Definition total_de_em {V : Type} (zero : V) (mais : V → V → V) (plano : list Conta)
    (soma_por_codigo : gmap (string * Natureza) V) (cod : string) (n : Natureza)
    : option V :=
  let df_plano := ler_plano plano in
  fst <$> total_no_em zero mais (plano_desc df_plano) (plano_nat df_plano) (chaves df_plano)
            soma_por_codigo 4 ∅ cod n.

(** The rows of the period with themselves as amounts: a sum is then
    the list of the rows added, in the order of the additions. *)
Definition linhas_formais (df_periodo : list Mov) : list (Linha (list Mov)) :=
  map (λ m : Mov, mkLinha (mov_codigo m) (mov_natureza m) [m]) df_periodo.

(** The sum of the weights [w] of the rows of a formal sum. *)
Definition peso (w : Mov → Z) (l : list Mov) : Z := somaZ (map w l).

End Aritmetica.

(** ** Concrete tables *)

Module Exemplos.

(** The plan of the end-to-end scenario. *)
Definition plano : list Conta :=
  Plano.transformar_plano
    [ ("Receitas", Some "1.00.00.00");
      ("Vendas", Some "1.01.00.00");
      ("Despesas", Some "2.00.00.00") ].

Definition lancs : list Lancamento :=
  [ mkLanc (Some 10) 100 "Recebido" "1.01.00.00";
    mkLanc (Some 11) 40 "Pago" "2.00.00.00" ].

Definition cfg : Config :=
  mkConfig "Saldo + Entradas - Saídas" true true false true.

(** The same settings with a text that is none of the five formulas. *)
Definition cfg_desconhecido : Config :=
  mkConfig "Modelo desconhecido" true true false true.

(** Entries that are not settled. *)
Definition lancs_abertos : list Lancamento :=
  [ mkLanc (Some 10) 100 "A receber" "1.01.00.00";
    mkLanc (Some 11) 40 "A pagar" "2.00.00.00" ].

(** Two recorded opening balances of the same date, inserted in this
    order, and an older one. *)
Definition saldos_empatados : list Saldo :=
  [ mkSaldo 1 Inicial 100; mkSaldo 1 Inicial 300; mkSaldo 0 Inicial 50 ].

Definition saldos : list Saldo :=
  [ mkSaldo 0 Inicial 50; mkSaldo 1 Inicial 300; mkSaldo 31 Final 400 ].

(** A plan with a gap between a code and its nearest ancestor. *)
Definition plano_lacuna : list Conta :=
  Plano.transformar_plano
    [ ("Receitas", Some "1.00.00.00"); ("Item", Some "1.02.03.04") ].

(** Two groups of two accounts under one root, and one row of the period
    on each of the four accounts, with binary64 amounts. *)
Definition plano_grupos : list Conta :=
  Plano.transformar_plano
    [ ("Receitas", Some "1.00.00.00");
      ("Grupo A", Some "1.01.00.00"); ("A1", Some "1.01.00.01"); ("A2", Some "1.01.00.02");
      ("Grupo B", Some "1.02.00.00"); ("B1", Some "1.02.00.01"); ("B2", Some "1.02.00.02") ].

#[warnings="-inexact-float"]
Definition linhas_binarias : list (Aritmetica.Linha float) :=
  [ Aritmetica.mkLinha "1.01.00.01" Entrada 0.1%float;
    Aritmetica.mkLinha "1.01.00.02" Entrada 0.6%float;
    Aritmetica.mkLinha "1.02.00.01" Entrada 0.5%float;
    Aritmetica.mkLinha "1.02.00.02" Entrada 0.9%float ].

(** The flat sum of these four rows. *)
#[warnings="-inexact-float"]
Definition soma_plana : float := 2.1%float.

(** A group with four blocks and the same group with a fifth block. *)
Definition plano_quatro : list Conta :=
  Plano.transformar_plano
    [ ("Grupo", Some "1.02.03.00"); ("Item", Some "1.02.03.04") ].

Definition plano_longo : list Conta :=
  Plano.transformar_plano
    [ ("Grupo", Some "1.02.03.00.05"); ("Item", Some "1.02.03.04") ].

(** A plan with a short code and one with five blocks. *)
Definition plano_curto : list Conta :=
  Plano.transformar_plano
    [ ("Receitas", Some "1.00.00.00"); ("Curta", Some "1.02");
      ("Longa", Some "1.02.03.04.05") ].

(** An entry whose code is no code of the plan, and an open entry. *)
Definition lanc_orfao : Lancamento := mkLanc (Some 12) 70 "Pago" "9.99.99.99".
Definition lanc_aberto : Lancamento := mkLanc (Some 12) 70 "A pagar" "2.00.00.00".

(** An account that takes postings. *)
Definition conta_item : Conta := mkConta "1.02.03.04" "Item" Entrada.

(** A [cache_total] that holds the total of one node. *)
Definition cache_um : gmap (string * Natureza) Z := {[("1.01.00.00", Entrada) := 100]}.

End Exemplos.

(** ** CONFIGURACOES: the key/value table *)

Module Configuracoes.

(** [set_config]: [INSERT OR REPLACE] on the primary key [chave]. The
    table is the map from keys to their one value. *)
Definition set_config (chave valor : string) (db : gmap string string)
    : gmap string string :=
  <[chave := valor]> db.

(** [get_config]: the stored text, or [padrao] when the key has no row. *)
Definition get_config (chave padrao : string) (db : gmap string string) : string :=
  default padrao (db !! chave).

(** [str(b)] of a Python [bool]. *)
Definition str_bool (b : bool) : string := if b then "True" else "False".

(** [get_config_bool]: compares the text with the literal ["True"]. *)
Definition get_config_bool (chave : string) (padrao : bool) (db : gmap string string)
    : bool :=
  bool_decide (get_config chave (str_bool padrao) db = "True").

(** "ler configs oficiais da auditoria": what the view "DFC - Caixa"
    reads. *)
Definition ler_oficial (db : gmap string string) : Config :=
  mkConfig
    (get_config "modelo_dfc_oficial" "Saldo + Entradas - Saídas" db)
    (get_config_bool "considerar_somente_conciliados" true db)
    (get_config_bool "usar_saldo_lancado" true db)
    (get_config_bool "usar_saldo_calculado" false db)
    (get_config_bool "forcar_saida_negativa" true db).

(** "Salvar Configuracao Oficial": the five [set_config] in their order. *)
Definition salvar_oficial (cfg : Config) (db : gmap string string) : gmap string string :=
  let db := set_config "modelo_dfc_oficial" (modelo cfg) db in
  let db := set_config "usar_saldo_lancado" (str_bool (usar_saldo_lancado cfg)) db in
  let db := set_config "usar_saldo_calculado" (str_bool (usar_saldo_calculado cfg)) db in
  let db := set_config "considerar_somente_conciliados"
              (str_bool (considerar_somente_conciliados cfg)) db in
  set_config "forcar_saida_negativa" (str_bool (forcar_saida_negativa cfg)) db.

(** The texts the selectbox "Formula do Saldo Final" can return: its five
    options, when [.index] finds the stored text (or the default) among
    them; otherwise [.index] raises and the page shows no form ([None]). *)
Definition opcoes_formula (db : gmap string string) : option (list string) :=
  if bool_decide (get_config "modelo_dfc_oficial" "Saldo + Entradas - Saídas" db
                  ∈ Simulacao.formulas)
  then Some Simulacao.formulas else None.

(** The tables the application reaches: [configuracoes] is empty when
    created, and its only writer is "Salvar Configuracao Oficial", which
    stores the text chosen in the selectbox and the four check boxes. *)
Inductive alcancavel : gmap string string → Prop :=
| alcancavel_vazia : alcancavel ∅
| alcancavel_salvar (db : gmap string string) (ops : list string) (cfg : Config) :
    alcancavel db → opcoes_formula db = Some ops → modelo cfg ∈ ops →
    alcancavel (salvar_oficial cfg db).

End Configuracoes.

(** ** The forms and the maintenance of the tables *)

Module Formularios.

Definition STATUS_SAIDA : list string := ["A pagar"; "Atrasado"; "Renegociado"; "Pago"].
Definition STATUS_ENTRADA : list string := ["A receber"; "Atrasado"; "Renegociado"; "Recebido"].

(** [status_opcoes_por_natureza]; the argument may be [None]. *)
Definition status_opcoes_por_natureza (natureza : option string) : list string :=
  let n := Str.strip (default "" natureza) in
  if bool_decide (n = "Entrada") then STATUS_ENTRADA else STATUS_SAIDA.

(** [default_status_por_natureza] *)
Definition default_status_por_natureza (natureza : option string) : string :=
  let n := Str.strip (default "" natureza) in
  if bool_decide (n = "Entrada") then "A receber" else "A pagar".

(** The text of the column [natureza]. *)
Definition texto_natureza (n : Natureza) : string :=
  match n with
  | Entrada => "Entrada"
  | Saida => "Saída"
  end.

(** The status given to an imported row: [x] is [str] of the nature the
    merge with the plan found. *)
Definition status_importado (importar_conciliado : bool) (x : string) : string :=
  if importar_conciliado
  then (if bool_decide (Str.strip x = "Entrada") then "Recebido" else "Pago")
  else (if bool_decide (Str.strip x = "Entrada") then "A receber" else "A pagar").

(** The [UPDATE] of [atualizar_atrasados] on one row: the status of an
    open row due before [hoje] is set; [date(...)] of a text that is no
    date is NULL and the row is left alone. *)
Definition atrasar (hoje : Z) (l : Lancamento) : Lancamento :=
  if match data_pagamento l with Some d => d <? hoje | None => false end
     && bool_decide (status l ∈ ["A pagar"; "A receber"])
  then mkLanc (data_pagamento l) (valor l) "Atrasado" (plano_conta_id l)
  else l.

(** [atualizar_atrasados] *)
Definition atualizar_atrasados (hoje : Z) (lancs : list Lancamento) : list Lancamento :=
  map (atrasar hoje) lancs.

(** "Validacao": the two [UPDATE]s on one row: the status is set and, for
    a settled status, the payment date becomes the real date. *)
Definition ajustar_linha (novo_status : string) (data_real : Z) (l : Lancamento)
    : Lancamento :=
  mkLanc (if bool_decide (novo_status ∈ ["Pago"; "Recebido"])
          then Some data_real else data_pagamento l)
    (valor l) novo_status (plano_conta_id l).

(** The [UPDATE ... WHERE rowid = :id]; [id] is the position of the row
    in the table, and nothing changes when there is no such row. *)
Definition ajustar (id : nat) (novo_status : string) (data_real : Z)
    (lancs : list Lancamento) : list Lancamento :=
  alter (ajustar_linha novo_status data_real) id lancs.

(** "Salvar Saldo": [DELETE] the rows of the date and type, then [INSERT]
    the new row, which gets the greatest [id]. *)
Definition salvar_saldo (d : Z) (t : TipoSaldo) (v : Z) (saldos : list Saldo) : list Saldo :=
  (List.filter (λ s : Saldo, negb (bool_decide (data_referencia s = d ∧ tipo s = t))) saldos
   ++ [mkSaldo d t v])%list.

(** The table after a run of uses of the form, from the empty table. *)
Definition saldos_salvos (ops : list (Z * TipoSaldo * Z)) : list Saldo :=
  foldl (λ (saldos : list Saldo) (op : Z * TipoSaldo * Z),
           salvar_saldo op.1.1 op.1.2 op.2 saldos) [] ops.

(** [natureza_sel = str(conta_row["natureza"]).strip()] *)
Definition natureza_sel (conta_row : Conta) : string :=
  Str.strip (texto_natureza (natureza conta_row)).

(** [l.index(x)] for an [x] that occurs in [l]. *)
Fixpoint index (x : string) (l : list string) : nat :=
  match l with
  | [] => 0%nat
  | y :: r => if bool_decide (y = x) then 0%nat else S (index x r)
  end.

(** The status the selectbox of the form shows first:
    [index=status_opcoes.index(status_padrao) if status_padrao in
    status_opcoes else 0]. *)
Definition status_inicial (natureza : option string) : option string :=
  let status_opcoes := status_opcoes_por_natureza natureza in
  let status_padrao := default_status_por_natureza natureza in
  status_opcoes
    !! (if bool_decide (status_padrao ∈ status_opcoes)
        then index status_padrao status_opcoes else 0%nat).

(** The row the form inserts. *)
Definition novo_lancamento (conta_row : Conta) (vencimento valor : Z) (st : string)
    : Lancamento :=
  mkLanc (Some vencimento) valor st (codigo conta_row).

End Formularios.

(** ** The two views from the admissible rows on *)

Module Nucleo.
Import Passos.

(** The view "DFC - Caixa" after the conciliation filter. *)
Definition relatorio_de (cfg : Config) (df_mov : list Mov) (saldos : list Saldo)
    (data_inicio data_fim : Z) : option DFC.Relatorio :=
  if bool_decide (df_mov = []) then None else
  let df_periodo := List.filter (no_periodo data_inicio data_fim) df_mov in
  if bool_decide (df_periodo = []) then None else
  let lancado := DFC.resolver_saldo_lancado cfg saldos data_inicio in
  let calc := DFC.resolver_saldo_calc cfg df_mov data_inicio in
  let saldo_inicial := DFC.combinar_saldos cfg lancado calc in
  let total_entradas := soma_natureza Entrada df_periodo in
  let total_saidas_raw := soma_natureza Saida df_periodo in
  let total_saidas := sinal_saidas (forcar_saida_negativa cfg) total_saidas_raw in
  let saldo_final_calc :=
    DFC.aplicar_modelo (modelo cfg) saldo_inicial total_entradas total_saidas in
  let saldo_final_lancado := DFC.consulta_saldo Final saldos data_fim in
  let geracao_caixa := saldo_final_calc - saldo_inicial in
  Some (DFC.mkRelatorio lancado calc saldo_inicial total_entradas total_saidas_raw
          total_saidas saldo_final_calc saldo_final_lancado geracao_caixa).

(** The simulation after the conciliation filter. *)
Definition resultado_de (desempate : list Saldo → option Saldo) (cfg : Config)
    (df_mov_sim : list Mov) (saldos : list Saldo) (data_sim_ini data_sim_fim : Z)
    : option Simulacao.Resultado :=
  if bool_decide (df_mov_sim = []) then None else
  let saldo_inicial_sim :=
    Simulacao.saldo_inicial_de desempate cfg saldos df_mov_sim data_sim_ini in
  let df_periodo_sim := List.filter (no_periodo data_sim_ini data_sim_fim) df_mov_sim in
  let total_entradas_periodo := soma_natureza Entrada df_periodo_sim in
  let total_saidas_periodo :=
    sinal_saidas (forcar_saida_negativa cfg) (soma_natureza Saida df_periodo_sim) in
  let saldo_final_sim :=
    Simulacao.aplicar_formula (modelo cfg) saldo_inicial_sim total_entradas_periodo
      total_saidas_periodo in
  Some (Simulacao.mkResultado saldo_inicial_sim total_entradas_periodo
          total_saidas_periodo saldo_final_sim).

(** Two rows that differ at most in their status. *)
Definition mesmo_movimento (m1 m2 : Mov) : Prop :=
  mov_data m1 = mov_data m2 ∧ mov_valor m1 = mov_valor m2
  ∧ mov_codigo m1 = mov_codigo m2 ∧ mov_natureza m1 = mov_natureza m2.

(** A configuration with another value of [forcar_saida_negativa]. *)
Definition com_forcar (b : bool) (cfg : Config) : Config :=
  mkConfig (modelo cfg) (considerar_somente_conciliados cfg) (usar_saldo_lancado cfg)
    (usar_saldo_calculado cfg) b.

End Nucleo.

(** ** The view "DFC - Caixa": the tree drawn *)

Module Arvore.
Import Passos Rollup.

(** What [render_no] draws for a node: an expander that holds the line
    "Total do grupo" and what is drawn for the children, or one line.
    The code and the description are the two parts of the label, the
    amount is the number handed to [fmt_brl]. *)
Inductive No :=
| Grupo (cod desc : string) (valor : Z) (expanded : bool) (nos : list No)
| Linha (cod desc : string) (valor : Z).

Definition no_codigo (no : No) : string :=
  match no with
  | Grupo cod _ _ _ _ => cod
  | Linha cod _ _ => cod
  end.

(** The code and the amount of every node drawn, from top to bottom. *)
Fixpoint linhas (no : No) : list (string * Z) :=
  match no with
  | Grupo cod _ valor _ nos => (cod, valor) :: flat_map linhas nos
  | Linha cod _ valor => [(cod, valor)]
  end.

(** [total if natureza == "Entrada" else -total] *)
Definition valor_mostrado (natureza : Natureza) (total : Z) : Z :=
  match natureza with
  | Entrada => total
  | Saida => - total
  end.

(** How often [x] occurs in [l]. *)
Definition conta (x : string) (l : list string) : Z :=
  somaZ (map (λ y : string, if bool_decide (y = x) then 1 else 0) l).

Section desenho.
Variable desc : gmap string string.
Variable nat_de : gmap string Natureza.
Variable ks : list string.
Variable soma : gmap (string * Natureza) Z.

(** [[c for c in filhos.get(cod, []) if plano_nat.get(c) == natureza]] *)
Definition filhos_mostrados (cod : string) (natureza : Natureza) : list string :=
  List.filter (λ c : string, bool_decide (nat_de !! c = Some natureza))
    (default [] (filhos desc ks !! cod)).

(** One round of the loop over the children of [render_no], given the
    recursive call: the state is what was drawn so far and
    [cache_total]. *)
Definition passo_render
    (rec : gmap (string * Natureza) Z → string → option (No * gmap (string * Natureza) Z))
    (natureza : Natureza)
    (st : option (list No * gmap (string * Natureza) Z)) (ch : string)
    : option (list No * gmap (string * Natureza) Z) :=
  match st with
  | None => None
  | Some (nos, cache) =>
      if bool_decide (nat_de !! ch ≠ Some natureza) then Some (nos, cache)
      else match rec cache ch with
           | Some (no, cache') => Some ((nos ++ [no])%list, cache')
           | None => None
           end
  end.

(** [render_no], with [cache_total] passed along and [prof] bounding the
    depth of the recursion; [total_no] runs at the depth that covers every
    chain of children. *)
Fixpoint render_no (prof : nat) (cache_total : gmap (string * Natureza) Z)
    (cod : string) (natureza : Natureza) (depth : nat)
    : option (No * gmap (string * Natureza) Z) :=
  match prof with
  | O => None
  | S prof' =>
      let desc_no := default cod (desc !! cod) in
      match total_no desc nat_de ks soma 4 cache_total cod natureza with
      | None => None
      | Some (total, cache_total) =>
          let tem_filhos :=
            bool_decide (0 < List.length (filhos_mostrados cod natureza))%nat in
          let valor := valor_mostrado natureza total in
          if tem_filhos then
            match foldl (passo_render
                           (λ cache ch, render_no prof' cache ch natureza (S depth))
                           natureza)
                    (Some ([], cache_total)) (default [] (filhos desc ks !! cod)) with
            | Some (nos, cache_total) =>
                Some (Grupo cod desc_no valor (bool_decide (depth = 0%nat)) nos, cache_total)
            | None => None
            end
          else Some (Linha cod desc_no valor, cache_total)
      end
  end.

(** One round of [for r in roots: render_no(r, natureza, depth=0)]. *)
Definition passo_raiz (natureza : Natureza)
    (st : option (list No * gmap (string * Natureza) Z)) (r : string)
    : option (list No * gmap (string * Natureza) Z) :=
  match st with
  | None => None
  | Some (nos, cache) =>
      match render_no 4 cache r natureza 0 with
      | Some (no, cache') => Some ((nos ++ [no])%list, cache')
      | None => None
      end
  end.

(** A column of the tree: nothing is drawn for an empty list of roots
    (the view shows a notice instead). *)
Definition render_raizes (cache_total : gmap (string * Natureza) Z)
    (rs : list string) (natureza : Natureza)
    : option (list No * gmap (string * Natureza) Z) :=
  foldl (passo_raiz natureza) (Some ([], cache_total)) rs.

(** The codes [render_no] goes through from [cod], from top to bottom. *)
Fixpoint visita (prof : nat) (cod : string) (natureza : Natureza) : list string :=
  match prof with
  | O => []
  | S prof' =>
      cod :: flat_map (λ ch : string, visita prof' ch natureza)
               (filhos_mostrados cod natureza)
  end.

End desenho.

(** "DFC HIERARQUICO": the column of the Entradas, then that of the
    Saidas, on the one [cache_total]. *)
Definition dfc_hierarquico (plano : list Conta) (df_periodo : list Mov)
    : option (list No * list No) :=
  let df_plano := ler_plano plano in
  let plano_desc := plano_desc df_plano in
  let plano_nat := plano_nat df_plano in
  let ks := chaves df_plano in
  let soma_por_codigo := soma_por_codigo df_periodo in
  match render_raizes plano_desc plano_nat ks soma_por_codigo ∅
          (roots plano_desc plano_nat ks Entrada) Entrada with
  | None => None
  | Some (recebimentos, cache_total) =>
      match render_raizes plano_desc plano_nat ks soma_por_codigo cache_total
              (roots plano_desc plano_nat ks Saida) Saida with
      | None => None
      | Some (pagamentos, _) => Some (recebimentos, pagamentos)
      end
  end.

(** The accounts of a nature: the keys of the plan with that nature. *)
Definition contas_de (plano : list Conta) (natureza : Natureza) : list string :=
  chaves_nat (plano_nat (ler_plano plano)) (chaves (ler_plano plano)) natureza.

End Arvore.

(** * Properties *)

(** ** Texts: [split] and [strip] *)

Section textos.
Import Str.

Lemma split_nao_vazio s : split s ≠ [].
Proof. destruct s as [|c r]; simpl; [done|]. destruct (Ascii.eqb c ponto), (split r); done. Qed.

Lemma split_sem_ponto a : sem_ponto a = true → split a = [a].
Proof.
  induction a as [|c r IH]; simpl; [done|].
  intros [Hc Hr]%andb_prop. apply negb_true_iff in Hc. rewrite Hc, (IH Hr). done.
Qed.

Lemma split_app_ponto a r :
  sem_ponto a = true → split (a +:+ String ponto r) = a :: split r.
Proof.
  induction a as [|c a IH]; simpl.
  - intros _. done.
  - intros [Hc Hr]%andb_prop. apply negb_true_iff in Hc. rewrite Hc, (IH Hr). done.
Qed.

Lemma split_blocos_sem_ponto s : Forall (λ b, sem_ponto b = true) (split s).
Proof.
  induction s as [|c r IH]; simpl.
  - by repeat constructor.
  - destruct (Ascii.eqb c ponto) eqn:Hc.
    + by constructor.
    + destruct (split r) as [|h t].
      * repeat constructor. simpl. by rewrite Hc.
      * inversion IH; subst. constructor; [|done]. simpl. by rewrite Hc.
Qed.

(** The first block decides whether a text starts with ["1"]. *)
Lemma split_prefixo s h t r :
  split s = h :: t → startswith "1" s = startswith "1" (h +:+ String ponto r).
Proof.
  destruct s as [|c s']; cbn [split].
  - intros [= <- <-]. done.
  - destruct (Ascii.eqb c ponto) eqn:Hc.
    + intros [= <- <-]. apply Ascii.eqb_eq in Hc. subst c. done.
    + destruct (split s'); intros [= <- <-]; cbn [startswith String.append]; done.
Qed.

Lemma lstrip_inicio s c r : lstrip s = String c r → is_ws c = false.
Proof.
  induction s as [|x s IH]; simpl; [done|].
  destruct (is_ws x) eqn:Hx; [done|]. by intros [= <- <-].
Qed.

Lemma rstrip_inicio s c :
  rstrip (String c s) = "" ∨ ∃ r, rstrip (String c s) = String c r.
Proof. simpl. destruct (rstrip s); [destruct (is_ws c)|]; eauto. Qed.

(** A stripped text is empty or starts with a character that is not
    white space. *)
Lemma strip_inicio s c r : strip s = String c r → is_ws c = false.
Proof.
  unfold strip. destruct (lstrip s) as [|x l] eqn:Hl; [done|].
  apply lstrip_inicio in Hl.
  destruct (rstrip_inicio l x) as [H|[r' H]]; rewrite H; [done|].
  by intros [= <- _].
Qed.

Lemma rstrip_fim s c : is_ws c = false → rstrip (s +:+ String c "") = s +:+ String c "".
Proof.
  intros Hc. induction s as [|x s IH]; simpl.
  - by rewrite Hc.
  - rewrite IH. destruct s; done.
Qed.

Lemma lstrip_id s c r : s = String c r → is_ws c = false → lstrip s = s.
Proof. intros -> Hc. simpl. by rewrite Hc. Qed.

Lemma app_assoc_s (a b c : string) : (a +:+ b) +:+ c = a +:+ (b +:+ c).
Proof.
  induction a as [|x a IH]; [done|].
  change (String x ((a +:+ b) +:+ c) = String x (a +:+ (b +:+ c))). by rewrite IH.
Qed.

Lemma rstrip_idem s : rstrip (rstrip s) = rstrip s.
Proof.
  induction s as [|c r IH]; [done|]. cbn [rstrip].
  destruct (rstrip r) as [|x r'] eqn:Hr.
  - destruct (is_ws c) eqn:Hc; [done|]. cbn [rstrip]. by rewrite Hc.
  - cbn [rstrip]. cbn [rstrip] in IH. by rewrite IH.
Qed.

(** [strip] is idempotent. *)
Lemma strip_idem s : strip (strip s) = strip s.
Proof.
  destruct (strip s) as [|c r] eqn:Hs; [done|].
  pose proof (strip_inicio _ _ _ Hs) as Hc.
  unfold strip at 1. rewrite (lstrip_id _ c r) by done.
  rewrite <- Hs. unfold strip. apply rstrip_idem.
Qed.

End textos.

(** ** Account codes: blocks, candidates and specificity *)

Section codigos.
Import Str Codigo.

Lemma split_cabeca s h t :
  split s = h :: t →
  match h with EmptyString => True | String x _ => ∃ r, s = String x r end.
Proof.
  destruct s as [|c s']; cbn [split].
  - by intros [= <- <-].
  - destruct (Ascii.eqb c ponto).
    + by intros [= <- <-].
    + destruct (split s'); intros [= <- <-]; eauto.
Qed.

Lemma codigo_blocos_inv cod :
  ∃ a b c d t,
    codigo_blocos cod = [a; b; c; d]
    ∧ split (normalizar_codigo cod) = a :: t
    ∧ sem_ponto a = true ∧ sem_ponto b = true ∧ sem_ponto c = true
    ∧ sem_ponto d = true ∧ inicio_ok a.
Proof.
  unfold codigo_blocos.
  pose proof (split_blocos_sem_ponto (normalizar_codigo cod)) as HF.
  pose proof (split_cabeca (normalizar_codigo cod)) as HC.
  pose proof (strip_inicio cod) as HS.
  destruct (split (normalizar_codigo cod)) as [|a t] eqn:Hp.
  { by apply split_nao_vazio in Hp. }
  assert (inicio_ok a) as Ha.
  { specialize (HC a t eq_refl). destruct a as [|x a']; [done|].
    destruct HC as [r Hr]. simpl. eapply HS. exact Hr. }
  inversion HF as [|? ? Hsa HF1]; subst.
  destruct t as [|b [|c [|d rest]]]; cbn.
  - exists a, "00", "00", "00", []. done.
  - inversion HF1; subst. exists a, b, "00", "00", [b]. done.
  - inversion HF1 as [|? ? ? HF2]; subst. inversion HF2; subst.
    exists a, b, c, "00", [b; c]. done.
  - inversion HF1 as [|? ? ? HF2]; subst. inversion HF2 as [|? ? ? HF3]; subst.
    inversion HF3; subst. exists a, b, c, d, (b :: c :: d :: rest). done.
Qed.

(** [codigo_blocos] always returns four blocks. *)
Lemma codigo_blocos_length cod : List.length (codigo_blocos cod) = 4%nat.
Proof. destruct (codigo_blocos_inv cod) as (a & b & c & d & t & -> & _). done. Qed.

Lemma strip_candidato a r :
  inicio_ok a → strip (a +:+ String ponto (r +:+ "0")) = a +:+ String ponto (r +:+ "0").
Proof.
  intros Ha. unfold strip.
  assert (lstrip (a +:+ String ponto (r +:+ "0")) = a +:+ String ponto (r +:+ "0")) as ->.
  { destruct a as [|x a']; [done|]. eapply lstrip_id; [reflexivity|exact Ha]. }
  change (String ponto (r +:+ "0")) with ("." +:+ (r +:+ "0")).
  rewrite <- !app_assoc_s. by apply rstrip_fim.
Qed.

(** The blocks of a candidate built from blocks. *)
Lemma blocos_candidato a b c :
  sem_ponto a = true → sem_ponto b = true → sem_ponto c = true → inicio_ok a →
  codigo_blocos (a +:+ "." +:+ b +:+ "." +:+ c +:+ ".00") = [a; b; c; "00"].
Proof.
  intros Ha Hb Hc Hi. unfold codigo_blocos, normalizar_codigo.
  assert (a +:+ "." +:+ b +:+ "." +:+ c +:+ ".00"
          = a +:+ String ponto ((b +:+ "." +:+ c +:+ ".0") +:+ "0")) as ->.
  { rewrite !app_assoc_s. done. }
  rewrite strip_candidato by done.
  rewrite !app_assoc_s.
  change (a +:+ String ponto (b +:+ "." +:+ c +:+ ".0" +:+ "0"))
    with (a +:+ String ponto (b +:+ String ponto (c +:+ String ponto "00"))).
  rewrite !split_app_ponto by done. done.
Qed.

(** The text of a candidate splits into exactly four blocks. *)
Lemma split_candidato a b c :
  sem_ponto a = true → sem_ponto b = true → sem_ponto c = true → inicio_ok a →
  split (normalizar_codigo (a +:+ "." +:+ b +:+ "." +:+ c +:+ ".00")) = [a; b; c; "00"].
Proof.
  intros Ha Hb Hc Hi. unfold normalizar_codigo.
  assert (a +:+ "." +:+ b +:+ "." +:+ c +:+ ".00"
          = a +:+ String ponto ((b +:+ "." +:+ c +:+ ".0") +:+ "0")) as ->.
  { rewrite !app_assoc_s. done. }
  rewrite strip_candidato by done.
  rewrite !app_assoc_s.
  change (a +:+ String ponto (b +:+ "." +:+ c +:+ ".0" +:+ "0"))
    with (a +:+ String ponto (b +:+ String ponto (c +:+ String ponto "00"))).
  rewrite !split_app_ponto by done. done.
Qed.

Lemma candidato_quatro_blocos cod p :
  p ∈ codigo_pais cod → List.length (split (normalizar_codigo p)) = 4%nat.
Proof.
  unfold codigo_pais.
  destruct (codigo_blocos_inv cod) as (a & b & c & d & t & -> & _ & Ha & Hb & Hc & Hd & Hi).
  unfold pais_de_blocos. rewrite !elem_of_app.
  intros [H|[H|H]]; case_bool_decide; try (by apply elem_of_nil in H);
    apply list_elem_of_singleton in H as ->.
  - by rewrite split_candidato.
  - change (a +:+ "." +:+ b +:+ ".00.00") with (a +:+ "." +:+ b +:+ "." +:+ "00" +:+ ".00").
    by rewrite split_candidato.
  - change (a +:+ ".00.00.00") with (a +:+ "." +:+ "00" +:+ "." +:+ "00" +:+ ".00").
    by rewrite split_candidato.
Qed.

(** Every candidate of [codigo_pais] is strictly less specific than the
    code. *)
Lemma nivel_pai cod p : p ∈ codigo_pais cod → (nivel p < nivel cod)%nat.
Proof.
  unfold codigo_pais, nivel.
  destruct (codigo_blocos_inv cod) as (a & b & c & d & t & -> & _ & Ha & Hb & Hc & Hd & Hi).
  unfold pais_de_blocos. rewrite !elem_of_app.
  intros [H|[H|H]].
  - case_bool_decide; [|by apply elem_of_nil in H].
    apply list_elem_of_singleton in H as ->.
    rewrite blocos_candidato by done. cbn.
    rewrite (bool_decide_true (d ≠ "00")) by done.
    repeat case_bool_decide; simpl; lia || done.
  - case_bool_decide as Hc0; [|by apply elem_of_nil in H].
    apply list_elem_of_singleton in H as ->.
    change (a +:+ "." +:+ b +:+ ".00.00") with (a +:+ "." +:+ b +:+ "." +:+ "00" +:+ ".00").
    rewrite blocos_candidato by done. cbn.
    rewrite (bool_decide_true (c ≠ "00")) by done.
    repeat case_bool_decide; simpl; lia || done.
  - case_bool_decide as Hb0; [|by apply elem_of_nil in H].
    apply list_elem_of_singleton in H as ->.
    change (a +:+ ".00.00.00") with (a +:+ "." +:+ "00" +:+ "." +:+ "00" +:+ ".00").
    rewrite blocos_candidato by done. cbn.
    rewrite (bool_decide_true (b ≠ "00")) by done.
    repeat case_bool_decide; simpl; lia || done.
Qed.

Lemma nivel_max cod : (nivel cod ≤ 3)%nat.
Proof.
  unfold nivel. destruct (codigo_blocos_inv cod) as (a & b & c & d & t & -> & _).
  cbn. repeat case_bool_decide; simpl; lia.
Qed.

(** A candidate is never the empty text. *)
Lemma pai_nao_vazio cod p : p ∈ codigo_pais cod → p ≠ "".
Proof.
  unfold codigo_pais.
  destruct (codigo_blocos_inv cod) as (a & b & c & d & t & -> & _).
  unfold pais_de_blocos. rewrite !elem_of_app.
  intros [H|[H|H]]; case_bool_decide; try (by apply elem_of_nil in H);
    apply list_elem_of_singleton in H as ->; by destruct a.
Qed.

(** A candidate starts with ["1"] exactly when the code does. *)
Lemma natureza_pai cod p :
  p ∈ codigo_pais cod →
  Plano.natureza_de_codigo p = Plano.natureza_de_codigo (normalizar_codigo cod).
Proof.
  unfold codigo_pais, Plano.natureza_de_codigo.
  destruct (codigo_blocos_inv cod) as (a & b & c & d & t & -> & Hs & _).
  unfold pais_de_blocos. rewrite !elem_of_app.
  intros [H|[H|H]]; case_bool_decide; try (by apply elem_of_nil in H);
    apply list_elem_of_singleton in H as ->.
  - by rewrite (split_prefixo _ _ _ (b +:+ "." +:+ c +:+ ".00") Hs).
  - by rewrite (split_prefixo _ _ _ (b +:+ ".00.00") Hs).
  - by rewrite (split_prefixo _ _ _ "00.00.00" Hs).
Qed.

End codigos.

(** ** The dicts of the plan *)

Section dicts.
Import Rollup.

Lemma plano_desc_aux (l : list Conta) (m : gmap string string) k :
  is_Some (foldl (λ (m : gmap string string) (r : Conta), <[codigo r := descricao r]> m) m l !! k)
  ↔ is_Some (m !! k) ∨ k ∈ map codigo l.
Proof.
  revert m. induction l as [|r l IH]; intros m; simpl.
  - rewrite elem_of_nil. tauto.
  - rewrite IH, elem_of_cons, lookup_insert_is_Some.
    destruct (decide (codigo r = k)) as [->|]; intuition congruence.
Qed.

(** [p in plano_desc] *)
Lemma plano_desc_lookup df k : is_Some (plano_desc df !! k) ↔ k ∈ map codigo df.
Proof.
  unfold plano_desc. rewrite plano_desc_aux, lookup_empty.
  split; [intros [[? [=]]|]|]; auto.
Qed.

Lemma plano_nat_aux (l : list Conta) (m : gmap string Natureza) k n :
  foldl (λ (m : gmap string Natureza) (r : Conta), <[codigo r := natureza r]> m) m l !! k = Some n →
  m !! k = Some n ∨ ∃ r, r ∈ l ∧ codigo r = k ∧ natureza r = n.
Proof.
  revert m. induction l as [|r l IH]; intros m; simpl; [auto|].
  intros [H|(r' & ? & ? & ?)]%IH.
  - apply lookup_insert_Some in H as [[? ?]|[? ?]]; [right|by left].
    exists r. split; [left|done].
  - right. exists r'. split; [by right|done].
Qed.

(** [plano_nat.get(c)] is the nature of some row with that code. *)
Lemma plano_nat_lookup df k n :
  plano_nat df !! k = Some n → ∃ r, r ∈ df ∧ codigo r = k ∧ natureza r = n.
Proof. intros [H|H]%plano_nat_aux; [by rewrite lookup_empty in H|done]. Qed.

Lemma plano_nat_aux_dom (l : list Conta) (m : gmap string Natureza) k :
  is_Some (foldl (λ (m : gmap string Natureza) (r : Conta), <[codigo r := natureza r]> m) m l !! k)
  ↔ is_Some (m !! k) ∨ k ∈ map codigo l.
Proof.
  revert m. induction l as [|r l IH]; intros m; simpl.
  - rewrite elem_of_nil. tauto.
  - rewrite IH, elem_of_cons, lookup_insert_is_Some.
    destruct (decide (codigo r = k)) as [->|]; intuition congruence.
Qed.

Lemma plano_nat_dom df k : is_Some (plano_nat df !! k) ↔ k ∈ map codigo df.
Proof.
  unfold plano_nat. rewrite plano_nat_aux_dom, lookup_empty.
  split; [intros [[? [=]]|]|]; auto.
Qed.

Lemma chaves_NoDup df : NoDup (chaves df).
Proof. unfold chaves. rewrite reverse_Permutation. apply NoDup_remove_dups. Qed.

(** The keys are the codes of the rows. *)
Lemma elem_of_chaves df k : k ∈ chaves df ↔ k ∈ map codigo df.
Proof. unfold chaves. by rewrite elem_of_reverse, elem_of_remove_dups, elem_of_reverse. Qed.

Lemma chaves_desc df k : k ∈ chaves df ↔ is_Some (plano_desc df !! k).
Proof. by rewrite elem_of_chaves, plano_desc_lookup. Qed.

End dicts.

(** ** Sums and filters *)

Section somas.
Import Passos.

Lemma somaZ_app l1 l2 : somaZ (l1 ++ l2) = somaZ l1 + somaZ l2.
Proof. unfold somaZ. induction l1 as [|x l1 IH]; simpl; [done|]. rewrite IH. lia. Qed.

Lemma somaZ_perm l1 l2 : l1 ≡ₚ l2 → somaZ l1 = somaZ l2.
Proof. unfold somaZ. induction 1; simpl; lia. Qed.

Lemma elem_of_lfilter {A} (f : A → bool) l x : x ∈ List.filter f l ↔ x ∈ l ∧ f x = true.
Proof. rewrite !list_elem_of_In. apply filter_In. Qed.

Lemma lfilter_nil {A} (f : A → bool) l : (∀ x, x ∈ l → f x = false) → List.filter f l = [].
Proof.
  induction l as [|x l IH]; intros H; simpl; [done|].
  rewrite (H x) by left. apply IH. intros y Hy. apply H. by right.
Qed.

Lemma lfilter_ext {A} (f g : A → bool) l :
  (∀ x, x ∈ l → f x = g x) → List.filter f l = List.filter g l.
Proof.
  induction l as [|x l IH]; intros H; simpl; [done|].
  rewrite (H x) by left. rewrite IH; [done|]. intros y Hy. apply H. by right.
Qed.

Lemma lfilter_perm {A} (f : A → bool) l1 l2 :
  l1 ≡ₚ l2 → List.filter f l1 ≡ₚ List.filter f l2.
Proof.
  induction 1 as [|x l1 l2 _ IH|x y l|l1 l2 l3 _ IH1 _ IH2]; simpl.
  - done.
  - destruct (f x); by rewrite IH.
  - destruct (f x), (f y); try done. apply perm_swap.
  - by rewrite IH1.
Qed.

Lemma NoDup_lfilter {A} (f : A → bool) l : NoDup l → NoDup (List.filter f l).
Proof.
  induction 1 as [|x l Hx _ IH]; simpl; [constructor|].
  destruct (f x); [|done]. constructor; [|done].
  rewrite elem_of_lfilter. tauto.
Qed.

(** A sum over a list splits along any test. *)
Lemma somaZ_particao {A} (g : A → Z) (f : A → bool) l :
  somaZ (map g l)
  = somaZ (map g (List.filter f l)) + somaZ (map g (List.filter (λ x, negb (f x)) l)).
Proof.
  unfold somaZ. induction l as [|x l IH]; simpl; [done|].
  destruct (f x); simpl; lia.
Qed.

Lemma somaZ_map_ext {A} (g h : A → Z) l :
  (∀ x, x ∈ l → g x = h x) → somaZ (map g l) = somaZ (map h l).
Proof.
  unfold somaZ. induction l as [|x l IH]; intros H; simpl; [done|].
  rewrite (H x) by left. rewrite IH; [done|]. intros y Hy. apply H. by right.
Qed.

End somas.

(** ** The hierarchy: parents, children and roots *)

Section hierarquia.
Import Passos Rollup Codigo.

Variable desc : gmap string string.
Variable ks : list string.
Hypothesis Hks : ∀ k, k ∈ ks ↔ is_Some (desc !! k).
Hypothesis Hnd : NoDup ks.

Local Notation filho_de := (Rollup.filho_de desc).

Lemma pai_existente_Some c p :
  pai_existente desc c = Some p → p ∈ codigo_pais c ∧ is_Some (desc !! p).
Proof.
  unfold pai_existente. intros [Hin Hex]%find_some.
  split; [by apply list_elem_of_In|]. unfold existe in Hex. by apply bool_decide_eq_true in Hex.
Qed.

Lemma tem_pai_find c : tem_pai desc c = bool_decide (is_Some (pai_existente desc c)).
Proof.
  unfold tem_pai, pai_existente.
  induction (codigo_pais c) as [|p l IH]; simpl.
  - reflexivity.
  - destruct (existe desc p); simpl; [reflexivity|done].
Qed.

(** A code is a root exactly when none of its candidates is a key. *)
Lemma tem_pai_false c :
  tem_pai desc c = false ↔ ∀ p, p ∈ codigo_pais c → desc !! p = None.
Proof.
  unfold tem_pai. rewrite <- not_true_iff_false, existsb_exists. split.
  - intros H p Hp. destruct (desc !! p) eqn:E; [|done]. exfalso. apply H.
    exists p. split; [by apply list_elem_of_In|]. unfold existe. apply bool_decide_eq_true.
    rewrite E. eauto.
  - intros H (p & Hp%list_elem_of_In & He). unfold existe in He.
    apply bool_decide_eq_true in He. rewrite (H p Hp) in He. by destruct He.
Qed.

Lemma verdadeiro_pai c p : pai_existente desc c = Some p → verdadeiro (Some p) = true.
Proof.
  intros [Hp _]%pai_existente_Some. apply pai_nao_vazio in Hp. by destruct p.
Qed.

Lemma filhos_vazio_aux (l : list string) (m : gmap string (list string)) k :
  foldl (λ (m : gmap string (list string)) (k : string), <[k := []]> m) m l !! k
  = if decide (k ∈ l) then Some [] else m !! k.
Proof.
  revert m. induction l as [|x l IH]; intros m; cbn [foldl].
  - by rewrite decide_False by apply not_elem_of_nil.
  - rewrite IH. destruct (decide (k ∈ l)) as [Hin|Hin].
    + by rewrite decide_True by by right.
    + destruct (decide (x = k)) as [->|Hne].
      * rewrite lookup_insert_eq. by rewrite decide_True by by left.
      * rewrite lookup_insert_ne by done. rewrite decide_False; [done|].
        intros [?|?]%elem_of_cons; congruence.
Qed.

Lemma anexar_filho_aux (l : list string) (f : gmap string (list string)) (k : string) :
  foldl (anexar_filho desc) f l !! k
  = (λ old : list string, (old ++ List.filter (filho_de k) l)%list) <$> f !! k.
Proof.
  revert f. induction l as [|c l IH]; intros f; cbn [foldl List.filter].
  - destruct (f !! k); simpl; [|done]. by rewrite app_nil_r.
  - rewrite IH. unfold anexar_filho, Rollup.filho_de at 2.
    destruct (pai_existente desc c) as [p|] eqn:Hp.
    + rewrite (verdadeiro_pai _ _ Hp).
      destruct (decide (p = k)) as [->|Hne].
      * rewrite lookup_alter_eq, bool_decide_true by done.
        destruct (f !! k); simpl; [|done]. by rewrite <- app_assoc.
      * rewrite lookup_alter_ne by done. rewrite bool_decide_false by congruence. done.
    + cbn [verdadeiro]. by rewrite bool_decide_false.
Qed.

(** The children of a key: the keys whose first existing candidate it
    is, without repetition and sorted. *)
Lemma filhos_lookup k :
  filhos desc ks !! k
  = if decide (k ∈ ks) then Some (ordenar (remove_dups (List.filter (filho_de k) ks)))
    else None.
Proof.
  unfold filhos, filhos_vazio. rewrite lookup_fmap, anexar_filho_aux, filhos_vazio_aux.
  rewrite lookup_empty. by destruct (decide (k ∈ ks)).
Qed.

Lemma filhos_perm k : default [] (filhos desc ks !! k) ≡ₚ List.filter (filho_de k) ks.
Proof.
  rewrite filhos_lookup. destruct (decide (k ∈ ks)) as [Hin|Hin]; simpl.
  - unfold ordenar. rewrite merge_sort_Permutation.
    apply NoDup_Permutation.
    + apply NoDup_remove_dups.
    + by apply NoDup_lfilter.
    + intros x. apply elem_of_remove_dups.
  - rewrite lfilter_nil; [done|]. intros c _. unfold filho_de.
    apply bool_decide_eq_false. intros [_ Hs]%pai_existente_Some. by apply Hin, Hks.
Qed.

(** Every child is a key, has the parent as its first existing
    candidate, and is strictly more specific. *)
Lemma filhos_elem k c :
  c ∈ default [] (filhos desc ks !! k) ↔ c ∈ ks ∧ pai_existente desc c = Some k.
Proof.
  rewrite filhos_perm, elem_of_lfilter. unfold Rollup.filho_de.
  by rewrite bool_decide_eq_true.
Qed.

Lemma filhos_nivel k c :
  c ∈ default [] (filhos desc ks !! k) → (nivel k < nivel c)%nat.
Proof.
  intros [_ [Hp _]%pai_existente_Some]%filhos_elem. by apply nivel_pai.
Qed.

End hierarquia.

(** ** The roll-up: [total_no] against its recursive equation *)

Section rollup.
Import Passos Rollup Codigo.

Variable desc : gmap string string.
Variable nat_de : gmap string Natureza.
Variable ks : list string.
Variable soma : gmap (string * Natureza) Z.
Hypothesis Hks : ∀ k, k ∈ ks ↔ is_Some (desc !! k).
Hypothesis Hnd : NoDup ks.

Local Notation filhos_nat := (Rollup.filhos_nat desc nat_de ks).
Local Notation total := (Rollup.total desc nat_de ks soma).
Local Notation cache_ok := (Rollup.cache_ok desc nat_de ks soma).

Lemma total_puro_S n cod N :
  total_puro desc nat_de ks soma (S n) cod N
  = default 0 (soma !! (cod, N))
    + somaZ (map (λ ch, total_puro desc nat_de ks soma n ch N) (filhos_nat cod N)).
Proof. reflexivity. Qed.

Lemma total_puro_estavel n m cod N :
  (4 - nivel cod ≤ n)%nat → (4 - nivel cod ≤ m)%nat →
  total_puro desc nat_de ks soma n cod N = total_puro desc nat_de ks soma m cod N.
Proof.
  revert m cod. induction n as [|n IH]; intros m cod Hn Hm.
  { pose proof (nivel_max cod). lia. }
  destruct m as [|m]. { pose proof (nivel_max cod). lia. }
  rewrite !total_puro_S. f_equal. apply somaZ_map_ext. intros ch [Hch _]%elem_of_lfilter.
  apply (filhos_nivel desc ks Hks Hnd) in Hch. apply IH; lia.
Qed.

Lemma total_eq cod N :
  total cod N
  = default 0 (soma !! (cod, N)) + somaZ (map (λ ch, total ch N) (filhos_nat cod N)).
Proof.
  unfold Rollup.total. rewrite total_puro_S. f_equal. apply somaZ_map_ext.
  intros ch [Hch _]%elem_of_lfilter. apply (filhos_nivel desc ks Hks Hnd) in Hch.
  apply total_puro_estavel; lia.
Qed.

Lemma cache_ok_empty : cache_ok ∅.
Proof. intros c N v H. by rewrite lookup_empty in H. Qed.

Lemma cache_ok_insert cache c N :
  cache_ok cache → cache_ok (<[(c, N) := total c N]> cache).
Proof.
  intros Hok c' N' v [[[= <- <-] <-]|[_ H]]%lookup_insert_Some; [done|]. by apply Hok.
Qed.

Lemma laco_filhos_ok rec N chs base cache :
  cache_ok cache →
  (∀ ch cache, ch ∈ chs → cache_ok cache →
     ∃ cache', rec cache ch N = Some (total ch N, cache') ∧ cache_ok cache') →
  ∃ cache',
    laco_filhos nat_de rec N chs base cache
    = Some (base + somaZ (map (λ ch, total ch N)
                            (List.filter
                               (λ ch : string, bool_decide (default N (nat_de !! ch) = N))
                               chs)), cache')
    ∧ cache_ok cache'.
Proof.
  unfold laco_filhos. revert base cache.
  induction chs as [|ch chs IH]; intros base cache Hok Hrec; cbn [foldl List.filter].
  - exists cache. split; [|done]. do 2 f_equal. unfold somaZ. simpl. lia.
  - destruct (decide (default N (nat_de !! ch) = N)) as [Heq|Hne].
    + rewrite (bool_decide_false (_ ≠ N)) by tauto.
      rewrite (bool_decide_true (_ = N)) by done.
      destruct (Hrec ch cache) as (c1 & -> & Hok1); [by left|done|].
      destruct (IH (base + total ch N) c1 Hok1) as (c2 & -> & Hok2).
      { intros ch' c' Hin. apply Hrec. by right. }
      exists c2. split; [|done]. do 2 f_equal. unfold somaZ. simpl. lia.
    + rewrite (bool_decide_true (_ ≠ N)) by done.
      rewrite (bool_decide_false (_ = N)) by done.
      apply IH; [done|]. intros ch' c' Hin. apply Hrec. by right.
Qed.

(** [total_no] returns the total of the node whenever the depth bound
    covers the levels below the node, and keeps the cache sound. *)
Lemma total_no_ok n cache cod N :
  cache_ok cache → (4 - nivel cod ≤ n)%nat →
  ∃ cache',
    total_no desc nat_de ks soma n cache cod N = Some (total cod N, cache')
    ∧ cache_ok cache'.
Proof.
  revert cache cod. induction n as [|n IH]; intros cache cod Hok Hn.
  { pose proof (nivel_max cod). lia. }
  cbn [total_no]. destruct (cache !! (cod, N)) as [v|] eqn:Hc.
  - exists cache. by rewrite (Hok _ _ _ Hc).
  - destruct (laco_filhos_ok (total_no desc nat_de ks soma n) N
                (default [] (filhos desc ks !! cod))
                (default 0 (soma !! (cod, N))) cache Hok) as (c1 & -> & Hok1).
    { intros ch c' Hch Hok'. apply IH; [done|].
      apply (filhos_nivel desc ks Hks Hnd) in Hch. lia. }
    fold (filhos_nat cod N). rewrite <- total_eq.
    eexists. split; [done|]. by apply cache_ok_insert.
Qed.

Lemma totais_ok cods cache N :
  cache_ok cache →
  ∃ cache',
    totais desc nat_de ks soma 4 cache cods N = Some (map (λ c, total c N) cods, cache')
    ∧ cache_ok cache'.
Proof.
  revert cache. induction cods as [|c cods IH]; intros cache Hok; cbn [totais map].
  - by exists cache.
  - destruct (total_no_ok 4 cache c N Hok) as (c1 & -> & Hok1).
    { pose proof (nivel_max c). lia. }
    destruct (IH c1 Hok1) as (c2 & -> & Hok2). by exists c2.
Qed.

End rollup.

(** ** The roll-up loses nothing *)

Section somas_duplas.
Import Passos.

Lemma somaZ_map_add {A} (f g : A → Z) l :
  somaZ (map (λ x, f x + g x) l) = somaZ (map f l) + somaZ (map g l).
Proof. unfold somaZ. induction l as [|x l IH]; simpl; lia. Qed.

Lemma soma_indicador (K : list string) (o : option string) (v : Z) :
  NoDup K →
  somaZ (map (λ k, if bool_decide (o = Some k) then v else 0) K)
  = if grupo_em K o then v else 0.
Proof.
  unfold somaZ. induction 1 as [|k K Hk _ IH]; cbn [map foldr].
  - by destruct o.
  - rewrite IH. destruct o as [k'|]; cbn [grupo_em]; [|by rewrite bool_decide_false].
    destruct (decide (k' = k)) as [->|Hne].
    + rewrite bool_decide_true by done. rewrite (bool_decide_false (k ∈ K)) by done.
      rewrite (bool_decide_true (k ∈ k :: K)) by left. lia.
    + rewrite bool_decide_false by congruence.
      destruct (decide (k' ∈ K)) as [Hin|Hin].
      * rewrite !bool_decide_true; [lia|by right|done].
      * rewrite !bool_decide_false; [lia| |done].
        intros [?|?]%elem_of_cons; done.
Qed.

(** Summing group by group is summing the rows that fall into a group,
    when no group is listed twice. *)
Lemma soma_dupla {A} (K : list string) (L : list A) (par : A → option string) (g : A → Z) :
  NoDup K →
  somaZ (map (λ k, somaZ (map g (List.filter (λ c, bool_decide (par c = Some k)) L))) K)
  = somaZ (map g (List.filter (λ c, grupo_em K (par c)) L)).
Proof.
  intros HK. induction L as [|c L IH]; cbn [List.filter].
  - unfold somaZ at 2. simpl. induction K as [|k K IHK]; [done|].
    unfold somaZ in *. simpl. apply NoDup_cons in HK as [_ HK]. rewrite IHK; done.
  - transitivity
      (somaZ (map (λ k, (if bool_decide (par c = Some k) then g c else 0)
                        + somaZ (map g (List.filter (λ c, bool_decide (par c = Some k)) L))) K)).
    { apply somaZ_map_ext. intros k _. destruct (bool_decide (par c = Some k)); [|lia].
      unfold somaZ. simpl. lia. }
    rewrite somaZ_map_add, IH, soma_indicador by done.
    destruct (grupo_em K (par c)); unfold somaZ; simpl; lia.
Qed.

End somas_duplas.

Section sem_perda.
Import Passos Rollup Codigo.

Variable desc : gmap string string.
Variable nat_de : gmap string Natureza.
Variable ks : list string.
Variable soma : gmap (string * Natureza) Z.
Hypothesis Hks : ∀ k, k ∈ ks ↔ is_Some (desc !! k).
Hypothesis Hnd : NoDup ks.
Hypothesis Hdom : ∀ c, c ∈ ks → is_Some (nat_de !! c).
Hypothesis Hpai : ∀ c p, c ∈ ks → pai_existente desc c = Some p → nat_de !! p = nat_de !! c.

Local Notation chaves_nat := (Rollup.chaves_nat nat_de ks).

Lemma chaves_nat_NoDup N : NoDup (chaves_nat N).
Proof. by apply NoDup_lfilter. Qed.

Lemma filhos_nat_perm k N :
  k ∈ chaves_nat N →
  filhos_nat desc nat_de ks k N
  ≡ₚ List.filter (λ c, bool_decide (pai_existente desc c = Some k)) (chaves_nat N).
Proof.
  intros Hk. unfold filhos_nat, Rollup.chaves_nat.
  rewrite (lfilter_perm _ _ _ (filhos_perm desc ks Hks Hnd k)).
  unfold Rollup.filho_de. apply NoDup_Permutation.
  - by do 2 apply NoDup_lfilter.
  - by do 2 apply NoDup_lfilter.
  - intros c. rewrite !elem_of_lfilter, !bool_decide_eq_true.
    split.
    + intros [[Hc Hp] Hn]. split; [split|]; try done.
      destruct (Hdom c Hc) as [n Hcn]. rewrite Hcn in Hn |- *. simpl in Hn. by subst.
    + intros [[Hc Hn] Hp]. split; [done|]. by rewrite Hn.
Qed.

Lemma raizes_perm N :
  roots desc nat_de ks N ≡ₚ List.filter (λ c, negb (tem_pai desc c)) (chaves_nat N).
Proof.
  unfold roots, ordenar, Rollup.chaves_nat. rewrite merge_sort_Permutation.
  apply NoDup_Permutation.
  - by apply NoDup_lfilter.
  - by do 2 apply NoDup_lfilter.
  - intros c. rewrite !elem_of_lfilter, andb_true_iff. tauto.
Qed.

Lemma com_pai_grupo N c :
  c ∈ chaves_nat N → grupo_em (chaves_nat N) (pai_existente desc c) = tem_pai desc c.
Proof.
  intros [Hc Hn%bool_decide_eq_true]%elem_of_lfilter. rewrite tem_pai_find.
  destruct (pai_existente desc c) as [p|] eqn:Hp; cbn [grupo_em].
  - rewrite (bool_decide_true (is_Some _)) by eauto.
    apply bool_decide_eq_true. apply elem_of_lfilter.
    destruct (pai_existente_Some _ _ _ Hp) as [_ Hs]. split; [by apply Hks|].
    apply bool_decide_eq_true. by rewrite (Hpai c p Hc Hp).
  - symmetry. apply bool_decide_eq_false. by intros [? [=]].
Qed.

(** The totals of the roots of a nature add up to the own sums of all
    the keys of that nature. *)
Lemma raizes_sem_perda N :
  somaZ (map (λ r, total desc nat_de ks soma r N) (roots desc nat_de ks N))
  = somaZ (map (λ k, default 0 (soma !! (k, N))) (chaves_nat N)).
Proof.
  set (T := λ r, total desc nat_de ks soma r N).
  rewrite (somaZ_perm _ _ (Permutation_map T (raizes_perm N))).
  pose proof (somaZ_particao T (λ c, negb (tem_pai desc c)) (chaves_nat N)) as Hpart.
  assert (somaZ (map T (chaves_nat N))
          = somaZ (map (λ k, default 0 (soma !! (k, N))) (chaves_nat N))
            + somaZ (map T (List.filter (λ c, negb (negb (tem_pai desc c))) (chaves_nat N))))
    as Hsum.
  { transitivity
      (somaZ (map (λ k, default 0 (soma !! (k, N))
                        + somaZ (map T (List.filter
                                          (λ c, bool_decide (pai_existente desc c = Some k))
                                          (chaves_nat N)))) (chaves_nat N))).
    - apply somaZ_map_ext. intros k Hk. unfold T at 1.
      rewrite (total_eq desc nat_de ks soma Hks Hnd). f_equal.
      apply somaZ_perm, Permutation_map, filhos_nat_perm, Hk.
    - rewrite somaZ_map_add. f_equal.
      rewrite soma_dupla by apply chaves_nat_NoDup. f_equal. f_equal.
      apply lfilter_ext. intros c Hc. rewrite negb_involutive. by apply com_pai_grupo. }
  cbv beta in Hpart. lia.
Qed.

End sem_perda.

(** ** The plan as stored by [transformar_plano] *)

Section plano_coerente.
Import Passos Rollup Codigo.

Lemma transformar_plano_coerente df_original :
  plano_coerente (Plano.transformar_plano df_original).
Proof.
  apply Forall_forall. intros r Hr. unfold Plano.transformar_plano in Hr.
  apply list_elem_of_omap in Hr as ([d [c|]] & _ & Hr); simpl in Hr; [|done].
  injection Hr as <-. simpl. split; [|done]. symmetry. apply strip_idem.
Qed.

Section com_plano.
Variable plano : list Conta.
Hypothesis Hco : plano_coerente plano.

Lemma plano_coerente_elem r :
  r ∈ plano → codigo r = Str.strip (codigo r)
              ∧ natureza r = Plano.natureza_de_codigo (codigo r).
Proof. revert r. by apply Forall_forall. Qed.

(** Reading the plan strips nothing more. *)
Lemma ler_plano_id : ler_plano plano = plano.
Proof.
  unfold ler_plano. rewrite <- (map_id plano) at 2. apply map_ext_in.
  intros r Hr%list_elem_of_In. destruct (plano_coerente_elem r Hr) as [<- _]. by destruct r.
Qed.

Lemma plano_nat_coerente k n :
  plano_nat plano !! k = Some n → n = Plano.natureza_de_codigo k ∧ Str.strip k = k.
Proof.
  intros (r & Hr & <- & <-)%plano_nat_lookup.
  destruct (plano_coerente_elem r Hr) as [H1 H2]. done.
Qed.

Lemma plano_nat_chave k :
  k ∈ chaves plano → plano_nat plano !! k = Some (Plano.natureza_de_codigo k) ∧ Str.strip k = k.
Proof.
  intros Hk. apply elem_of_chaves, plano_nat_dom in Hk as [n Hn].
  destruct (plano_nat_coerente _ _ Hn) as [-> ?]. done.
Qed.

(** A key and its parent have the same nature. *)
Lemma plano_nat_pai c p :
  c ∈ chaves plano → pai_existente (plano_desc plano) c = Some p →
  plano_nat plano !! p = plano_nat plano !! c.
Proof.
  intros Hc Hp. destruct (pai_existente_Some _ _ _ Hp) as [Hin Hs].
  apply chaves_desc in Hs.
  destruct (plano_nat_chave _ Hc) as [-> Hst], (plano_nat_chave _ Hs) as [-> _].
  rewrite (natureza_pai _ _ Hin). unfold normalizar_codigo. by rewrite Hst.
Qed.

End com_plano.

End plano_coerente.

(** ** The sums per code and the rows of the join *)

Section linhas.
Import Passos Rollup.

Lemma soma_por_codigo_aux (df : list Mov) (m : gmap (string * Natureza) Z) cod N :
  default 0
    (foldl (λ (m : gmap (string * Natureza) Z) (r : Mov),
              let k := (mov_codigo r, mov_natureza r) in
              <[k := default 0 (m !! k) + mov_valor r]> m) m df !! (cod, N))
  = default 0 (m !! (cod, N)) + soma_propria df cod N.
Proof.
  unfold soma_propria. revert m. induction df as [|r df IH]; intros m; cbn [foldl List.filter].
  - unfold somaZ. simpl. lia.
  - rewrite IH. unfold da_conta at 2, de_natureza.
    destruct (decide ((mov_codigo r, mov_natureza r) = (cod, N))) as [Heq|Hne].
    + injection Heq as H1 H2. rewrite H1, H2, lookup_insert_eq.
      rewrite !bool_decide_true by done. unfold somaZ. simpl. lia.
    + rewrite lookup_insert_ne by done.
      destruct (decide (mov_codigo r = cod)) as [H1|H1];
        destruct (decide (mov_natureza r = N)) as [H2|H2];
        try (exfalso; apply Hne; congruence);
        rewrite ?(bool_decide_false _ H1), ?(bool_decide_false _ H2),
          ?(bool_decide_true _ H1), ?(bool_decide_true _ H2); simpl; done.
Qed.

(** [soma_por_codigo.get((cod, natureza), 0.0)] is the own sum. *)
Lemma soma_por_codigo_get df cod N :
  default 0 (soma_por_codigo df !! (cod, N)) = soma_propria df cod N.
Proof. unfold soma_por_codigo. rewrite soma_por_codigo_aux, lookup_empty. simpl. lia. Qed.

(** Every row of the join carries the code and the nature of a row of
    the plan. *)
Lemma juntar_elem lancs plano m :
  m ∈ juntar lancs plano →
  ∃ p, p ∈ plano ∧ mov_codigo m = codigo p ∧ mov_natureza m = natureza p.
Proof.
  unfold juntar. rewrite list_elem_of_In, in_flat_map.
  intros (l & _ & Hm). apply in_map_iff in Hm as (p & <- & Hp).
  apply filter_In in Hp as [Hp _]. exists p. by rewrite list_elem_of_In.
Qed.

Lemma lfilter_find {A} (f : A → bool) (g : A → string) l :
  NoDup (map g l) → (∀ x y, f x = true → f y = true → g x = g y) →
  List.filter f l = option_list (List.find f l).
Proof.
  intros Hnd Hf. induction l as [|x l IH]; [done|]. cbn [map] in Hnd.
  apply NoDup_cons in Hnd as [Hx Hnd]. cbn [List.filter List.find].
  destruct (f x) eqn:Hfx; [|by apply IH].
  change (option_list (Some x)) with [x]. f_equal.
  apply lfilter_nil. intros y Hy. destruct (f y) eqn:Hfy; [|done].
  exfalso. apply Hx. rewrite (Hf x y Hfx Hfy).
  apply list_elem_of_In, in_map. by apply list_elem_of_In.
Qed.

(** On a plan without repeated codes an entry gives at most one row of
    the join: the row of the account it names. *)
Lemma juntar_sem_repeticao l lancs plano :
  NoDup (map codigo plano) →
  juntar (l :: lancs) plano
  = (option_list
       ((λ p : Conta, mkMov (data_pagamento l) (valor l) (status l) (codigo p) (natureza p))
          <$> List.find (λ p : Conta, bool_decide (plano_conta_id l = codigo p)) plano)
     ++ juntar lancs plano)%list.
Proof.
  intros Hnd. unfold juntar. cbn [flat_map]. f_equal.
  rewrite (lfilter_find _ codigo) by
    (done || (intros x y Hx%bool_decide_eq_true Hy%bool_decide_eq_true; congruence)).
  by destruct (List.find _ plano).
Qed.

Lemma periodo_elem cfg plano lancs ini fim m :
  m ∈ DFC.periodo cfg plano lancs ini fim →
  ∃ p, p ∈ plano ∧ mov_codigo m = codigo p ∧ mov_natureza m = natureza p.
Proof.
  unfold DFC.periodo, DFC.admissiveis, filtro_conciliacao, dropna.
  intros [Hm _]%elem_of_lfilter. apply (juntar_elem lancs).
  destruct (considerar_somente_conciliados cfg).
  - apply elem_of_lfilter in Hm as [Hm _]. by apply elem_of_lfilter in Hm as [Hm _].
  - by apply elem_of_lfilter in Hm as [Hm _].
Qed.

(** The own sums of distinct codes add up to the flat sum of the rows of
    a nature, when every such row has one of the codes. *)
Lemma somas_proprias_total (K : list string) (df : list Mov) N :
  NoDup K →
  (∀ m, m ∈ df → mov_natureza m = N → mov_codigo m ∈ K) →
  somaZ (map (λ k, soma_propria df k N) K) = soma_natureza N df.
Proof.
  intros HK Hin. unfold soma_propria, soma_natureza.
  set (par := λ m : Mov, if de_natureza N m then Some (mov_codigo m) else None).
  transitivity
    (somaZ (map (λ k, somaZ (map mov_valor
                               (List.filter (λ c, bool_decide (par c = Some k)) df))) K)).
  - apply somaZ_map_ext. intros k _. f_equal. f_equal. apply lfilter_ext.
    intros m _. unfold da_conta, par. destruct (de_natureza N m); simpl.
    + rewrite andb_true_r. apply bool_decide_ext. split; congruence.
    + by rewrite andb_false_r.
  - rewrite soma_dupla by done. f_equal. f_equal. apply lfilter_ext.
    intros m Hm. unfold par. destruct (de_natureza N m) eqn:Hn; [|done].
    cbn [grupo_em]. apply bool_decide_eq_true, Hin; [done|].
    unfold de_natureza in Hn. by apply bool_decide_eq_true in Hn.
Qed.

End linhas.

(** ** The roll-up on exact integers *)

Section c6.
Import Passos Rollup.

Lemma total_de_total plano df cod N :
  total_de plano df cod N
  = Some (total (plano_desc (ler_plano plano)) (plano_nat (ler_plano plano))
            (chaves (ler_plano plano)) (soma_por_codigo df) cod N).
Proof.
  unfold total_de.
  destruct (total_no_ok (plano_desc (ler_plano plano)) (plano_nat (ler_plano plano))
              (chaves (ler_plano plano)) (soma_por_codigo df)
              (chaves_desc _) (chaves_NoDup _) 4 ∅ cod N) as (c & -> & _).
  - apply cache_ok_empty.
  - pose proof (nivel_max cod). lia.
  - done.
Qed.

Lemma filhos_mesma_natureza_nat plano cod N :
  filhos_nat (plano_desc (ler_plano plano)) (plano_nat (ler_plano plano))
    (chaves (ler_plano plano)) cod N
  = filhos_mesma_natureza plano cod N.
Proof.
  unfold filhos_nat, filhos_mesma_natureza, filhos_de. apply lfilter_ext.
  intros ch Hch.
  apply (filhos_elem _ _ (chaves_desc _) (chaves_NoDup _)) in Hch as [Hk _].
  apply elem_of_chaves, plano_nat_dom in Hk as [n Hn]. rewrite Hn. simpl.
  apply bool_decide_ext. split; congruence.
Qed.

(** The roll-up on exact integer amounts: the total of a node is its own
    sum of the nature plus the totals of its children of that nature, and,
    on a plan stored by [transformar_plano], the totals of the roots of a
    nature add up to the flat sum of the rows of the period of that
    nature. *)
Lemma rollup_exato plano cfg lancs ini fim :
  let df := DFC.periodo cfg plano lancs ini fim in
  (∀ cod N, ∃ v vs,
      total_de plano df cod N = Some v
      ∧ Forall2 (λ ch w, total_de plano df ch N = Some w)
          (filhos_mesma_natureza plano cod N) vs
      ∧ v = soma_propria df cod N + somaZ vs)
  ∧ (plano_coerente plano →
     ∀ N, ∃ vs,
       totais_raizes plano df N = Some vs
       ∧ Forall2 (λ r v, total_de plano df r N = Some v) (roots_de plano N) vs
       ∧ somaZ vs = soma_natureza N df).
Proof.
  intros df. split.
  - intros cod N.
    set (T := total (plano_desc (ler_plano plano)) (plano_nat (ler_plano plano))
                (chaves (ler_plano plano)) (soma_por_codigo df)).
    exists (T cod N), (map (λ ch, T ch N) (filhos_mesma_natureza plano cod N)).
    split; [apply total_de_total|]. split.
    + induction (filhos_mesma_natureza plano cod N) as [|ch l IH]; constructor;
        [apply total_de_total|done].
    + unfold T. rewrite (total_eq _ _ _ _ (chaves_desc _) (chaves_NoDup _)).
      by rewrite soma_por_codigo_get, filhos_mesma_natureza_nat.
  - intros Hco N.
    set (T := total (plano_desc (ler_plano plano)) (plano_nat (ler_plano plano))
                (chaves (ler_plano plano)) (soma_por_codigo df)).
    exists (map (λ r, T r N) (roots_de plano N)). split; [|split].
    + unfold totais_raizes.
      destruct (totais_ok (plano_desc (ler_plano plano)) (plano_nat (ler_plano plano))
                  (chaves (ler_plano plano)) (soma_por_codigo df)
                  (chaves_desc _) (chaves_NoDup _) (roots_de plano N) ∅ N)
        as (c & -> & _); [apply cache_ok_empty|done].
    + induction (roots_de plano N) as [|r l IH]; constructor;
        [apply total_de_total|done].
    + unfold T, roots_de. rewrite (ler_plano_id plano Hco).
      rewrite (raizes_sem_perda _ _ _ _ (chaves_desc _) (chaves_NoDup _)).
      * rewrite <- (somas_proprias_total (chaves_nat (plano_nat plano) (chaves plano) N) df N).
        -- apply somaZ_map_ext. intros k _. apply soma_por_codigo_get.
        -- apply chaves_nat_NoDup, chaves_NoDup.
        -- intros m Hm Hn. apply periodo_elem in Hm as (p & Hp & Hc & Hnat).
           assert (mov_codigo m ∈ chaves plano) as Hk.
           { apply elem_of_chaves. rewrite Hc. apply list_elem_of_In, in_map.
             by apply list_elem_of_In. }
           apply elem_of_lfilter. split; [done|]. apply bool_decide_eq_true.
           destruct (plano_nat_chave plano Hco _ Hk) as [-> _].
           destruct (plano_coerente_elem plano Hco p Hp) as [_ Hpn]. f_equal. congruence.
      * intros c Hc. apply plano_nat_dom. by apply elem_of_chaves.
      * intros c p. apply plano_nat_pai, Hco.
Qed.

End c6.

(** ** The roll-up over any arithmetic: [total_no] against its equation *)

Section aritmetica.
Import Passos Rollup Codigo Aritmetica.

Context {V : Type}.
Variable zero : V.
Variable mais : V → V → V.
Variable desc : gmap string string.
Variable nat_de : gmap string Natureza.
Variable ks : list string.
Variable soma : gmap (string * Natureza) V.
Hypothesis Hks : ∀ k, k ∈ ks ↔ is_Some (desc !! k).
Hypothesis Hnd : NoDup ks.

Local Notation total_em := (total_puro_em zero mais desc nat_de ks soma 4).
Local Notation cache_ok_em := (Aritmetica.cache_ok_em zero mais desc nat_de ks soma).

Lemma total_puro_em_S n cod N :
  total_puro_em zero mais desc nat_de ks soma (S n) cod N
  = foldl mais (default zero (soma !! (cod, N)))
      (map (λ ch, total_puro_em zero mais desc nat_de ks soma n ch N)
         (filhos_nat desc nat_de ks cod N)).
Proof. reflexivity. Qed.

Lemma total_puro_em_estavel n m cod N :
  (4 - nivel cod ≤ n)%nat → (4 - nivel cod ≤ m)%nat →
  total_puro_em zero mais desc nat_de ks soma n cod N
  = total_puro_em zero mais desc nat_de ks soma m cod N.
Proof.
  revert m cod. induction n as [|n IH]; intros m cod Hn Hm.
  { pose proof (nivel_max cod). lia. }
  destruct m as [|m]. { pose proof (nivel_max cod). lia. }
  rewrite !total_puro_em_S. f_equal. apply map_ext_in.
  intros ch [Hch _]%list_elem_of_In%elem_of_lfilter.
  apply (filhos_nivel desc ks Hks Hnd) in Hch. apply IH; lia.
Qed.

Lemma total_em_eq cod N :
  total_em cod N
  = foldl mais (default zero (soma !! (cod, N)))
      (map (λ ch, total_em ch N) (filhos_nat desc nat_de ks cod N)).
Proof.
  rewrite total_puro_em_S. f_equal. apply map_ext_in.
  intros ch [Hch _]%list_elem_of_In%elem_of_lfilter.
  apply (filhos_nivel desc ks Hks Hnd) in Hch. apply total_puro_em_estavel; lia.
Qed.

Lemma cache_ok_em_empty : cache_ok_em ∅.
Proof. intros c N v H. by rewrite lookup_empty in H. Qed.

Lemma cache_ok_em_insert cache c N :
  cache_ok_em cache → cache_ok_em (<[(c, N) := total_em c N]> cache).
Proof.
  intros Hok c' N' v [[[= <- <-] <-]|[_ H]]%lookup_insert_Some; [done|]. by apply Hok.
Qed.

Lemma laco_filhos_em_ok rec N chs base cache :
  cache_ok_em cache →
  (∀ ch cache, ch ∈ chs → cache_ok_em cache →
     ∃ cache', rec cache ch N = Some (total_em ch N, cache') ∧ cache_ok_em cache') →
  ∃ cache',
    laco_filhos_em mais nat_de rec N chs base cache
    = Some (foldl mais base
              (map (λ ch, total_em ch N)
                 (List.filter (λ ch : string, bool_decide (default N (nat_de !! ch) = N))
                    chs)), cache')
    ∧ cache_ok_em cache'.
Proof.
  unfold laco_filhos_em. revert base cache.
  induction chs as [|ch chs IH]; intros base cache Hok Hrec; cbn [foldl List.filter map].
  - by exists cache.
  - destruct (decide (default N (nat_de !! ch) = N)) as [Heq|Hne].
    + rewrite (bool_decide_false (_ ≠ N)) by tauto.
      rewrite (bool_decide_true (_ = N)) by done.
      destruct (Hrec ch cache) as (c1 & -> & Hok1); [by left|done|].
      destruct (IH (mais base (total_em ch N)) c1 Hok1) as (c2 & -> & Hok2).
      { intros ch' c' Hin. apply Hrec. by right. }
      by exists c2.
    + rewrite (bool_decide_true (_ ≠ N)) by done.
      rewrite (bool_decide_false (_ = N)) by done.
      apply IH; [done|]. intros ch' c' Hin. apply Hrec. by right.
Qed.

(** [total_no] returns the total of the node whenever the depth bound
    covers the levels below the node, and keeps the cache sound, in any
    arithmetic. *)
Lemma total_no_em_ok n cache cod N :
  cache_ok_em cache → (4 - nivel cod ≤ n)%nat →
  ∃ cache',
    total_no_em zero mais desc nat_de ks soma n cache cod N = Some (total_em cod N, cache')
    ∧ cache_ok_em cache'.
Proof.
  revert cache cod. induction n as [|n IH]; intros cache cod Hok Hn.
  { pose proof (nivel_max cod). lia. }
  cbn [total_no_em]. destruct (cache !! (cod, N)) as [v|] eqn:Hc.
  - exists cache. by rewrite (Hok _ _ _ Hc).
  - destruct (laco_filhos_em_ok (total_no_em zero mais desc nat_de ks soma n) N
                (default [] (filhos desc ks !! cod))
                (default zero (soma !! (cod, N))) cache Hok) as (c1 & -> & Hok1).
    { intros ch c' Hch Hok'. apply IH; [done|].
      apply (filhos_nivel desc ks Hks Hnd) in Hch. lia. }
    fold (filhos_nat desc nat_de ks cod N). rewrite <- total_em_eq.
    eexists. split; [done|]. by apply cache_ok_em_insert.
Qed.

End aritmetica.

Section homomorfismo.
Import Passos Rollup Codigo Aritmetica.

Context {V : Type}.
Variable zero : V.
Variable mais : V → V → V.
Variable h : V → Z.
Hypothesis Hzero : h zero = 0.
Hypothesis Hmais : ∀ a b, h (mais a b) = h a + h b.

Lemma hom_foldl a l : h (foldl mais a l) = h a + somaZ (map h l).
Proof.
  revert a. induction l as [|x l IH]; intros a; cbn [foldl map].
  - unfold somaZ. cbn. lia.
  - rewrite IH, Hmais. unfold somaZ. cbn. lia.
Qed.

(** A measure of the amounts that turns their addition into the addition
    of integers turns the roll-up into the roll-up of the measures. *)
Lemma hom_total_puro (desc : gmap string string) (nat_de : gmap string Natureza)
    (ks : list string) (soma : gmap (string * Natureza) V) n cod N :
  h (total_puro_em zero mais desc nat_de ks soma n cod N)
  = total_puro desc nat_de ks (h <$> soma) n cod N.
Proof.
  revert cod. induction n as [|n IH]; intros cod; [exact Hzero|].
  rewrite total_puro_em_S, total_puro_S, hom_foldl, map_map. f_equal.
  - rewrite lookup_fmap. by destruct (soma !! (cod, N)).
  - apply somaZ_map_ext. intros ch _. apply IH.
Qed.

End homomorfismo.

(** ** The roll-up of formal sums: which rows a total adds *)

Section formais.
Import Passos Rollup Codigo Aritmetica.

Lemma peso_app w l1 l2 : peso w (l1 ++ l2) = peso w l1 + peso w l2.
Proof. unfold peso. by rewrite map_app, somaZ_app. Qed.

Lemma peso_concat w (ls : list (list Mov)) :
  peso w (concat ls) = somaZ (map (peso w) ls).
Proof.
  induction ls as [|l ls IH]; [done|]. cbn [concat map]. rewrite peso_app, IH. done.
Qed.

Lemma peso_count x l :
  peso (λ y, if decide (y = x) then 1 else 0) l = Z.of_nat (count_occ Mov_eq_dec l x).
Proof.
  unfold peso, somaZ. induction l as [|y l IH]; [done|]. cbn [map foldr count_occ].
  rewrite IH. destruct (decide (y = x)) as [H1|H1], (Mov_eq_dec y x) as [H2|H2];
    try done; lia.
Qed.

(** Two lists of rows with the same weight under every weighting are
    permutations of each other. *)
Lemma peso_perm l1 l2 : (∀ w, peso w l1 = peso w l2) → l1 ≡ₚ l2.
Proof.
  intros H. apply (Permutation_count_occ Mov_eq_dec). intros x.
  specialize (H (λ y, if decide (y = x) then 1 else 0)). rewrite !peso_count in H. lia.
Qed.

Lemma soma_formal_aux (df : list Mov) (m : gmap (string * Natureza) (list Mov)) cod N :
  default []
    (foldl (λ (m : gmap (string * Natureza) (list Mov)) (r : Linha (list Mov)),
              let k := (lin_codigo r, lin_natureza r) in
              <[k := (default [] (m !! k) ++ lin_valor r)%list]> m) m (linhas_formais df)
     !! (cod, N))
  = (default [] (m !! (cod, N)) ++ List.filter (da_conta cod N) df)%list.
Proof.
  revert m. induction df as [|r df IH]; intros m; cbn [linhas_formais map foldl List.filter].
  - by rewrite app_nil_r.
  - fold (linhas_formais df). rewrite IH. cbn [lin_codigo lin_natureza lin_valor].
    unfold da_conta at 2, de_natureza.
    destruct (decide ((mov_codigo r, mov_natureza r) = (cod, N))) as [Heq|Hne].
    + injection Heq as H1 H2. rewrite H1, H2, lookup_insert_eq.
      rewrite !bool_decide_true by done. cbn. by rewrite <- app_assoc.
    + rewrite lookup_insert_ne by done.
      destruct (decide (mov_codigo r = cod)) as [H1|H1];
        destruct (decide (mov_natureza r = N)) as [H2|H2];
        try (exfalso; apply Hne; congruence);
        rewrite ?(bool_decide_false _ H1), ?(bool_decide_false _ H2),
          ?(bool_decide_true _ H1), ?(bool_decide_true _ H2); cbn; done.
Qed.

(** The own formal sum of an account: its rows of the nature, in their
    order. *)
Lemma soma_formal_get df cod N :
  default [] (soma_por_codigo_em [] app (linhas_formais df) !! (cod, N))
  = List.filter (da_conta cod N) df.
Proof. unfold soma_por_codigo_em. by rewrite soma_formal_aux, lookup_empty. Qed.

Lemma pesos_proprios_total (K : list string) (df : list Mov) N w :
  NoDup K →
  (∀ m, m ∈ df → mov_natureza m = N → mov_codigo m ∈ K) →
  somaZ (map (λ k, peso w (List.filter (da_conta k N) df)) K)
  = peso w (List.filter (de_natureza N) df).
Proof.
  intros HK Hin. unfold peso.
  set (par := λ m : Mov, if de_natureza N m then Some (mov_codigo m) else None).
  transitivity
    (somaZ (map (λ k, somaZ (map w (List.filter (λ c, bool_decide (par c = Some k)) df))) K)).
  - apply somaZ_map_ext. intros k _. f_equal. f_equal. apply lfilter_ext.
    intros m _. unfold da_conta, par. destruct (de_natureza N m); simpl.
    + rewrite andb_true_r. apply bool_decide_ext. split; congruence.
    + by rewrite andb_false_r.
  - rewrite soma_dupla by done. f_equal. f_equal. apply lfilter_ext.
    intros m Hm. unfold par. destruct (de_natureza N m) eqn:Hn; [|done].
    cbn [grupo_em]. apply bool_decide_eq_true, Hin; [done|].
    unfold de_natureza in Hn. by apply bool_decide_eq_true in Hn.
Qed.

(** On a plan stored by [transformar_plano] the formal totals of the
    roots of a nature hold, together, every row of that nature exactly
    once. *)
Lemma raizes_formais plano df N :
  plano_coerente plano →
  (∀ m, m ∈ df → ∃ p, p ∈ plano ∧ mov_codigo m = codigo p ∧ mov_natureza m = natureza p) →
  concat (map (λ r, total_puro_em [] app (plano_desc (ler_plano plano))
                      (plano_nat (ler_plano plano)) (chaves (ler_plano plano))
                      (soma_por_codigo_em [] app (linhas_formais df)) 4 r N)
            (roots_de plano N))
  ≡ₚ List.filter (de_natureza N) df.
Proof.
  intros Hco Hdf. apply peso_perm. intros w.
  rewrite peso_concat, map_map.
  transitivity
    (somaZ (map (λ r, total (plano_desc (ler_plano plano)) (plano_nat (ler_plano plano))
                        (chaves (ler_plano plano))
                        (peso w <$> soma_por_codigo_em [] app (linhas_formais df)) r N)
              (roots_de plano N))).
  { apply somaZ_map_ext. intros r _.
    apply (hom_total_puro [] app (peso w)); [done|apply peso_app]. }
  unfold roots_de. rewrite (ler_plano_id plano Hco).
  rewrite (raizes_sem_perda _ _ _ _ (chaves_desc _) (chaves_NoDup _)).
  - rewrite <- (pesos_proprios_total (chaves_nat (plano_nat plano) (chaves plano) N) df N w).
    + apply somaZ_map_ext. intros k _. rewrite lookup_fmap.
      rewrite <- soma_formal_get.
      by destruct (soma_por_codigo_em [] app (linhas_formais df) !! (k, N)).
    + apply chaves_nat_NoDup, chaves_NoDup.
    + intros m Hm Hn. apply Hdf in Hm as (p & Hp & Hc & Hnat).
      assert (mov_codigo m ∈ chaves plano) as Hk.
      { apply elem_of_chaves. rewrite Hc. apply list_elem_of_In, in_map.
        by apply list_elem_of_In. }
      apply elem_of_lfilter. split; [done|]. apply bool_decide_eq_true.
      destruct (plano_nat_chave plano Hco _ Hk) as [-> _].
      destruct (plano_coerente_elem plano Hco p Hp) as [_ Hpn]. f_equal. congruence.
  - intros c Hc. apply plano_nat_dom. by apply elem_of_chaves.
  - intros c p. apply plano_nat_pai, Hco.
Qed.

End formais.

(** ** C6: the roll-up *)

Section c6_aritmetica.
Import Passos Rollup Codigo Aritmetica.

Lemma total_de_em_total {V : Type} (zero : V) (mais : V → V → V) (plano : list Conta)
    (soma : gmap (string * Natureza) V) (cod : string) (N : Natureza) :
  total_de_em zero mais plano soma cod N
  = Some (total_puro_em zero mais (plano_desc (ler_plano plano))
            (plano_nat (ler_plano plano)) (chaves (ler_plano plano)) soma 4 cod N).
Proof.
  unfold total_de_em.
  destruct (total_no_em_ok zero mais (plano_desc (ler_plano plano))
              (plano_nat (ler_plano plano)) (chaves (ler_plano plano)) soma
              (chaves_desc _) (chaves_NoDup _) 4 ∅ cod N) as (c & -> & _).
  - apply cache_ok_em_empty.
  - pose proof (nivel_max cod). lia.
  - done.
Qed.

(** Over the integers the roll-up in the order of the code is the
    roll-up of the exact sums. *)
Lemma total_de_em_Z (plano : list Conta) (soma : gmap (string * Natureza) Z)
    (df : list Mov) (cod : string) (N : Natureza) :
  soma = soma_por_codigo df →
  total_de_em 0 Z.add plano soma cod N = total_de plano df cod N.
Proof.
  intros ->. rewrite total_de_em_total, total_de_total. f_equal.
  rewrite <- (map_fmap_id (soma_por_codigo df)) at 2. unfold total.
  exact (hom_total_puro 0 Z.add id eq_refl (λ a b, eq_refl) _ _ _ _ 4 cod N).
Qed.


End c6_aritmetica.

(** ** C5, C7, C8, C10: the inferred hierarchy *)

Section hierarquia_plano.
Import Passos Rollup Codigo.

Lemma existe_chaves plano p :
  existe (plano_desc (ler_plano plano)) p = bool_decide (p ∈ chaves (ler_plano plano)).
Proof. unfold existe. apply bool_decide_ext. symmetry. apply chaves_desc. Qed.

Lemma pai_de_primeiro plano cod :
  pai_de plano cod = primeiro_existente plano (codigo_pais cod).
Proof.
  unfold pai_de, pai_existente, primeiro_existente.
  induction (codigo_pais cod) as [|p l IH]; simpl; [done|].
  by rewrite existe_chaves, IH.
Qed.

Lemma elem_of_roots plano N cod :
  cod ∈ roots_de plano N
  ↔ cod ∈ chaves (ler_plano plano)
    ∧ plano_nat (ler_plano plano) !! cod = Some N
    ∧ ∀ p, p ∈ codigo_pais cod → p ∉ chaves (ler_plano plano).
Proof.
  unfold roots_de, roots, ordenar. rewrite merge_sort_Permutation, elem_of_lfilter.
  rewrite andb_true_iff, negb_true_iff, bool_decide_eq_true, tem_pai_false.
  split.
  - intros (Hk & Hr & Hn). repeat split; try done.
    intros p Hp Hin%chaves_desc. rewrite (Hr p Hp) in Hin. by destruct Hin.
  - intros (Hk & Hn & Hr). repeat split; try done.
    intros p Hp. specialize (Hr p Hp). rewrite chaves_desc in Hr.
    destruct (plano_desc (ler_plano plano) !! p); [|done]. exfalso. eauto.
Qed.

Lemma find_dup {A} (f : A → bool) x l : List.find f (x :: x :: l) = List.find f (x :: l).
Proof. simpl. by destruct (f x). Qed.

(** C5 (amended). The candidates of a code with blocks a.b.c.d are
    a.b.c.00 when d is not "00", a.b.00.00 when c is not "00" and
    a.00.00.00 when b is not "00", in that order; they are the three of
    the specification when b, c and d all differ from "00". The parent is
    the first candidate that is a code of the plan, which for d other
    than "00" is the first of the three of the specification; a code is
    a root exactly when none of its candidates is a code of the plan. *)
Theorem C5_pai_primeiro_candidato plano cod a b c d :
  codigo_blocos cod = [a; b; c; d] →
  codigo_pais cod
  = ((if bool_decide (d ≠ "00") then [a +:+ "." +:+ b +:+ "." +:+ c +:+ ".00"] else [])
     ++ (if bool_decide (c ≠ "00") then [a +:+ "." +:+ b +:+ ".00.00"] else [])
     ++ (if bool_decide (b ≠ "00") then [a +:+ ".00.00.00"] else []))%list
  ∧ (b ≠ "00" → c ≠ "00" → d ≠ "00" → codigo_pais cod = candidatos_spec cod)
  ∧ (d ≠ "00" → pai_de plano cod = primeiro_existente plano (candidatos_spec cod))
  ∧ pai_de plano cod = primeiro_existente plano (codigo_pais cod)
  ∧ (eh_raiz plano cod = true
     ↔ ∀ p, p ∈ codigo_pais cod → p ∉ chaves (ler_plano plano))
  ∧ (∀ N, cod ∈ roots_de plano N
          ↔ cod ∈ chaves (ler_plano plano)
            ∧ plano_nat (ler_plano plano) !! cod = Some N
            ∧ ∀ p, p ∈ codigo_pais cod → p ∉ chaves (ler_plano plano)).
Proof.
  intros Hb.
  assert (codigo_pais cod = pais_de_blocos a b c d) as Hpais.
  { unfold codigo_pais. by rewrite Hb. }
  split; [exact Hpais|]. split; [|split; [|split; [|split]]].
  - intros H1 H2 H3. rewrite Hpais. unfold candidatos_spec, pais_de_blocos.
    rewrite Hb, !bool_decide_true by done. done.
  - intros Hd. rewrite pai_de_primeiro, Hpais. unfold candidatos_spec, pais_de_blocos.
    rewrite Hb, (bool_decide_true (d ≠ "00")) by done.
    unfold primeiro_existente.
    destruct (decide (c = "00")) as [->|Hc], (decide (b = "00")) as [->|Hb0];
      rewrite ?(bool_decide_false ("00" ≠ "00")) by tauto;
      rewrite ?(bool_decide_true (c ≠ "00")), ?(bool_decide_true (b ≠ "00")) by done;
      cbn [app].
    + change (a +:+ "." +:+ "00" +:+ "." +:+ "00" +:+ ".00") with (a +:+ ".00.00.00").
      change (a +:+ "." +:+ "00" +:+ ".00.00") with (a +:+ ".00.00.00").
      by rewrite !find_dup.
    + change (a +:+ "." +:+ b +:+ "." +:+ "00" +:+ ".00") with (a +:+ "." +:+ b +:+ ".00.00").
      by rewrite find_dup.
    + change (a +:+ "." +:+ "00" +:+ ".00.00") with (a +:+ ".00.00.00").
      simpl. destruct (bool_decide _); [done|]. by destruct (bool_decide _).
    + done.
  - apply pai_de_primeiro.
  - unfold eh_raiz. rewrite negb_true_iff, tem_pai_false. split.
    + intros Hr p Hp Hin%chaves_desc. rewrite (Hr p Hp) in Hin. by destruct Hin.
    + intros Hr p Hp. specialize (Hr p Hp). rewrite chaves_desc in Hr.
      destruct (plano_desc (ler_plano plano) !! p); [|done]. exfalso. eauto.
  - intros N. apply elem_of_roots.
Qed.

End hierarquia_plano.

Section floresta.
Import Passos Rollup Codigo.

Lemma filhos_de_elem plano p cod :
  cod ∈ default [] (filhos_de plano !! p)
  ↔ cod ∈ chaves (ler_plano plano) ∧ pai_de plano cod = Some p.
Proof. unfold filhos_de, pai_de. apply filhos_elem; [apply chaves_desc|apply chaves_NoDup]. Qed.

Lemma pai_de_nivel plano cod p : pai_de plano cod = Some p → (nivel p < nivel cod)%nat.
Proof. intros [Hp _]%pai_existente_Some. by apply nivel_pai. Qed.

Lemma cadeia_nivel plano c p :
  tc (λ c p, pai_de plano c = Some p) c p → (nivel p < nivel c)%nat.
Proof.
  induction 1 as [c p H|c p q H _ IH].
  - by apply (pai_de_nivel plano).
  - apply (pai_de_nivel plano) in H. lia.
Qed.

(** C7. The inferred parent relation of any plan is a forest: a code is
    a child of at most one code, namely its parent; no code is its own
    parent; a parent is strictly less specific than its child; and no
    chain of parent links returns to its start. *)
Theorem C7_floresta plano :
  (∀ cod p1 p2,
      cod ∈ default [] (filhos_de plano !! p1) →
      cod ∈ default [] (filhos_de plano !! p2) → p1 = p2)
  ∧ (∀ cod p, cod ∈ default [] (filhos_de plano !! p) → pai_de plano cod = Some p)
  ∧ (∀ cod, pai_de plano cod ≠ Some cod)
  ∧ (∀ cod p, pai_de plano cod = Some p → (nivel p < nivel cod)%nat)
  ∧ (∀ cod, ¬ tc (λ c p, pai_de plano c = Some p) cod cod).
Proof.
  repeat split.
  - intros cod p1 p2 [_ H1]%filhos_de_elem [_ H2]%filhos_de_elem. congruence.
  - by intros cod p [_ H]%filhos_de_elem.
  - intros cod H%pai_de_nivel. lia.
  - apply pai_de_nivel.
  - intros cod H%cadeia_nivel. lia.
Qed.

(** C8 (amended). No code is rejected, malformed or not: its blocks are
    padded to four with "00"; as a code of the plan it is a key of the
    hierarchy under its stripped text and always gets a total; it is a
    root exactly when it has no existing candidate, and otherwise is a
    child of its first existing candidate. *)
Theorem C8_codigo_nunca_rejeitado plano cod :
  List.length (codigo_blocos cod) = 4%nat
  ∧ ((List.length (Str.split (normalizar_codigo cod)) < 4)%nat →
     codigo_blocos cod
     = (Str.split (normalizar_codigo cod)
        ++ replicate (4 - List.length (Str.split (normalizar_codigo cod))) "00")%list)
  ∧ (cod ∈ chaves (ler_plano plano) →
     is_Some (filhos_de plano !! cod)
     ∧ (∀ df N, is_Some (total_de plano df cod N))
     ∧ (∀ N, plano_nat (ler_plano plano) !! cod = Some N →
             (cod ∈ roots_de plano N ↔ pai_de plano cod = None))
     ∧ (∀ p, pai_de plano cod = Some p →
             p ∈ chaves (ler_plano plano) ∧ cod ∈ default [] (filhos_de plano !! p))).
Proof.
  split; [apply codigo_blocos_length|]. split.
  - intros Hlt. unfold codigo_blocos.
    apply Nat.ltb_lt in Hlt as Hb. rewrite Hb.
    apply firstn_all2. rewrite length_app, length_replicate. lia.
  - intros Hk. repeat split.
    + unfold filhos_de.
      rewrite filhos_lookup, decide_True by done. eauto.
    + intros df N. rewrite total_de_total. eauto.
    + intros (_ & _ & Hr)%elem_of_roots.
      rewrite pai_de_primeiro. unfold primeiro_existente.
      destruct (List.find _ _) as [p|] eqn:Hf; [|done].
      apply find_some in Hf as [Hp%list_elem_of_In Hin%bool_decide_eq_true].
      by destruct (Hr p Hp).
    + intros Hnone. apply elem_of_roots. repeat split; try done.
      intros p Hp Hin. rewrite pai_de_primeiro in Hnone. unfold primeiro_existente in Hnone.
      eapply find_none in Hnone; [|by apply list_elem_of_In].
      by apply bool_decide_eq_false in Hnone.
    + apply pai_existente_Some in H as [_ Hs]. by apply chaves_desc.
    + by apply filhos_de_elem.
Qed.

(** C10 (amended). A code with more than four blocks keeps its first
    four for its own blocks, candidates, parent, root test and synthetic
    test, in which it behaves as any code with the same first four blocks.
    As a key of the plan it stays its full text: a candidate has exactly
    four blocks, so the code is the parent of no code, has no children,
    and is no code of at most four blocks. *)
Theorem C10_blocos_alem_do_quarto cod :
  (4 < List.length (Str.split (normalizar_codigo cod)))%nat →
  codigo_blocos cod = take 4 (Str.split (normalizar_codigo cod))
  ∧ (∀ cod',
       (4 ≤ List.length (Str.split (normalizar_codigo cod')))%nat →
       take 4 (Str.split (normalizar_codigo cod')) = take 4 (Str.split (normalizar_codigo cod)) →
       codigo_blocos cod' = codigo_blocos cod
       ∧ codigo_pais cod' = codigo_pais cod
       ∧ eh_sintetico cod' = eh_sintetico cod
       ∧ ∀ plano, pai_de plano cod' = pai_de plano cod
                  ∧ eh_raiz plano cod' = eh_raiz plano cod)
  ∧ (∀ plano c, pai_de plano c ≠ Some cod)
  ∧ (∀ plano, default [] (filhos_de plano !! cod) = [])
  ∧ (∀ cod', (List.length (Str.split (normalizar_codigo cod')) ≤ 4)%nat → cod ≠ cod').
Proof.
  intros Hlen.
  assert (codigo_blocos cod = take 4 (Str.split (normalizar_codigo cod))) as Hb.
  { unfold codigo_blocos. by rewrite (proj2 (Nat.ltb_ge _ _)) by lia. }
  assert (∀ plano c, pai_de plano c ≠ Some cod) as Hpai.
  { intros plano c [Hp _]%pai_existente_Some. apply candidato_quatro_blocos in Hp. lia. }
  split; [done|]. split; [|split; [done|split]].
  - intros cod' Hlen' Htake.
    assert (codigo_blocos cod' = codigo_blocos cod) as Heq.
    { rewrite Hb, <- Htake. unfold codigo_blocos. by rewrite (proj2 (Nat.ltb_ge _ _)) by lia. }
    assert (codigo_pais cod' = codigo_pais cod) as Hp.
    { unfold codigo_pais. by rewrite Heq. }
    repeat split; try done.
    + unfold eh_sintetico. by rewrite Heq.
    + unfold pai_de, pai_existente. by rewrite Hp.
    + unfold eh_raiz, tem_pai. by rewrite Hp.
  - intros plano.
    destruct (default [] (filhos_de plano !! cod)) as [|c l] eqn:Hl; [done|].
    assert (c ∈ default [] (filhos_de plano !! cod)) as Hc by (rewrite Hl; left).
    apply filhos_de_elem in Hc as [_ Hc]. by apply Hpai in Hc.
  - intros cod' Hlen' ->. lia.
Qed.

End floresta.

(** ** The recorded balance: the two queries *)

Section consultas.
Import Passos.

Lemma ultimo_saldo_snoc rows x :
  ultimo_saldo (rows ++ [x]) = passo_ultimo (ultimo_saldo rows) x.
Proof. unfold ultimo_saldo. by rewrite foldl_snoc. Qed.

Lemma ultimo_saldo_nil rows : ultimo_saldo rows = None ↔ rows = [].
Proof.
  split; [|by intros ->].
  induction rows as [|x rows _] using rev_ind; [done|].
  rewrite ultimo_saldo_snoc. unfold passo_ultimo.
  destruct (ultimo_saldo rows) as [b|]; [|done].
  by destruct (data_referencia b <=? data_referencia x).
Qed.

(** [ORDER BY data_referencia DESC, id DESC LIMIT 1]: the row returned
    has the latest date and, among the rows of that date, the last
    position, that is the greatest [id]. *)
Lemma ultimo_saldo_desempate rows s :
  ultimo_saldo rows = Some s →
  ∃ i, rows !! i = Some s
       ∧ ∀ j x, rows !! j = Some x →
                data_referencia x < data_referencia s
                ∨ (data_referencia x = data_referencia s ∧ (j ≤ i)%nat).
Proof.
  revert s. induction rows as [|x rows IH] using rev_ind; [done|].
  intros s. rewrite ultimo_saldo_snoc. unfold passo_ultimo.
  destruct (ultimo_saldo rows) as [b|] eqn:Hb.
  - destruct (IH b eq_refl) as (i & Hi & Hmax).
    destruct (data_referencia b <=? data_referencia x) eqn:Hle; intros [= <-].
    + apply Z.leb_le in Hle. exists (List.length rows). split.
      * by rewrite lookup_app_r, Nat.sub_diag by lia.
      * intros j y Hj. apply lookup_app_Some in Hj as [Hj|[Hlen Hj]].
        -- pose proof (lookup_lt_Some _ _ _ Hj).
           destruct (Hmax j y Hj) as [?|[? ?]]; [left; lia|].
           destruct (decide (data_referencia y = data_referencia x)); [right|left]; lia.
        -- apply list_lookup_singleton_Some in Hj as [? ->]. right. lia.
    + apply Z.leb_gt in Hle. exists i. split.
      * by apply lookup_app_l_Some.
      * intros j y Hj. apply lookup_app_Some in Hj as [Hj|[Hlen Hj]].
        -- by apply Hmax.
        -- apply list_lookup_singleton_Some in Hj as [? ->]. left. lia.
  - apply ultimo_saldo_nil in Hb as ->. intros [= <-]. exists 0%nat. split; [done|].
    intros j y Hj. apply list_lookup_singleton_Some in Hj as [-> ->]. right. lia.
Qed.

Lemma ultimo_saldo_elem rows s :
  ultimo_saldo rows = Some s →
  s ∈ rows ∧ ∀ x, x ∈ rows → data_referencia x ≤ data_referencia s.
Proof.
  intros (i & Hi & Hmax)%ultimo_saldo_desempate. split.
  - by eapply list_elem_of_lookup_2.
  - intros x (j & Hj)%list_elem_of_lookup. destruct (Hmax j x Hj); lia.
Qed.

Lemma maior_data_snoc rows x :
  maior_data (rows ++ [x])
  = Some (match maior_data rows with
          | None => data_referencia x
          | Some b => Z.max b (data_referencia x)
          end).
Proof. unfold maior_data. rewrite foldl_snoc. by destruct (foldl _ _ _). Qed.

(** The greatest date is the date of the row the live query returns. *)
Lemma maior_data_ultimo rows :
  maior_data rows = data_referencia <$> ultimo_saldo rows.
Proof.
  induction rows as [|x rows IH] using rev_ind; [done|].
  rewrite maior_data_snoc, ultimo_saldo_snoc, IH. unfold passo_ultimo.
  destruct (ultimo_saldo rows) as [b|]; simpl; [|done].
  destruct (data_referencia b <=? data_referencia x) eqn:Hle; simpl; f_equal.
  - apply Z.leb_le in Hle. lia.
  - apply Z.leb_gt in Hle. lia.
Qed.

Lemma filtro_unico (rows : list Saldo) s :
  NoDup (map data_referencia rows) → s ∈ rows →
  List.filter (λ x : Saldo, data_referencia x =? data_referencia s) rows = [s].
Proof.
  induction rows as [|x rows IH]; intros Hnd Hin; [by apply elem_of_nil in Hin|].
  cbn [map] in Hnd. apply NoDup_cons in Hnd as [Hx Hnd]. cbn [List.filter].
  apply elem_of_cons in Hin as [->|Hin].
  - rewrite Z.eqb_refl. f_equal. apply lfilter_nil. intros y Hy.
    apply Z.eqb_neq. intros Heq. apply Hx. rewrite <- Heq.
    apply list_elem_of_In, in_map. by apply list_elem_of_In.
  - rewrite (proj2 (Z.eqb_neq _ _)); [by apply IH|].
    intros Heq. apply Hx. rewrite Heq. apply list_elem_of_In, in_map. by apply list_elem_of_In.
Qed.

Lemma sem_empate_datas t d saldos :
  sem_empate saldos → NoDup (map data_referencia (saldos_ate t d saldos)).
Proof.
  unfold sem_empate, saldos_ate. induction saldos as [|x saldos IH]; [constructor|].
  cbn [map List.filter]. intros [Hx Hnd]%NoDup_cons.
  destruct (bool_decide (tipo x = t) && (data_referencia x <=? d)) eqn:Hf; [|by apply IH].
  cbn [map]. apply NoDup_cons. split; [|by apply IH].
  intros Hin. apply Hx. apply list_elem_of_In, in_map_iff in Hin as (y & Hy & Hin).
  apply filter_In in Hin as [Hin Hfy].
  apply andb_true_iff in Hf as [Ht%bool_decide_eq_true _].
  apply andb_true_iff in Hfy as [Hty%bool_decide_eq_true _].
  apply list_elem_of_In, in_map_iff. exists y. split; [|done]. congruence.
Qed.

(** Without two rows of the same date and type the query of the
    simulation returns the row of the live query, whatever the engine
    picks among equal dates. *)
Lemma saldo_mais_recente_ultimo desempate rows :
  desempate_valido desempate → NoDup (map data_referencia rows) →
  saldo_mais_recente desempate rows = ultimo_saldo rows.
Proof.
  intros Hd Hnd. unfold saldo_mais_recente. rewrite maior_data_ultimo.
  destruct (ultimo_saldo rows) as [s|] eqn:Hs; [|done]. simpl.
  apply ultimo_saldo_elem in Hs as [Hin _].
  rewrite (filtro_unico rows s Hnd Hin).
  destruct (Hd [s]) as (s' & -> & Hs'); [done|].
  by apply list_elem_of_singleton in Hs' as ->.
Qed.

Lemma saldos_ate_snoc t d saldos x :
  saldos_ate t d (saldos ++ [x])
  = (saldos_ate t d saldos
     ++ if bool_decide (tipo x = t) && (data_referencia x <=? d) then [x] else [])%list.
Proof. unfold saldos_ate. rewrite List.filter_app. cbn [List.filter]. by destruct (_ && _). Qed.

(** The row the live query returns, in the table: the rows before it
    that qualify are not later in date, those after it are earlier. *)
Lemma ultimo_saldo_ate t d saldos :
  match ultimo_saldo (saldos_ate t d saldos) with
  | Some s =>
      ∃ l1 l2,
        saldos = (l1 ++ s :: l2)%list ∧ tipo s = t ∧ data_referencia s ≤ d
        ∧ (∀ x, x ∈ l1 → tipo x = t → data_referencia x ≤ d →
                data_referencia x ≤ data_referencia s)
        ∧ (∀ x, x ∈ l2 → tipo x = t → data_referencia x ≤ d →
                data_referencia x < data_referencia s)
  | None => ∀ x, x ∈ saldos → tipo x = t → d < data_referencia x
  end.
Proof.
  induction saldos as [|x saldos IH] using rev_ind.
  { cbn. intros x Hx. by apply elem_of_nil in Hx. }
  rewrite saldos_ate_snoc.
  destruct (bool_decide (tipo x = t) && (data_referencia x <=? d)) eqn:Hel.
  - apply andb_true_iff in Hel as [Ht%bool_decide_eq_true Hd%Z.leb_le].
    rewrite ultimo_saldo_snoc. unfold passo_ultimo.
    destruct (ultimo_saldo (saldos_ate t d saldos)) as [b|].
    + destruct IH as (l1 & l2 & -> & Htb & Hdb & H1 & H2).
      destruct (data_referencia b <=? data_referencia x) eqn:Hle.
      * apply Z.leb_le in Hle. exists (l1 ++ b :: l2)%list, []. repeat split; try done.
        -- intros y Hy Hty Hdy. apply elem_of_app in Hy as [Hy|Hy].
           ++ specialize (H1 y Hy Hty Hdy). lia.
           ++ apply elem_of_cons in Hy as [->|Hy]; [done|].
              specialize (H2 y Hy Hty Hdy). lia.
        -- intros y Hy. by apply elem_of_nil in Hy.
      * apply Z.leb_gt in Hle. exists l1, (l2 ++ [x])%list.
        split; [by rewrite <- app_assoc|]. repeat split; try done.
        intros y Hy Hty Hdy. apply elem_of_app in Hy as [Hy|Hy]; [by apply H2|].
        apply list_elem_of_singleton in Hy as ->. lia.
    + exists saldos, []. repeat split; try done.
      * intros y Hy Hty Hdy. specialize (IH y Hy Hty). lia.
      * intros y Hy. by apply elem_of_nil in Hy.
  - rewrite app_nil_r.
    assert (tipo x = t → d < data_referencia x) as Hx.
    { intros Ht. rewrite (bool_decide_true _ Ht) in Hel. cbn in Hel.
      by apply Z.leb_gt in Hel. }
    destruct (ultimo_saldo (saldos_ate t d saldos)) as [b|].
    + destruct IH as (l1 & l2 & -> & Htb & Hdb & H1 & H2).
      exists l1, (l2 ++ [x])%list. split; [by rewrite <- app_assoc|]. repeat split; try done.
      intros y Hy Hty Hdy. apply elem_of_app in Hy as [Hy|Hy]; [by apply H2|].
      apply list_elem_of_singleton in Hy as ->. specialize (Hx Hty). lia.
    + intros y Hy Hty. apply elem_of_app in Hy as [Hy|Hy]; [by apply IH|].
      apply list_elem_of_singleton in Hy as ->. by apply Hx.
Qed.

(** The live query returns the recorded balance of the specification. *)
Lemma consulta_saldo_spec saldos d :
  registrado_spec saldos d (DFC.consulta_saldo Inicial saldos d).
Proof.
  unfold DFC.consulta_saldo. pose proof (ultimo_saldo_ate Inicial d saldos) as H.
  destruct (ultimo_saldo (saldos_ate Inicial d saldos)) as [s|]; cbn; [|done].
  destruct H as (l1 & l2 & ? & ? & ? & ? & ?). by exists l1, s, l2.
Qed.

End consultas.

(** ** C1, C2, C3, C4, C9: the two views *)

Section vistas.
Import Passos.

Lemma saldo_inicial_dfc_spec cfg saldos df_mov d :
  DFC.combinar_saldos cfg (DFC.resolver_saldo_lancado cfg saldos d)
    (DFC.resolver_saldo_calc cfg df_mov d)
  = abertura_spec cfg (DFC.consulta_saldo Inicial saldos d) df_mov d.
Proof.
  unfold DFC.combinar_saldos, DFC.resolver_saldo_lancado, DFC.resolver_saldo_calc,
    abertura_spec.
  destruct (usar_saldo_lancado cfg), (usar_saldo_calculado cfg),
    (DFC.consulta_saldo Inicial saldos d); simpl; lia.
Qed.

Lemma saldo_inicial_sim_spec desempate cfg saldos df_mov d :
  Simulacao.saldo_inicial_de desempate cfg saldos df_mov d
  = abertura_spec cfg (Simulacao.consulta_saldo_sim desempate saldos d) df_mov d.
Proof.
  unfold Simulacao.saldo_inicial_de, abertura_spec.
  destruct (usar_saldo_lancado cfg), (usar_saldo_calculado cfg),
    (Simulacao.consulta_saldo_sim desempate saldos d); simpl; lia.
Qed.

Lemma consulta_sim_dfc desempate saldos d :
  desempate_valido desempate → sem_empate saldos →
  Simulacao.consulta_saldo_sim desempate saldos d = DFC.consulta_saldo Inicial saldos d.
Proof.
  intros Hd Hs. unfold Simulacao.consulta_saldo_sim, DFC.consulta_saldo.
  by rewrite saldo_mais_recente_ultimo by (done || by apply sem_empate_datas).
Qed.

(** On the five formulas the two dispatches agree. *)
Lemma formulas_iguais m s e t :
  m ∈ Simulacao.formulas → DFC.aplicar_modelo m s e t = Simulacao.aplicar_formula m s e t.
Proof.
  unfold Simulacao.formulas. rewrite !elem_of_cons, elem_of_nil.
  intros [->|[->|[->|[->|[->|[]]]]]]; vm_compute; reflexivity.
Qed.

(** A text that is none of the five: the simulation takes the first
    formula, the live view the sum. *)
Lemma formula_desconhecida m s e t :
  m ∉ Simulacao.formulas →
  Simulacao.aplicar_formula m s e t = s + e - t ∧ DFC.aplicar_modelo m s e t = s + e + t.
Proof.
  unfold Simulacao.formulas. rewrite !not_elem_of_cons. intros (H1 & H2 & H3 & H4 & H5 & _).
  unfold Simulacao.aplicar_formula, DFC.aplicar_modelo.
  by rewrite !bool_decide_false by done.
Qed.

End vistas.

Section teoremas_vistas.
Import Passos.

Lemma primeira_linha_valida : desempate_valido primeira_linha.
Proof. intros [|x l] H; [done|]. exists x. split; [done|left]. Qed.

Lemma juntar_vazio_admissiveis cfg plano lancs :
  juntar lancs plano = [] → DFC.admissiveis cfg plano lancs = [].
Proof. unfold DFC.admissiveis. intros ->. by destruct (considerar_somente_conciliados cfg). Qed.

Lemma soma_natureza_nil N : soma_natureza N [] = 0.
Proof. reflexivity. Qed.

Lemma formula_sem_movimento m s : Simulacao.aplicar_formula m s 0 0 = s.
Proof. unfold Simulacao.aplicar_formula. repeat case_bool_decide; lia. Qed.

(** The opening balance of a report of the live view: the recorded
    balance of the live query, if enabled and found, plus the history
    before the period, if enabled. *)
Lemma abertura_dfc cfg plano lancs saldos ini fim r :
  DFC.dfc_caixa cfg plano lancs saldos ini fim = Some r →
  DFC.saldo_inicial r
  = abertura_spec cfg (DFC.consulta_saldo Inicial saldos ini)
      (DFC.admissiveis cfg plano lancs) ini.
Proof.
  unfold DFC.dfc_caixa. cbv zeta. repeat case_bool_decide; try done.
  intros [= <-]. cbn [DFC.saldo_inicial]. apply saldo_inicial_dfc_spec.
Qed.

(** The same for a result of the simulation, on its own query. *)
Lemma abertura_sim desempate cfg plano lancs saldos ini fim r :
  Simulacao.simular desempate cfg plano lancs saldos ini fim = Some r →
  Simulacao.saldo_inicial_sim r
  = abertura_spec cfg (Simulacao.consulta_saldo_sim desempate saldos ini)
      (DFC.admissiveis cfg plano lancs) ini.
Proof.
  unfold Simulacao.simular. cbv zeta. repeat case_bool_decide; try done.
  intros [= <-]. cbn [Simulacao.saldo_inicial_sim]. apply saldo_inicial_sim_spec.
Qed.

(** C1 (amended). On the same tables, settings and dates: whenever the
    live view shows a result, the formula is one of the five of the
    selectbox and no two recorded balances share date and type, the
    simulation shows the same opening balance, the same totals of the
    period and the same closing balance. *)
Theorem C1_vistas_coincidem desempate cfg plano lancs saldos ini fim r :
  desempate_valido desempate →
  sem_empate saldos →
  modelo cfg ∈ Simulacao.formulas →
  DFC.dfc_caixa cfg plano lancs saldos ini fim = Some r →
  Simulacao.simular desempate cfg plano lancs saldos ini fim
  = Some (Simulacao.resumo_dfc r).
Proof.
  intros Hd Hs Hm. unfold DFC.dfc_caixa, Simulacao.simular. cbv zeta.
  repeat case_bool_decide; try done. intros [= <-].
  unfold Simulacao.resumo_dfc. cbn.
  rewrite saldo_inicial_dfc_spec, saldo_inicial_sim_spec, consulta_sim_dfc by done.
  by rewrite formulas_iguais.
Qed.

(** C3 (amended). When no entry is admissible neither view reports: both
    only warn. When entries are admissible but none falls in the period,
    the live view stops with a warning, and the simulation reports zero
    totals and a closing balance equal to the opening balance. *)
Theorem C3_conjunto_vazio desempate cfg plano lancs saldos ini fim :
  (DFC.admissiveis cfg plano lancs = [] →
   DFC.dfc_caixa cfg plano lancs saldos ini fim = None
   ∧ Simulacao.simular desempate cfg plano lancs saldos ini fim = None)
  ∧ (DFC.periodo cfg plano lancs ini fim = [] →
     DFC.dfc_caixa cfg plano lancs saldos ini fim = None)
  ∧ (DFC.admissiveis cfg plano lancs ≠ [] →
     DFC.periodo cfg plano lancs ini fim = [] →
     ∃ r, Simulacao.simular desempate cfg plano lancs saldos ini fim = Some r
          ∧ Simulacao.total_entradas_periodo r = 0
          ∧ Simulacao.total_saidas_periodo r = 0
          ∧ Simulacao.saldo_final_sim r = Simulacao.saldo_inicial_sim r).
Proof.
  unfold DFC.periodo, DFC.dfc_caixa, Simulacao.simular. cbv zeta.
  fold (DFC.admissiveis cfg plano lancs).
  split; [|split].
  - intros ->. by repeat case_bool_decide.
  - intros ->. by repeat case_bool_decide.
  - intros Hadm ->. rewrite (bool_decide_false (DFC.admissiveis _ _ _ = [])) by done.
    case_bool_decide as Hj; [by apply (juntar_vazio_admissiveis cfg) in Hj|].
    eexists. split; [done|]. cbn [Simulacao.total_entradas_periodo
      Simulacao.total_saidas_periodo Simulacao.saldo_final_sim Simulacao.saldo_inicial_sim
      List.filter].
    rewrite !soma_natureza_nil.
    assert (sinal_saidas (forcar_saida_negativa cfg) 0 = 0) as ->.
    { by destruct (forcar_saida_negativa cfg). }
    by rewrite formula_sem_movimento.
Qed.

(** C9. Whatever the formula, the cash generated that the live view
    reports is the closing balance it computed minus the opening
    balance. *)
Theorem C9_geracao_caixa cfg plano lancs saldos ini fim r :
  DFC.dfc_caixa cfg plano lancs saldos ini fim = Some r →
  DFC.geracao_caixa r = DFC.saldo_final_calc r - DFC.saldo_inicial r
  ∧ DFC.saldo_final_calc r
    = DFC.aplicar_modelo (modelo cfg) (DFC.saldo_inicial r) (DFC.total_entradas r)
        (DFC.total_saidas r).
Proof.
  unfold DFC.dfc_caixa. cbv zeta. repeat case_bool_decide; try done.
  by intros [= <-].
Qed.

Lemma modelo_ler_salvar cfg db :
  modelo (Configuracoes.ler_oficial (Configuracoes.salvar_oficial cfg db)) = modelo cfg.
Proof.
  unfold Configuracoes.ler_oficial, Configuracoes.salvar_oficial, Configuracoes.get_config,
    Configuracoes.set_config. cbn [modelo].
  rewrite !lookup_insert_ne by done. by rewrite lookup_insert_eq.
Qed.

(** The formula in force on a table the application reaches is one of
    the five. *)
Lemma alcancavel_formula db :
  Configuracoes.alcancavel db →
  modelo (Configuracoes.ler_oficial db) ∈ Simulacao.formulas.
Proof.
  induction 1 as [|db ops cfg _ _ Hops Hm].
  - left.
  - rewrite modelo_ler_salvar. unfold Configuracoes.opcoes_formula in Hops.
    case_bool_decide; [|done]. by injection Hops as <-.
Qed.



(** The hypothesis on the table is needed for the simulation: with two
    recorded opening balances of the same date, 100 inserted before 300,
    the live view opens at 300, the later insertion; the query of the
    simulation, which does not order by [id], opens at 100 on an engine
    that returns the first row of the scan. *)
Example simulacao_com_empate :
  DFC.saldo_inicial
    <$> DFC.dfc_caixa Exemplos.cfg Exemplos.plano Exemplos.lancs
          Exemplos.saldos_empatados 1 30
  = Some 300
  ∧ Simulacao.saldo_inicial_sim
      <$> Simulacao.simular primeira_linha Exemplos.cfg Exemplos.plano Exemplos.lancs
            Exemplos.saldos_empatados 1 30
    = Some 100.
Proof. split; vm_compute; reflexivity. Qed.

End teoremas_vistas.

(** ** Instances and counterexamples *)

Section instancias.
Import Passos Rollup Codigo.

(** The example of the specification: with the codes 1.00.00.00 and
    1.02.03.04 only, the parent of 1.02.03.04 is 1.00.00.00. *)
Example pai_com_lacuna :
  pai_de Exemplos.plano_lacuna "1.02.03.04" = Some "1.00.00.00"
  ∧ roots_de Exemplos.plano_lacuna Entrada = ["1.00.00.00"]
  ∧ filhos_de Exemplos.plano_lacuna !! "1.00.00.00" = Some ["1.02.03.04"].
Proof. repeat split; vm_compute; reflexivity. Qed.

(** The end-to-end scenario of the specification. *)
Example cenario_completo :
  Simulacao.resumo_dfc
    <$> DFC.dfc_caixa Exemplos.cfg Exemplos.plano Exemplos.lancs [] 1 30
  = Some (Simulacao.mkResultado 0 100 (-40) 140)
  ∧ total_de Exemplos.plano (DFC.periodo Exemplos.cfg Exemplos.plano Exemplos.lancs 1 30)
      "1.00.00.00" Entrada = Some 100
  ∧ totais_raizes Exemplos.plano
      (DFC.periodo Exemplos.cfg Exemplos.plano Exemplos.lancs 1 30) Saida = Some [40].
Proof. repeat split; vm_compute; reflexivity. Qed.

Lemma C1_witness :
  desempate_valido primeira_linha
  ∧ sem_empate Exemplos.saldos
  ∧ modelo Exemplos.cfg ∈ Simulacao.formulas
  ∧ ∃ r, DFC.dfc_caixa Exemplos.cfg Exemplos.plano Exemplos.lancs Exemplos.saldos 1 30 = Some r
         ∧ Simulacao.simular primeira_linha Exemplos.cfg Exemplos.plano Exemplos.lancs
             Exemplos.saldos 1 30 = Some (Simulacao.resumo_dfc r).
Proof.
  assert (sem_empate Exemplos.saldos) as Hs.
  { apply (bool_decide_eq_true_1 _). vm_compute. reflexivity. }
  assert (modelo Exemplos.cfg ∈ Simulacao.formulas) as Hm by left.
  split; [exact primeira_linha_valida|]. split; [exact Hs|]. split; [exact Hm|].
  eexists. split; [vm_compute; reflexivity|].
  apply (C1_vistas_coincidem primeira_linha Exemplos.cfg Exemplos.plano Exemplos.lancs
           Exemplos.saldos 1 30 _ primeira_linha_valida Hs Hm).
  vm_compute. reflexivity.
Defined.

(** C1 as the specification states it fails when entries are admissible but none
    falls in the period: the live view stops and computes nothing, the
    simulation reports. *)
Lemma C1_counterexample :
  DFC.dfc_caixa Exemplos.cfg Exemplos.plano Exemplos.lancs [] 50 60 = None
  ∧ Simulacao.simular primeira_linha Exemplos.cfg Exemplos.plano Exemplos.lancs [] 50 60
    = Some (Simulacao.mkResultado 0 0 0 0)
  ∧ Simulacao.resumo_dfc
      <$> DFC.dfc_caixa Exemplos.cfg Exemplos.plano Exemplos.lancs [] 50 60
    ≠ Simulacao.simular primeira_linha Exemplos.cfg Exemplos.plano Exemplos.lancs [] 50 60.
Proof. repeat split; vm_compute; (reflexivity || discriminate). Qed.



Lemma C3_witness :
  (DFC.admissiveis Exemplos.cfg Exemplos.plano Exemplos.lancs_abertos = []
   ∧ DFC.dfc_caixa Exemplos.cfg Exemplos.plano Exemplos.lancs_abertos [] 1 30 = None
   ∧ Simulacao.simular primeira_linha Exemplos.cfg Exemplos.plano Exemplos.lancs_abertos
       [] 1 30 = None)
  ∧ (DFC.admissiveis Exemplos.cfg Exemplos.plano Exemplos.lancs ≠ []
     ∧ DFC.periodo Exemplos.cfg Exemplos.plano Exemplos.lancs 50 60 = []
     ∧ DFC.dfc_caixa Exemplos.cfg Exemplos.plano Exemplos.lancs Exemplos.saldos 50 60 = None
     ∧ ∃ r, Simulacao.simular primeira_linha Exemplos.cfg Exemplos.plano Exemplos.lancs
              Exemplos.saldos 50 60 = Some r
            ∧ Simulacao.total_entradas_periodo r = 0
            ∧ Simulacao.total_saidas_periodo r = 0
            ∧ Simulacao.saldo_final_sim r = Simulacao.saldo_inicial_sim r).
Proof.
  assert (DFC.admissiveis Exemplos.cfg Exemplos.plano Exemplos.lancs_abertos = []) as H1
    by (vm_compute; reflexivity).
  assert (DFC.admissiveis Exemplos.cfg Exemplos.plano Exemplos.lancs ≠ []) as H2
    by (vm_compute; discriminate).
  assert (DFC.periodo Exemplos.cfg Exemplos.plano Exemplos.lancs 50 60 = []) as H3
    by (vm_compute; reflexivity).
  split.
  - split; [exact H1|].
    exact (proj1 (C3_conjunto_vazio primeira_linha Exemplos.cfg Exemplos.plano
                    Exemplos.lancs_abertos [] 1 30) H1).
  - split; [exact H2|]. split; [exact H3|]. split.
    + exact (proj1 (proj2 (C3_conjunto_vazio primeira_linha Exemplos.cfg Exemplos.plano
                             Exemplos.lancs Exemplos.saldos 50 60)) H3).
    + exact (proj2 (proj2 (C3_conjunto_vazio primeira_linha Exemplos.cfg Exemplos.plano
                             Exemplos.lancs Exemplos.saldos 50 60)) H2 H3).
Defined.

(** C3 as the specification states it fails when the conciliation filter leaves
    nothing: no report is produced, zero or otherwise. *)
Lemma C3_counterexample :
  DFC.admissiveis Exemplos.cfg Exemplos.plano Exemplos.lancs_abertos = []
  ∧ DFC.dfc_caixa Exemplos.cfg Exemplos.plano Exemplos.lancs_abertos [] 1 30 = None
  ∧ Simulacao.simular primeira_linha Exemplos.cfg Exemplos.plano Exemplos.lancs_abertos
      [] 1 30 = None
  ∧ ¬ ∃ r, DFC.dfc_caixa Exemplos.cfg Exemplos.plano Exemplos.lancs_abertos [] 1 30 = Some r.
Proof.
  repeat split; try (vm_compute; reflexivity).
  intros [r Hr]. vm_compute in Hr. discriminate.
Qed.


Lemma C5_witness :
  codigo_blocos "1.02.03.04" = ["1"; "02"; "03"; "04"]
  ∧ "04" ≠ "00"
  ∧ pai_de Exemplos.plano_lacuna "1.02.03.04"
    = primeiro_existente Exemplos.plano_lacuna (candidatos_spec "1.02.03.04")
  ∧ codigo_pais "1.02.03.04" = candidatos_spec "1.02.03.04".
Proof.
  assert (codigo_blocos "1.02.03.04" = ["1"; "02"; "03"; "04"]) as Hb by reflexivity.
  assert ("04" ≠ "00") as Hd by discriminate.
  split; [exact Hb|]. split; [exact Hd|].
  destruct (C5_pai_primeiro_candidato Exemplos.plano_lacuna "1.02.03.04" "1" "02" "03" "04" Hb)
    as (_ & H3 & H1 & _).
  split; [exact (H1 Hd)|]. apply H3; discriminate.
Defined.

(** C5 as the specification states it fails at a synthetic code: for 1.00.00.00
    the three ancestors of the specification are the code itself, which
    exists, while the code has no candidate and is a root. *)
Lemma C5_counterexample :
  let plano := [mkConta "1.00.00.00" "Receitas" Entrada] in
  codigo_pais "1.00.00.00" = []
  ∧ candidatos_spec "1.00.00.00" = ["1.00.00.00"; "1.00.00.00"; "1.00.00.00"]
  ∧ pai_de plano "1.00.00.00" = None
  ∧ primeiro_existente plano (candidatos_spec "1.00.00.00") = Some "1.00.00.00"
  ∧ eh_raiz plano "1.00.00.00" = true
  ∧ ¬ (∀ p, p ∈ candidatos_spec "1.00.00.00" → p ∉ chaves (ler_plano plano)).
Proof.
  repeat split; try (vm_compute; reflexivity).
  intros H. apply (H "1.00.00.00").
  - vm_compute. left.
  - vm_compute. left.
Qed.



Lemma C7_witness :
  pai_de Exemplos.plano_lacuna "1.02.03.04" = Some "1.00.00.00"
  ∧ (nivel "1.00.00.00" < nivel "1.02.03.04")%nat
  ∧ "1.02.03.04" ∈ default [] (filhos_de Exemplos.plano_lacuna !! "1.00.00.00")
  ∧ (∀ p2, "1.02.03.04" ∈ default [] (filhos_de Exemplos.plano_lacuna !! p2) →
           "1.00.00.00" = p2).
Proof.
  assert (pai_de Exemplos.plano_lacuna "1.02.03.04" = Some "1.00.00.00") as Hp
    by (vm_compute; reflexivity).
  assert ("1.02.03.04" ∈ default [] (filhos_de Exemplos.plano_lacuna !! "1.00.00.00")) as Hf.
  { apply (bool_decide_eq_true_1 _). vm_compute. reflexivity. }
  destruct (C7_floresta Exemplos.plano_lacuna) as (H1 & _ & _ & H4 & _).
  split; [exact Hp|]. split; [exact (H4 _ _ Hp)|]. split; [exact Hf|].
  intros p2. exact (H1 _ _ _ Hf).
Defined.

Lemma C8_witness :
  "1.02" ∈ chaves (ler_plano Exemplos.plano_curto)
  ∧ codigo_blocos "1.02" = ["1"; "02"; "00"; "00"]
  ∧ is_Some (filhos_de Exemplos.plano_curto !! "1.02")
  ∧ "1.02" ∈ default [] (filhos_de Exemplos.plano_curto !! "1.00.00.00").
Proof.
  assert ("1.02" ∈ chaves (ler_plano Exemplos.plano_curto)) as Hk.
  { apply (bool_decide_eq_true_1 _). vm_compute. reflexivity. }
  assert ((List.length (Str.split (normalizar_codigo "1.02")) < 4)%nat) as Hl
    by (vm_compute; lia).
  assert (pai_de Exemplos.plano_curto "1.02" = Some "1.00.00.00") as Hp
    by (vm_compute; reflexivity).
  destruct (C8_codigo_nunca_rejeitado Exemplos.plano_curto "1.02") as (_ & Hpad & H).
  destruct (H Hk) as (Hf & _ & _ & Hch).
  split; [exact Hk|]. split; [exact (Hpad Hl)|]. split; [exact Hf|].
  exact (proj2 (Hch _ Hp)).
Defined.

(** C8 as the specification states it fails: the short code 1.02 is malformed and
    is not a root, since its candidate 1.00.00.00 exists. *)
Lemma C8_counterexample :
  malformado "1.02" = true
  ∧ "1.02" ∈ chaves (ler_plano Exemplos.plano_curto)
  ∧ pai_de Exemplos.plano_curto "1.02" = Some "1.00.00.00"
  ∧ eh_raiz Exemplos.plano_curto "1.02" = false
  ∧ roots_de Exemplos.plano_curto Entrada = ["1.00.00.00"]
  ∧ filhos_de Exemplos.plano_curto !! "1.00.00.00" = Some ["1.02"; "1.02.03.04.05"].
Proof.
  repeat split; try (vm_compute; reflexivity).
  apply (bool_decide_eq_true_1 _). vm_compute. reflexivity.
Qed.

Lemma C9_witness :
  ∃ r, DFC.dfc_caixa Exemplos.cfg Exemplos.plano Exemplos.lancs Exemplos.saldos 1 30 = Some r
       ∧ DFC.geracao_caixa r = DFC.saldo_final_calc r - DFC.saldo_inicial r
       ∧ DFC.geracao_caixa r = 140.
Proof.
  eexists. split; [vm_compute; reflexivity|]. split.
  - refine (proj1 (C9_geracao_caixa Exemplos.cfg Exemplos.plano Exemplos.lancs
                     Exemplos.saldos 1 30 _ _)).
    vm_compute. reflexivity.
  - vm_compute. reflexivity.
Defined.

Lemma C10_witness :
  (4 < List.length (Str.split (normalizar_codigo "1.02.03.04.05")))%nat
  ∧ codigo_blocos "1.02.03.04.05" = codigo_blocos "1.02.03.04"
  ∧ codigo_pais "1.02.03.04.05" = codigo_pais "1.02.03.04"
  ∧ eh_sintetico "1.02.03.04.05" = eh_sintetico "1.02.03.04"
  ∧ pai_de Exemplos.plano_curto "1.02.03.04.05" = pai_de Exemplos.plano_curto "1.02.03.04"
  ∧ default [] (filhos_de Exemplos.plano_curto !! "1.02.03.04.05") = [].
Proof.
  assert ((4 < List.length (Str.split (normalizar_codigo "1.02.03.04.05")))%nat) as Hl
    by (vm_compute; lia).
  assert ((4 ≤ List.length (Str.split (normalizar_codigo "1.02.03.04")))%nat) as Hl'
    by (vm_compute; lia).
  destruct (C10_blocos_alem_do_quarto "1.02.03.04.05" Hl) as (_ & H & _ & Hf & _).
  destruct (H "1.02.03.04" Hl' eq_refl) as (H1 & H2 & H3 & H4).
  split; [exact Hl|]. split; [by rewrite H1|]. split; [by rewrite H2|].
  split; [by rewrite H3|]. split; [by rewrite (proj1 (H4 Exemplos.plano_curto))|].
  apply Hf.
Defined.

(** C10 as the specification states it fails for a long code in the place of a
    parent: 1.02.03.00.05 has the blocks of 1.02.03.00, yet it is not the
    parent of 1.02.03.04 that 1.02.03.00 is, since the candidates are
    looked up by their text. *)
Lemma C10_counterexample :
  codigo_blocos "1.02.03.00.05" = codigo_blocos "1.02.03.00"
  ∧ pai_de Exemplos.plano_quatro "1.02.03.04" = Some "1.02.03.00"
  ∧ roots_de Exemplos.plano_quatro Entrada = ["1.02.03.00"]
  ∧ pai_de Exemplos.plano_longo "1.02.03.04" = None
  ∧ roots_de Exemplos.plano_longo Entrada = ["1.02.03.00.05"; "1.02.03.04"]
  ∧ pai_de Exemplos.plano_longo "1.02.03.04" ≠ pai_de Exemplos.plano_quatro "1.02.03.04".
Proof. repeat split; vm_compute; (reflexivity || discriminate). Qed.

End instancias.

(** * Further properties of the application *)

(** ** CONFIGURACOES *)

Section configuracoes.
Import Configuracoes.

(** X1. What "Salvar Configuracao Oficial" stores is what the view
    "DFC - Caixa" reads back, whatever the table held before. *)
Theorem X1_config_ida_e_volta cfg db : ler_oficial (salvar_oficial cfg db) = cfg.
Proof.
  destruct cfg as [m c l k f].
  unfold ler_oficial, salvar_oficial, get_config_bool, get_config, set_config. cbn.
  rewrite !lookup_insert.
  repeat (case_decide; try done); destruct c, l, k, f; simpl in *; congruence.
Qed.

(** X2. [get_config_bool] reads true exactly when the stored text is the
    literal "True", or when nothing is stored and the default is true: any
    other stored text reads false, whatever the default. *)
Theorem X2_get_config_bool_literal chave padrao db :
  get_config_bool chave padrao db = true
  ↔ db !! chave = Some "True" ∨ (db !! chave = None ∧ padrao = true).
Proof.
  unfold get_config_bool, get_config. rewrite bool_decide_eq_true.
  destruct (db !! chave) as [v|]; simpl.
  - split; [intros ->; by left|]. intros [H|[H _]]; congruence.
  - destruct padrao; simpl; split; intros H; try discriminate; auto.
    destruct H as [H|[_ H]]; discriminate.
Qed.

End configuracoes.

(** ** The form "Lancar Saldo Inicial / Final" *)

Section formulario_saldo.
Import Passos Formularios.

Lemma lfilter_lfilter {A} (f g : A → bool) l :
  List.filter f (List.filter g l) = List.filter (λ x, g x && f x) l.
Proof.
  induction l as [|x l IH]; [done|]. cbn [List.filter].
  destruct (g x); cbn [List.filter andb]; [|done]. by rewrite IH.
Qed.

Lemma NoDup_map_lfilter {A B} (k : A → B) (f : A → bool) l :
  NoDup (map k l) → NoDup (map k (List.filter f l)).
Proof.
  induction l as [|x l IH]; [done|]. cbn [map List.filter].
  intros [Hx Hnd]%NoDup_cons. destruct (f x); [|by apply IH].
  cbn [map]. apply NoDup_cons. split; [|by apply IH].
  intros Hin. apply Hx. apply list_elem_of_In, in_map_iff in Hin as (y & Hy & Hin).
  apply filter_In in Hin as [Hin _]. apply list_elem_of_In, in_map_iff. eauto.
Qed.

Lemma salvar_saldo_sem_empate d t v saldos :
  sem_empate saldos → sem_empate (salvar_saldo d t v saldos).
Proof.
  unfold sem_empate, salvar_saldo. intros Hnd. rewrite map_app. cbn [map].
  apply NoDup_app. split; [by apply NoDup_map_lfilter|]. split; [|apply NoDup_singleton].
  intros k Hk Hin. apply list_elem_of_singleton in Hin as ->.
  apply list_elem_of_In, in_map_iff in Hk as (y & Hy & Hin).
  apply filter_In in Hin as [_ Hf]. apply negb_true_iff, bool_decide_eq_false in Hf.
  apply Hf. by injection Hy.
Qed.

(** X3. The form never leaves two recorded balances of the same date and
    type: saving keeps that property, and every table built by the form
    from the empty table has it. *)
Theorem X3_formulario_sem_empate :
  (∀ d t v saldos, sem_empate saldos → sem_empate (salvar_saldo d t v saldos))
  ∧ (∀ ops, sem_empate (saldos_salvos ops)).
Proof.
  split; [apply salvar_saldo_sem_empate|].
  intros ops. unfold saldos_salvos.
  induction ops as [|op ops IH] using rev_ind; [constructor|].
  rewrite foldl_snoc. by apply salvar_saldo_sem_empate.
Qed.

Lemma saldos_ate_salvar_mesmo d t v saldos :
  saldos_ate t d (salvar_saldo d t v saldos)
  = (saldos_ate t d
       (List.filter (λ s : Saldo, negb (bool_decide (data_referencia s = d ∧ tipo s = t)))
          saldos)
     ++ [mkSaldo d t v])%list.
Proof.
  unfold saldos_ate, salvar_saldo. rewrite List.filter_app. f_equal. cbn.
  rewrite bool_decide_true by done. by rewrite (proj2 (Z.leb_le d d)) by lia.
Qed.

Lemma saldos_ate_salvar_outro d t v saldos t' D :
  t' ≠ t ∨ D < d →
  saldos_ate t' D (salvar_saldo d t v saldos) = saldos_ate t' D saldos.
Proof.
  intros Hd. unfold saldos_ate, salvar_saldo. rewrite List.filter_app. cbn.
  assert (bool_decide (t = t') && (d <=? D) = false) as ->.
  { destruct Hd as [Hd|Hd]; [by rewrite bool_decide_false by congruence|].
    rewrite (proj2 (Z.leb_gt d D)) by lia. apply andb_false_r. }
  rewrite app_nil_r, lfilter_lfilter. apply lfilter_ext. intros s _.
  destruct (bool_decide (tipo s = t') && (data_referencia s <=? D)) eqn:Hf;
    [|apply andb_false_r].
  rewrite andb_true_r. apply negb_true_iff, bool_decide_eq_false.
  apply andb_true_iff in Hf as [Ht%bool_decide_eq_true Hle%Z.leb_le].
  intros [? ?]. destruct Hd; [congruence|lia].
Qed.

(** X4. After a balance is saved for a date and type, the query of the
    view for that type at that date returns it; the queries for the other
    type, and for the same type at an earlier date, return what they
    returned before. *)
Theorem X4_saldo_salvo_consultado d t v saldos :
  DFC.consulta_saldo t (salvar_saldo d t v saldos) d = Some v
  ∧ (∀ t' D, t' ≠ t ∨ D < d →
       DFC.consulta_saldo t' (salvar_saldo d t v saldos) D = DFC.consulta_saldo t' saldos D).
Proof.
  split.
  - unfold DFC.consulta_saldo. rewrite saldos_ate_salvar_mesmo, ultimo_saldo_snoc.
    unfold passo_ultimo.
    destruct (ultimo_saldo _) as [b|] eqn:Hb; [|done].
    apply ultimo_saldo_elem in Hb as [Hin _].
    apply elem_of_lfilter in Hin as [_ Hf].
    apply andb_true_iff in Hf as [_ Hle]. cbn. by rewrite Hle.
  - intros t' D Hd. unfold DFC.consulta_saldo. by rewrite saldos_ate_salvar_outro.
Qed.

End formulario_saldo.

(** ** The views as functions of the admissible rows *)

Section nucleo.
Import Passos Nucleo.

Lemma dfc_caixa_nucleo cfg plano lancs saldos ini fim :
  DFC.dfc_caixa cfg plano lancs saldos ini fim
  = relatorio_de cfg (DFC.admissiveis cfg plano lancs) saldos ini fim.
Proof.
  unfold DFC.dfc_caixa, relatorio_de. cbv zeta. fold (DFC.admissiveis cfg plano lancs).
  case_bool_decide as Hj; [|done].
  by rewrite (juntar_vazio_admissiveis cfg _ _ Hj).
Qed.

Lemma simular_nucleo desempate cfg plano lancs saldos ini fim :
  Simulacao.simular desempate cfg plano lancs saldos ini fim
  = resultado_de desempate cfg (DFC.admissiveis cfg plano lancs) saldos ini fim.
Proof.
  unfold Simulacao.simular, resultado_de. cbv zeta. fold (DFC.admissiveis cfg plano lancs).
  case_bool_decide as Hj; [|done].
  by rewrite (juntar_vazio_admissiveis cfg _ _ Hj).
Qed.

Lemma juntar_app l1 l2 plano : juntar (l1 ++ l2) plano = (juntar l1 plano ++ juntar l2 plano)%list.
Proof. unfold juntar. apply flat_map_app. Qed.

Lemma admissiveis_app cfg plano l1 l2 :
  DFC.admissiveis cfg plano (l1 ++ l2)
  = (DFC.admissiveis cfg plano l1 ++ DFC.admissiveis cfg plano l2)%list.
Proof.
  unfold DFC.admissiveis, filtro_conciliacao, dropna. rewrite juntar_app, List.filter_app.
  destruct (considerar_somente_conciliados cfg); [|done]. by rewrite List.filter_app.
Qed.

(** An entry without admissible rows can be left out. *)
Lemma admissiveis_sem_linha cfg plano l1 l l2 :
  DFC.admissiveis cfg plano [l] = [] →
  DFC.admissiveis cfg plano (l1 ++ l :: l2) = DFC.admissiveis cfg plano (l1 ++ l2).
Proof.
  intros Hl. change (l :: l2) with ([l] ++ l2)%list.
  by rewrite !admissiveis_app, Hl.
Qed.

Lemma Forall2_lfilter {A} (R : A → A → Prop) (f : A → bool) l1 l2 :
  (∀ x y, R x y → f x = f y) →
  Forall2 R l1 l2 → Forall2 R (List.filter f l1) (List.filter f l2).
Proof.
  intros Hf. induction 1 as [|x y l1 l2 Hxy _ IH]; cbn [List.filter]; [constructor|].
  rewrite (Hf x y Hxy). destruct (f y); [by constructor|done].
Qed.

Lemma mesmo_movimento_soma N df1 df2 :
  Forall2 mesmo_movimento df1 df2 → soma_natureza N df1 = soma_natureza N df2.
Proof.
  unfold soma_natureza, somaZ, de_natureza.
  induction 1 as [|x y l1 l2 (_ & Hv & _ & Hn) _ IH]; [done|]. cbn [List.filter].
  rewrite Hn. destruct (bool_decide _); cbn [map foldr]; congruence.
Qed.

Lemma mesmo_movimento_ajustado df1 df2 :
  Forall2 mesmo_movimento df1 df2 →
  somaZ (map valor_ajustado df1) = somaZ (map valor_ajustado df2).
Proof.
  unfold somaZ, valor_ajustado.
  induction 1 as [|x y l1 l2 (_ & Hv & _ & Hn) _ IH]; [done|]. cbn [map foldr].
  by rewrite Hn, Hv, IH.
Qed.

Lemma mesmo_movimento_nil df1 df2 :
  Forall2 mesmo_movimento df1 df2 → bool_decide (df1 = []) = bool_decide (df2 = []).
Proof. by destruct 1. Qed.

(** Neither view reads the status of an admissible row. *)
Lemma relatorio_de_mesmo cfg df1 df2 saldos ini fim :
  Forall2 mesmo_movimento df1 df2 →
  relatorio_de cfg df1 saldos ini fim = relatorio_de cfg df2 saldos ini fim.
Proof.
  intros H. unfold relatorio_de. cbv zeta.
  assert (Forall2 mesmo_movimento (List.filter (no_periodo ini fim) df1)
            (List.filter (no_periodo ini fim) df2)) as Hp.
  { apply Forall2_lfilter; [|done]. intros x y (Hd & _). unfold no_periodo. by rewrite Hd. }
  assert (Forall2 mesmo_movimento (List.filter (antes_de ini) df1)
            (List.filter (antes_de ini) df2)) as Ha.
  { apply Forall2_lfilter; [|done]. intros x y (Hd & _). unfold antes_de. by rewrite Hd. }
  rewrite (mesmo_movimento_nil _ _ H), (mesmo_movimento_nil _ _ Hp).
  unfold DFC.resolver_saldo_calc.
  by rewrite !(mesmo_movimento_soma _ _ _ Hp), (mesmo_movimento_ajustado _ _ Ha).
Qed.

Lemma resultado_de_mesmo desempate cfg df1 df2 saldos ini fim :
  Forall2 mesmo_movimento df1 df2 →
  resultado_de desempate cfg df1 saldos ini fim = resultado_de desempate cfg df2 saldos ini fim.
Proof.
  intros H. unfold resultado_de. cbv zeta.
  assert (Forall2 mesmo_movimento (List.filter (no_periodo ini fim) df1)
            (List.filter (no_periodo ini fim) df2)) as Hp.
  { apply Forall2_lfilter; [|done]. intros x y (Hd & _). unfold no_periodo. by rewrite Hd. }
  assert (Forall2 mesmo_movimento (List.filter (antes_de ini) df1)
            (List.filter (antes_de ini) df2)) as Ha.
  { apply Forall2_lfilter; [|done]. intros x y (Hd & _). unfold antes_de. by rewrite Hd. }
  rewrite (mesmo_movimento_nil _ _ H).
  unfold Simulacao.saldo_inicial_de.
  by rewrite !(mesmo_movimento_soma _ _ _ Hp), (mesmo_movimento_ajustado _ _ Ha).
Qed.

End nucleo.

(** ** [atualizar_atrasados] *)

Section atrasados.
Import Passos Nucleo Formularios.

Lemma atrasar_campos hoje l :
  data_pagamento (atrasar hoje l) = data_pagamento l
  ∧ valor (atrasar hoje l) = valor l
  ∧ plano_conta_id (atrasar hoje l) = plano_conta_id l.
Proof. unfold atrasar. by destruct (_ && _). Qed.

(** The status after the update: "Atrasado" for an open row due before
    [hoje], the same status otherwise. *)
Lemma atrasar_status hoje l :
  status (atrasar hoje l)
  = if match data_pagamento l with Some d => d <? hoje | None => false end
       && bool_decide (status l ∈ ["A pagar"; "A receber"])
    then "Atrasado" else status l.
Proof. unfold atrasar. by destruct (_ && _). Qed.

Lemma atrasar_liquidado hoje l :
  status l ∈ ["Pago"; "Recebido"] → atrasar hoje l = l.
Proof.
  intros Hs. unfold atrasar.
  rewrite (bool_decide_false (status l ∈ ["A pagar"; "A receber"])); [by rewrite andb_false_r|].
  intros Ha. apply elem_of_cons in Hs as [Hs|Hs%list_elem_of_singleton];
    rewrite Hs in Ha; revert Ha; apply (bool_decide_eq_false_1 _); reflexivity.
Qed.

Lemma atrasar_compoe hoje1 hoje2 l :
  hoje1 ≤ hoje2 → atrasar hoje2 (atrasar hoje1 l) = atrasar hoje2 l.
Proof.
  intros Hle. unfold atrasar at 2.
  destruct (data_pagamento l) as [d|] eqn:Hd; [|done].
  destruct (bool_decide (status l ∈ ["A pagar"; "A receber"])) eqn:Hs;
    [|by rewrite andb_false_r].
  destruct (d <? hoje1) eqn:H1; [|done]. apply Z.ltb_lt in H1. cbn [andb].
  unfold atrasar. cbn [data_pagamento status valor plano_conta_id].
  rewrite Hd, Hs, (proj2 (Z.ltb_lt d hoje2)) by lia. done.
Qed.

(** X5. Running [atualizar_atrasados] again, on the same day or a later
    one, gives what one run on the later day gives (so the update is
    idempotent); it changes no date, amount or account of any entry, and
    leaves every settled entry as it is. *)
Theorem X5_atualizar_atrasados_compoe hoje1 hoje2 lancs :
  hoje1 ≤ hoje2 →
  atualizar_atrasados hoje2 (atualizar_atrasados hoje1 lancs) = atualizar_atrasados hoje2 lancs
  ∧ map (λ l, (data_pagamento l, valor l, plano_conta_id l)) (atualizar_atrasados hoje1 lancs)
    = map (λ l, (data_pagamento l, valor l, plano_conta_id l)) lancs
  ∧ List.filter (λ l, bool_decide (status l ∈ ["Pago"; "Recebido"]))
      (atualizar_atrasados hoje1 lancs)
    = List.filter (λ l, bool_decide (status l ∈ ["Pago"; "Recebido"])) lancs.
Proof.
  intros Hle. unfold atualizar_atrasados. split; [|split].
  - rewrite map_map. apply map_ext. intros l. by apply atrasar_compoe.
  - rewrite map_map. apply map_ext. intros l.
    destruct (atrasar_campos hoje1 l) as (-> & -> & ->). done.
  - induction lancs as [|l lancs IH]; [done|]. cbn [map List.filter]. rewrite IH.
    destruct (bool_decide (status l ∈ ["Pago"; "Recebido"])) eqn:Hs.
    + apply bool_decide_eq_true in Hs. rewrite (atrasar_liquidado _ _ Hs).
      by rewrite bool_decide_true.
    + rewrite bool_decide_false; [done|]. rewrite atrasar_status.
      destruct (_ && _); [|by apply bool_decide_eq_false in Hs].
      apply (bool_decide_eq_false_1 _). reflexivity.
Qed.

Lemma Forall2_app_2 {A} (R : A → A → Prop) l1 l2 k1 k2 :
  Forall2 R l1 k1 → Forall2 R l2 k2 → Forall2 R (l1 ++ l2) (k1 ++ k2).
Proof. induction 1; [done|]. intros. cbn. constructor; auto. Qed.

Lemma juntar_atualizar hoje lancs plano :
  Forall2 (λ m1 m2, mesmo_movimento m1 m2 ∧ conciliado m1 = conciliado m2)
    (juntar (atualizar_atrasados hoje lancs) plano) (juntar lancs plano).
Proof.
  induction lancs as [|l lancs IH]; [constructor|].
  unfold atualizar_atrasados. cbn [map]. fold (atualizar_atrasados hoje lancs).
  unfold juntar. cbn [flat_map]. apply Forall2_app_2; [|exact IH].
  destruct (atrasar_campos hoje l) as (-> & -> & ->).
  pose proof (atrasar_status hoje l) as Hst.
  induction (List.filter _ plano) as [|p ps IHp]; [constructor|].
  cbn [map]. constructor; [|done]. split; [done|].
  unfold conciliado. cbn [mov_natureza mov_status]. rewrite Hst.
  destruct (_ && _) eqn:Hc; [|done].
  apply andb_true_iff in Hc as [_ Hs%bool_decide_eq_true].
  apply elem_of_cons in Hs as [Hs|Hs%list_elem_of_singleton]; rewrite Hs;
    by destruct (natureza p).
Qed.

Lemma admissiveis_atualizar cfg hoje lancs plano :
  Forall2 mesmo_movimento
    (DFC.admissiveis cfg plano (atualizar_atrasados hoje lancs))
    (DFC.admissiveis cfg plano lancs).
Proof.
  unfold DFC.admissiveis, filtro_conciliacao, dropna.
  pose proof (juntar_atualizar hoje lancs plano) as H.
  eapply (Forall2_lfilter _ (λ m, bool_decide (is_Some (mov_data m)))) in H;
    [|by intros x y [(-> & _) _]].
  destruct (considerar_somente_conciliados cfg).
  - eapply (Forall2_lfilter _ conciliado) in H; [|by intros x y [_ ?]].
    eapply Forall2_impl; [exact H|]. by intros x y [? _].
  - eapply Forall2_impl; [exact H|]. by intros x y [? _].
Qed.

(** X6. Marking the overdue open entries as "Atrasado" changes nothing
    in either view, under any configuration. *)
Theorem X6_atualizar_atrasados_nao_altera_vistas desempate cfg plano lancs saldos ini fim hoje :
  DFC.dfc_caixa cfg plano (atualizar_atrasados hoje lancs) saldos ini fim
  = DFC.dfc_caixa cfg plano lancs saldos ini fim
  ∧ Simulacao.simular desempate cfg plano (atualizar_atrasados hoje lancs) saldos ini fim
    = Simulacao.simular desempate cfg plano lancs saldos ini fim.
Proof.
  rewrite !dfc_caixa_nucleo, !simular_nucleo.
  pose proof (admissiveis_atualizar cfg hoje lancs plano) as H.
  split; [by apply relatorio_de_mesmo|by apply resultado_de_mesmo].
Qed.

End atrasados.

(** ** Entries the views never see *)

Section ignorados.
Import Passos Nucleo.

Lemma admissiveis_um cfg plano l :
  DFC.admissiveis cfg plano [l]
  = filtro_conciliacao (considerar_somente_conciliados cfg)
      (dropna (map (λ p : Conta,
                      mkMov (data_pagamento l) (valor l) (status l) (codigo p) (natureza p))
                 (List.filter (λ p : Conta, bool_decide (plano_conta_id l = codigo p)) plano))).
Proof. unfold DFC.admissiveis, juntar. cbn [flat_map]. by rewrite app_nil_r. Qed.

Lemma vistas_sem_linha desempate cfg plano l1 l l2 saldos ini fim :
  DFC.admissiveis cfg plano [l] = [] →
  DFC.dfc_caixa cfg plano (l1 ++ l :: l2) saldos ini fim
  = DFC.dfc_caixa cfg plano (l1 ++ l2) saldos ini fim
  ∧ Simulacao.simular desempate cfg plano (l1 ++ l :: l2) saldos ini fim
    = Simulacao.simular desempate cfg plano (l1 ++ l2) saldos ini fim.
Proof.
  intros Hl. by rewrite !dfc_caixa_nucleo, !simular_nucleo, (admissiveis_sem_linha _ _ _ _ _ Hl).
Qed.

(** X7. An entry whose account code is no code of the plan, or whose
    payment date could not be read, changes nothing in either view: with
    it and without it each view gives the same result, or stops in both
    cases. *)
Theorem X7_orfaos_e_sem_data_ignorados desempate cfg plano l1 l l2 saldos ini fim :
  plano_conta_id l ∉ map codigo plano ∨ data_pagamento l = None →
  DFC.dfc_caixa cfg plano (l1 ++ l :: l2) saldos ini fim
  = DFC.dfc_caixa cfg plano (l1 ++ l2) saldos ini fim
  ∧ Simulacao.simular desempate cfg plano (l1 ++ l :: l2) saldos ini fim
    = Simulacao.simular desempate cfg plano (l1 ++ l2) saldos ini fim.
Proof.
  intros H. apply vistas_sem_linha. rewrite admissiveis_um.
  assert (dropna (map (λ p : Conta,
                         mkMov (data_pagamento l) (valor l) (status l) (codigo p) (natureza p))
                    (List.filter (λ p : Conta, bool_decide (plano_conta_id l = codigo p)) plano))
          = []) as ->; [|by destruct (considerar_somente_conciliados cfg)].
  destruct H as [H|H].
  - rewrite lfilter_nil; [done|]. intros p Hp. apply bool_decide_eq_false. intros Heq.
    apply H. rewrite Heq. apply list_elem_of_In, in_map. by apply list_elem_of_In.
  - unfold dropna. apply lfilter_nil. intros m Hm.
    apply list_elem_of_In, in_map_iff in Hm as (p & <- & _). cbn. rewrite H.
    apply bool_decide_eq_false. by intros [? [=]].
Qed.

(** X8. Under "considerar somente conciliados" an entry whose status is
    neither "Pago" nor "Recebido" changes nothing in either view; nor does
    an entry whose status is not the settled status of the nature of any
    account row with its code (a "Pago" entry of an Entrada account, a
    "Recebido" entry of a Saida account). *)
Theorem X8_nao_conciliados_ignorados desempate cfg plano l1 l l2 saldos ini fim :
  considerar_somente_conciliados cfg = true →
  status l ∉ ["Pago"; "Recebido"]
  ∨ (∀ p, p ∈ plano → codigo p = plano_conta_id l →
          status l ≠ match natureza p with Entrada => "Recebido" | Saida => "Pago" end) →
  DFC.dfc_caixa cfg plano (l1 ++ l :: l2) saldos ini fim
  = DFC.dfc_caixa cfg plano (l1 ++ l2) saldos ini fim
  ∧ Simulacao.simular desempate cfg plano (l1 ++ l :: l2) saldos ini fim
    = Simulacao.simular desempate cfg plano (l1 ++ l2) saldos ini fim.
Proof.
  intros Hc H. apply vistas_sem_linha. rewrite admissiveis_um, Hc.
  unfold filtro_conciliacao, dropna. rewrite lfilter_lfilter. apply lfilter_nil.
  intros m Hm. apply list_elem_of_In, in_map_iff in Hm as (p & <- & Hp).
  apply filter_In in Hp as [Hp Hcod%bool_decide_eq_true].
  apply andb_false_iff. right. unfold conciliado. cbn.
  destruct H as [H|H].
  - destruct (natureza p); apply bool_decide_eq_false; intros Heq; apply H; rewrite Heq.
    + right. left.
    + left.
  - specialize (H p (proj2 (list_elem_of_In _ _) Hp) (eq_sym Hcod)).
    by destruct (natureza p); apply bool_decide_eq_false.
Qed.

End ignorados.

(** ** The sign of the outflows *)

Section sinais.
Import Passos Nucleo.

Lemma juntar_valor lancs plano m :
  m ∈ juntar lancs plano → ∃ l, l ∈ lancs ∧ mov_valor m = valor l.
Proof.
  unfold juntar. rewrite list_elem_of_In, in_flat_map.
  intros (l & Hl & Hm). apply in_map_iff in Hm as (p & <- & _).
  exists l. by rewrite list_elem_of_In.
Qed.

Lemma admissiveis_juntar cfg plano lancs m :
  m ∈ DFC.admissiveis cfg plano lancs → m ∈ juntar lancs plano.
Proof.
  unfold DFC.admissiveis, filtro_conciliacao, dropna.
  destruct (considerar_somente_conciliados cfg).
  - intros [Hm _]%elem_of_lfilter. by apply elem_of_lfilter in Hm as [Hm _].
  - by intros [Hm _]%elem_of_lfilter.
Qed.

Lemma soma_natureza_nao_negativa N df :
  (∀ m, m ∈ df → 0 ≤ mov_valor m) → 0 ≤ soma_natureza N df.
Proof.
  unfold soma_natureza, somaZ. induction df as [|m df IH]; intros H; [done|].
  cbn [List.filter]. assert (0 ≤ mov_valor m) by (apply H; left).
  assert (0 ≤ foldr Z.add 0 (map mov_valor (List.filter (de_natureza N) df))).
  { apply IH. intros x Hx. apply H. by right. }
  destruct (de_natureza N m); cbn [map foldr]; lia.
Qed.

Lemma relatorio_de_forcar cfg df saldos ini fim :
  0 ≤ soma_natureza Saida (List.filter (no_periodo ini fim) df) →
  relatorio_de (com_forcar true cfg) df saldos ini fim
  = relatorio_de (com_forcar false cfg) df saldos ini fim.
Proof.
  intros H. unfold relatorio_de. cbv zeta. repeat case_bool_decide; try done.
  unfold sinal_saidas. cbn [forcar_saida_negativa com_forcar modelo].
  rewrite (Z.abs_eq _ H). done.
Qed.

Lemma resultado_de_forcar desempate cfg df saldos ini fim :
  0 ≤ soma_natureza Saida (List.filter (no_periodo ini fim) df) →
  resultado_de desempate (com_forcar true cfg) df saldos ini fim
  = resultado_de desempate (com_forcar false cfg) df saldos ini fim.
Proof.
  intros H. unfold resultado_de. cbv zeta. repeat case_bool_decide; try done.
  unfold sinal_saidas. cbn [forcar_saida_negativa com_forcar modelo].
  rewrite (Z.abs_eq _ H). done.
Qed.

(** X11. With "forcar saidas como valor negativo" the outflow the live
    view reports is never positive; and when no entry has a negative
    amount the setting makes no difference to either view. *)
Theorem X11_forcar_saida_negativa desempate cfg plano lancs saldos ini fim :
  (∀ r, forcar_saida_negativa cfg = true →
        DFC.dfc_caixa cfg plano lancs saldos ini fim = Some r → DFC.total_saidas r ≤ 0)
  ∧ ((∀ l, l ∈ lancs → 0 ≤ valor l) →
     DFC.dfc_caixa (com_forcar true cfg) plano lancs saldos ini fim
     = DFC.dfc_caixa (com_forcar false cfg) plano lancs saldos ini fim
     ∧ Simulacao.simular desempate (com_forcar true cfg) plano lancs saldos ini fim
       = Simulacao.simular desempate (com_forcar false cfg) plano lancs saldos ini fim).
Proof.
  split.
  - intros r Hf. unfold DFC.dfc_caixa. cbv zeta. repeat case_bool_decide; try done.
    intros [= <-]. cbn [DFC.total_saidas]. rewrite Hf. unfold sinal_saidas. lia.
  - intros Hpos. rewrite !dfc_caixa_nucleo, !simular_nucleo.
    change (DFC.admissiveis (com_forcar true cfg)) with (DFC.admissiveis cfg).
    change (DFC.admissiveis (com_forcar false cfg)) with (DFC.admissiveis cfg).
    assert (0 ≤ soma_natureza Saida
                  (List.filter (no_periodo ini fim) (DFC.admissiveis cfg plano lancs))) as H.
    { apply soma_natureza_nao_negativa. intros m [Hm _]%elem_of_lfilter.
      apply admissiveis_juntar, juntar_valor in Hm as (l & Hl & ->). by apply Hpos. }
    split; [by apply relatorio_de_forcar|by apply resultado_de_forcar].
Qed.

End sinais.

(** ** Candidates of candidates, and the accounts that take postings *)

Section analiticas.
Import Passos Rollup Codigo Formularios.

Lemma pais_de_candidato a b c :
  Str.sem_ponto a = true → Str.sem_ponto b = true → Str.sem_ponto c = true → inicio_ok a →
  codigo_pais (a +:+ "." +:+ b +:+ "." +:+ c +:+ ".00")
  = ((if bool_decide (c ≠ "00") then [a +:+ "." +:+ b +:+ ".00.00"] else [])
     ++ (if bool_decide (b ≠ "00") then [a +:+ ".00.00.00"] else []))%list
  ∧ eh_sintetico (a +:+ "." +:+ b +:+ "." +:+ c +:+ ".00") = true.
Proof.
  intros Ha Hb Hc Hi. unfold codigo_pais, eh_sintetico.
  rewrite blocos_candidato by done. unfold pais_de_blocos.
  rewrite (bool_decide_false ("00" ≠ "00")) by tauto. done.
Qed.

(** Where a candidate stands in the list built from the blocks. *)
Lemma pais_de_blocos_inv a b c d l1 p l2 :
  pais_de_blocos a b c d = (l1 ++ p :: l2)%list →
  (p = a +:+ "." +:+ b +:+ "." +:+ c +:+ ".00"
   ∧ l2 = ((if bool_decide (c ≠ "00") then [a +:+ "." +:+ b +:+ ".00.00"] else [])
           ++ (if bool_decide (b ≠ "00") then [a +:+ ".00.00.00"] else []))%list)
  ∨ (p = a +:+ "." +:+ b +:+ ".00.00"
     ∧ l2 = (if bool_decide (b ≠ "00") then [a +:+ ".00.00.00"] else []))
  ∨ (p = a +:+ ".00.00.00" ∧ l2 = []).
Proof.
  unfold pais_de_blocos.
  destruct (bool_decide (d ≠ "00")), (bool_decide (c ≠ "00")), (bool_decide (b ≠ "00"));
    cbn [app]; intros H;
    destruct l1 as [|x1 [|x2 [|x3 [|x4 l1]]]]; cbn [app] in H; try discriminate H;
    injection H as <-; subst; auto.
Qed.

Lemma candidatos_do_candidato cod l1 p l2 :
  codigo_pais cod = (l1 ++ p :: l2)%list → codigo_pais p = l2 ∧ eh_sintetico p = true.
Proof.
  unfold codigo_pais at 1.
  destruct (codigo_blocos_inv cod) as (a & b & c & d & t & -> & _ & Ha & Hb & Hc & Hd & Hi).
  intros [[-> ->]|[[-> ->]|[-> ->]]]%pais_de_blocos_inv.
  - by apply pais_de_candidato.
  - change (a +:+ "." +:+ b +:+ ".00.00") with (a +:+ "." +:+ b +:+ "." +:+ "00" +:+ ".00").
    destruct (pais_de_candidato a b "00" Ha Hb eq_refl Hi) as [-> ->].
    by rewrite (bool_decide_false ("00" ≠ "00")) by tauto.
  - change (a +:+ ".00.00.00") with (a +:+ "." +:+ "00" +:+ "." +:+ "00" +:+ ".00").
    destruct (pais_de_candidato a "00" "00" Ha eq_refl eq_refl Hi) as [-> ->].
    by rewrite (bool_decide_false ("00" ≠ "00")) by tauto.
Qed.

Lemma candidato_sintetico cod p : p ∈ codigo_pais cod → eh_sintetico p = true.
Proof.
  intros (l1 & l2 & H)%list_elem_of_split. by apply candidatos_do_candidato in H as [_ ?].
Qed.

(** X9. The candidates of a candidate are the candidates that follow it:
    the list of [codigo_pais] is the chain of ancestors of the code, each
    one synthetic. *)
Theorem X9_candidatos_encadeados cod l1 p l2 :
  codigo_pais cod = (l1 ++ p :: l2)%list → codigo_pais p = l2 ∧ eh_sintetico p = true.
Proof. apply candidatos_do_candidato. Qed.

Lemma analitica_sem_filhos plano cod :
  eh_sintetico cod = false → default [] (filhos_de plano !! cod) = [].
Proof.
  intros Hs. destruct (default [] (filhos_de plano !! cod)) as [|c l] eqn:Hl; [done|].
  assert (c ∈ default [] (filhos_de plano !! cod)) as Hc by (rewrite Hl; left).
  apply filhos_de_elem in Hc as [_ [Hp _]%pai_existente_Some].
  apply candidato_sintetico in Hp. congruence.
Qed.

Lemma analitica_total plano df cod N :
  eh_sintetico cod = false → total_de plano df cod N = Some (soma_propria df cod N).
Proof.
  intros Hs. rewrite total_de_total. f_equal.
  rewrite (total_eq _ _ _ _ (chaves_desc _) (chaves_NoDup _)).
  unfold filhos_nat. fold (filhos_de plano). rewrite (analitica_sem_filhos _ _ Hs).
  rewrite soma_por_codigo_get. unfold somaZ. cbn. lia.
Qed.

(** X12. An account whose code is not synthetic (fourth block other than
    "00") is a leaf of the hierarchy of every plan: no code has it as
    parent, its list of children is empty and its total is its own sum. *)
Theorem X12_analitica_e_folha plano df cod N :
  eh_sintetico cod = false →
  (∀ c, pai_de plano c ≠ Some cod)
  ∧ default [] (filhos_de plano !! cod) = []
  ∧ total_de plano df cod N = Some (soma_propria df cod N).
Proof.
  intros Hs. split; [|split].
  - intros c [Hp _]%pai_existente_Some. apply candidato_sintetico in Hp. congruence.
  - by apply analitica_sem_filhos.
  - by apply analitica_total.
Qed.

End analiticas.

(** ** [cache_total] *)

Section memoria.
Import Passos Rollup Codigo.

Variable desc : gmap string string.
Variable nat_de : gmap string Natureza.
Variable ks : list string.
Variable soma : gmap (string * Natureza) Z.

Lemma laco_filhos_mono rec N chs base cache v cache' :
  (∀ ch c w c', rec c ch N = Some (w, c') → c ⊆ c') →
  laco_filhos nat_de rec N chs base cache = Some (v, cache') → cache ⊆ cache'.
Proof.
  intros Hrec. unfold laco_filhos. revert base cache.
  induction chs as [|ch chs IH]; intros base cache; cbn [foldl].
  - by intros [= _ <-].
  - case_bool_decide as Hn; [apply IH|].
    destruct (rec cache ch N) as [[w c1]|] eqn:Hr.
    + intros H. apply IH in H. apply Hrec in Hr. by transitivity c1.
    + intros H. exfalso. clear -H. induction chs as [|x chs IHc]; [done|]. by apply IHc.
Qed.

(** [total_no] only adds to the cache, and leaves the node in it. *)
Lemma total_no_mono n cache cod N v cache' :
  total_no desc nat_de ks soma n cache cod N = Some (v, cache') →
  cache ⊆ cache' ∧ cache' !! (cod, N) = Some v.
Proof.
  revert cache cod v cache'. induction n as [|n IH]; intros cache cod v cache'; [done|].
  cbn [total_no]. destruct (cache !! (cod, N)) as [w|] eqn:Hc.
  - by intros [= <- <-].
  - destruct (laco_filhos _ _ _ _ _ _) as [[b c1]|] eqn:Hl; [|done].
    intros [= <- <-]. split; [|apply lookup_insert_eq].
    apply insert_subseteq_r; [done|].
    eapply laco_filhos_mono; [|exact Hl].
    intros ch c w c' H. by apply IH in H as [? _].
Qed.

End memoria.

Section memoria_plano.
Import Passos Rollup Codigo.

(** X14. [cache_total] is transparent: on a cache whose entries are
    totals, [total_no] returns the total it returns on an empty cache,
    stores it under the node, keeps every entry it found and leaves a
    cache whose entries are totals. *)
Theorem X14_cache_transparente plano df cache cod N :
  (∀ c M w, cache !! (c, M) = Some w → total_de plano df c M = Some w) →
  ∃ v cache',
    total_no (plano_desc (ler_plano plano)) (plano_nat (ler_plano plano))
      (chaves (ler_plano plano)) (soma_por_codigo df) 4 cache cod N = Some (v, cache')
    ∧ total_de plano df cod N = Some v
    ∧ cache' !! (cod, N) = Some v
    ∧ cache ⊆ cache'
    ∧ (∀ c M w, cache' !! (c, M) = Some w → total_de plano df c M = Some w).
Proof.
  intros Hc.
  destruct (total_no_ok (plano_desc (ler_plano plano)) (plano_nat (ler_plano plano))
              (chaves (ler_plano plano)) (soma_por_codigo df)
              (chaves_desc _) (chaves_NoDup _) 4 cache cod N) as (c1 & H1 & Hok1).
  - intros c M w Hw. apply Hc in Hw. rewrite total_de_total in Hw. congruence.
  - pose proof (nivel_max cod). lia.
  - eexists _, c1. split; [exact H1|]. split; [apply total_de_total|].
    destruct (total_no_mono _ _ _ _ _ _ _ _ _ _ H1) as [Hsub Hl].
    split; [done|]. split; [done|].
    intros c M w Hw. rewrite total_de_total. f_equal. symmetry. by apply Hok1.
Qed.

End memoria_plano.

(** ** The tree drawn *)

Section arvore.
Import Passos Rollup Codigo Arvore.

Variable desc : gmap string string.
Variable nat_de : gmap string Natureza.
Variable ks : list string.
Variable soma : gmap (string * Natureza) Z.
Hypothesis Hks : ∀ k, k ∈ ks ↔ is_Some (desc !! k).
Hypothesis Hnd : NoDup ks.

Local Notation total := (Rollup.total desc nat_de ks soma).
Local Notation cache_ok := (Rollup.cache_ok desc nat_de ks soma).
Local Notation visita := (Arvore.visita desc nat_de ks).
Local Notation filhos_mostrados := (Arvore.filhos_mostrados desc nat_de ks).
Local Notation render_no := (Arvore.render_no desc nat_de ks soma).

(** The lines expected for a list of codes. *)
Local Notation esperadas N l := (map (λ c : string, (c, valor_mostrado N (total c N))) l).

Lemma flat_map_esperadas (g : string → list string) N l :
  flat_map (λ c, esperadas N (g c)) l = esperadas N (flat_map g l).
Proof.
  induction l as [|x l IH]; [done|]. cbn [flat_map]. by rewrite map_app, IH.
Qed.

Lemma laco_render_ok rec N (g : string → list (string * Z)) chs nos0 cache :
  cache_ok cache →
  (∀ ch cache, ch ∈ chs → cache_ok cache →
     ∃ t cache', rec cache ch = Some (t, cache') ∧ cache_ok cache'
                 ∧ linhas t = g ch ∧ no_codigo t = ch) →
  ∃ nos cache',
    foldl (passo_render nat_de rec N) (Some (nos0, cache)) chs
    = Some ((nos0 ++ nos)%list, cache')
    ∧ cache_ok cache'
    ∧ flat_map linhas nos
      = flat_map g (List.filter (λ c : string, bool_decide (nat_de !! c = Some N)) chs)
    ∧ map no_codigo nos
      = List.filter (λ c : string, bool_decide (nat_de !! c = Some N)) chs.
Proof.
  revert nos0 cache. induction chs as [|ch chs IH]; intros nos0 cache Hok Hrec;
    cbn [foldl List.filter].
  - exists [], cache. by rewrite app_nil_r.
  - unfold passo_render at 2. destruct (decide (nat_de !! ch = Some N)) as [Heq|Hne].
    + rewrite (bool_decide_false (_ ≠ _)) by tauto. rewrite (bool_decide_true _ Heq).
      destruct (Hrec ch cache) as (t & c1 & -> & Hok1 & Ht & Hc); [by left|done|].
      destruct (IH (nos0 ++ [t])%list c1 Hok1) as (nos & c2 & -> & Hok2 & Hn & Hcs).
      { intros ch' c' Hin. apply Hrec. by right. }
      exists (t :: nos), c2. rewrite <- app_assoc. cbn [app flat_map map].
      by rewrite Ht, Hn, Hc, Hcs.
    + rewrite (bool_decide_true (_ ≠ _)) by done. rewrite (bool_decide_false _ Hne).
      apply IH; [done|]. intros ch' c' Hin. apply Hrec. by right.
Qed.

(** [render_no] draws the node and, below it, its children of the nature
    asked for, each with its total. *)
Lemma render_no_ok n cache cod N depth :
  cache_ok cache → (4 - nivel cod ≤ n)%nat →
  ∃ t cache',
    render_no n cache cod N depth = Some (t, cache') ∧ cache_ok cache'
    ∧ linhas t = esperadas N (visita n cod N) ∧ no_codigo t = cod.
Proof.
  revert cache cod depth. induction n as [|n IH]; intros cache cod depth Hok Hn.
  { pose proof (nivel_max cod). lia. }
  cbn [Arvore.render_no Arvore.visita].
  destruct (total_no_ok desc nat_de ks soma Hks Hnd 4 cache cod N Hok) as (c1 & -> & Hok1).
  { pose proof (nivel_max cod). lia. }
  case_bool_decide as Hf.
  - destruct (laco_render_ok (λ cache ch, render_no n cache ch N (S depth)) N
                (λ ch, esperadas N (visita n ch N))
                (default [] (filhos desc ks !! cod)) [] c1 Hok1)
      as (nos & c2 & -> & Hok2 & Hl & _).
    { intros ch c' Hch Hok'. apply IH; [done|].
      apply (filhos_nivel desc ks Hks Hnd) in Hch. lia. }
    exists (Grupo cod (default cod (desc !! cod)) (valor_mostrado N (total cod N))
              (bool_decide (depth = 0%nat)) nos), c2.
    split; [done|]. split; [done|]. split; [|done].
    cbn [linhas map]. f_equal. rewrite Hl. apply flat_map_esperadas.
  - exists (Linha cod (default cod (desc !! cod)) (valor_mostrado N (total cod N))), c1.
    split; [done|]. split; [done|]. split; [|done].
    destruct (filhos_mostrados cod N) as [|x l]; [done|]. cbn in Hf. lia.
Qed.

Lemma render_raizes_aux N rs nos0 cache :
  cache_ok cache →
  ∃ nos cache',
    foldl (passo_raiz desc nat_de ks soma N) (Some (nos0, cache)) rs
    = Some ((nos0 ++ nos)%list, cache')
    ∧ cache_ok cache'
    ∧ flat_map linhas nos = esperadas N (flat_map (λ r, visita 4 r N) rs)
    ∧ map no_codigo nos = rs.
Proof.
  revert nos0 cache. induction rs as [|r rs IH]; intros nos0 cache Hok; cbn [foldl].
  - exists [], cache. by rewrite app_nil_r.
  - unfold passo_raiz at 2.
    destruct (render_no_ok 4 cache r N 0 Hok) as (t & c1 & -> & Hok1 & Ht & Hc).
    { pose proof (nivel_max r). lia. }
    destruct (IH (nos0 ++ [t])%list c1 Hok1) as (nos & c2 & -> & Hok2 & Hn & Hcs).
    exists (t :: nos), c2. rewrite <- app_assoc. cbn [app flat_map map].
    by rewrite Ht, Hn, Hc, Hcs, map_app.
Qed.

Lemma render_raizes_ok N rs cache :
  cache_ok cache →
  ∃ nos cache',
    render_raizes desc nat_de ks soma cache rs N = Some (nos, cache')
    ∧ cache_ok cache'
    ∧ flat_map linhas nos = esperadas N (flat_map (λ r, visita 4 r N) rs)
    ∧ map no_codigo nos = rs.
Proof. intros Hok. apply (render_raizes_aux N rs [] cache Hok). Qed.

End arvore.

Section contagem.
Import Passos Rollup Codigo Arvore.

Lemma conta_cons x y l : conta x (y :: l) = (if bool_decide (y = x) then 1 else 0) + conta x l.
Proof. reflexivity. Qed.

Lemma conta_app x l1 l2 : conta x (l1 ++ l2) = conta x l1 + conta x l2.
Proof. unfold conta. by rewrite map_app, somaZ_app. Qed.

Lemma conta_flat_map {A} x (f : A → list string) l :
  conta x (flat_map f l) = somaZ (map (λ y, conta x (f y)) l).
Proof.
  induction l as [|y l IH]; [done|]. cbn [flat_map map]. rewrite conta_app, IH. done.
Qed.

Lemma conta_count x l : conta x l = Z.of_nat (count_occ string_dec l x).
Proof.
  induction l as [|y l IH]; [done|]. rewrite conta_cons, IH. cbn [count_occ].
  destruct (string_dec y x) as [Heq|Hne].
  - rewrite bool_decide_true by done. lia.
  - rewrite bool_decide_false by done. lia.
Qed.

(** Two lists in which every text occurs equally often are permutations
    of each other. *)
Lemma conta_perm l1 l2 : (∀ x, conta x l1 = conta x l2) → l1 ≡ₚ l2.
Proof.
  intros H. apply (Permutation_count_occ string_dec). intros x.
  specialize (H x). rewrite !conta_count in H. lia.
Qed.

Variable desc : gmap string string.
Variable nat_de : gmap string Natureza.
Variable ks : list string.
Hypothesis Hks : ∀ k, k ∈ ks ↔ is_Some (desc !! k).
Hypothesis Hnd : NoDup ks.
Hypothesis Hdom : ∀ c, c ∈ ks → is_Some (nat_de !! c).
Hypothesis Hpai : ∀ c p, c ∈ ks → pai_existente desc c = Some p → nat_de !! p = nat_de !! c.

(** The children drawn are the children summed. *)
Lemma filhos_mostrados_nat cod N :
  filhos_mostrados desc nat_de ks cod N = filhos_nat desc nat_de ks cod N.
Proof.
  unfold filhos_mostrados, filhos_nat. apply lfilter_ext. intros ch Hch.
  apply (filhos_elem _ _ Hks Hnd) in Hch as [Hk _].
  destruct (Hdom ch Hk) as [n Hn]. rewrite Hn. cbn.
  apply bool_decide_ext. split; congruence.
Qed.

(** Counting a code in what is drawn below a node is a roll-up of the
    sums that give 1 to that code. *)
Lemma conta_visita x n cod N :
  conta x (visita desc nat_de ks n cod N)
  = total_puro desc nat_de ks {[(x, N) := 1]} n cod N.
Proof.
  revert cod. induction n as [|n IH]; intros cod; [done|].
  cbn [visita]. rewrite total_puro_S, conta_cons, conta_flat_map. f_equal.
  - destruct (decide (cod = x)) as [->|Hne].
    + by rewrite bool_decide_true, lookup_singleton_eq.
    + rewrite bool_decide_false by done. rewrite lookup_singleton_ne; [done|congruence].
  - rewrite filhos_mostrados_nat. apply somaZ_map_ext. intros ch _. apply IH.
Qed.

(** Every key of a nature is drawn once under the roots of the nature. *)
Lemma visita_raizes N :
  flat_map (λ r, visita desc nat_de ks 4 r N) (roots desc nat_de ks N)
  ≡ₚ chaves_nat nat_de ks N.
Proof.
  apply conta_perm. intros x. rewrite conta_flat_map.
  transitivity (somaZ (map (λ r, Rollup.total desc nat_de ks {[(x, N) := 1]} r N)
                         (roots desc nat_de ks N))).
  { apply somaZ_map_ext. intros r _. apply conta_visita. }
  rewrite (raizes_sem_perda desc nat_de ks _ Hks Hnd Hdom Hpai).
  unfold conta. apply somaZ_map_ext. intros k _.
  destruct (decide (k = x)) as [->|Hne].
  - by rewrite bool_decide_true, lookup_singleton_eq.
  - rewrite bool_decide_false by done. rewrite lookup_singleton_ne; [done|congruence].
Qed.

End contagem.

Section arvore_plano.
Import Passos Rollup Codigo Arvore.

Lemma dfc_hierarquico_ok plano df :
  ∃ recebimentos pagamentos,
    dfc_hierarquico plano df = Some (recebimentos, pagamentos)
    ∧ map no_codigo recebimentos = roots_de plano Entrada
    ∧ map no_codigo pagamentos = roots_de plano Saida
    ∧ (∀ N nos, (N = Entrada ∧ nos = recebimentos) ∨ (N = Saida ∧ nos = pagamentos) →
         flat_map linhas nos
         = map (λ c : string,
                  (c, valor_mostrado N
                        (total (plano_desc (ler_plano plano)) (plano_nat (ler_plano plano))
                           (chaves (ler_plano plano)) (soma_por_codigo df) c N)))
             (flat_map (λ r, visita (plano_desc (ler_plano plano))
                               (plano_nat (ler_plano plano)) (chaves (ler_plano plano)) 4 r N)
                (roots_de plano N))).
Proof.
  unfold dfc_hierarquico. cbv zeta.
  destruct (render_raizes_ok (plano_desc (ler_plano plano)) (plano_nat (ler_plano plano))
              (chaves (ler_plano plano)) (soma_por_codigo df) (chaves_desc _) (chaves_NoDup _)
              Entrada (roots_de plano Entrada) ∅) as (rec & c1 & Hr & Hok1 & Hl1 & Hc1).
  { apply cache_ok_empty. }
  destruct (render_raizes_ok (plano_desc (ler_plano plano)) (plano_nat (ler_plano plano))
              (chaves (ler_plano plano)) (soma_por_codigo df) (chaves_desc _) (chaves_NoDup _)
              Saida (roots_de plano Saida) c1 Hok1) as (pag & c2 & Hp & _ & Hl2 & Hc2).
  unfold roots_de in Hr, Hp. rewrite Hr, Hp.
  exists rec, pag. split; [done|]. split; [done|]. split; [done|].
  intros N nos [[-> ->]|[-> ->]]; done.
Qed.

(** X15. The tree is drawn for every plan and every period: the nodes at
    the top of each column are the roots of the nature, in their order,
    and every node, at any depth, shows the total that [total_no] gives it
    on an empty cache (with the sign turned in the column of the
    Saidas). *)
Theorem X15_arvore_mostra_totais plano df :
  ∃ recebimentos pagamentos,
    dfc_hierarquico plano df = Some (recebimentos, pagamentos)
    ∧ map no_codigo recebimentos = roots_de plano Entrada
    ∧ map no_codigo pagamentos = roots_de plano Saida
    ∧ Forall (λ cv : string * Z, total_de plano df cv.1 Entrada = Some cv.2)
        (flat_map linhas recebimentos)
    ∧ Forall (λ cv : string * Z, total_de plano df cv.1 Saida = Some (- cv.2))
        (flat_map linhas pagamentos).
Proof.
  destruct (dfc_hierarquico_ok plano df) as (rec & pag & H & Hr & Hp & Hl).
  exists rec, pag. split; [done|]. split; [done|]. split; [done|]. split.
  - rewrite (Hl Entrada rec) by auto. apply Forall_forall.
    intros cv (c & <- & _)%list_elem_of_In%in_map_iff. cbn. apply total_de_total.
  - rewrite (Hl Saida pag) by auto. apply Forall_forall.
    intros cv (c & <- & _)%list_elem_of_In%in_map_iff. cbn.
    rewrite Z.opp_involutive. apply total_de_total.
Qed.

Lemma chaves_nat_particao (nat_de : gmap string Natureza) ks :
  (∀ c, c ∈ ks → is_Some (nat_de !! c)) →
  (chaves_nat nat_de ks Entrada ++ chaves_nat nat_de ks Saida)%list ≡ₚ ks.
Proof.
  unfold chaves_nat. induction ks as [|k ks IH]; intros Hdom; [done|].
  cbn [List.filter]. destruct (Hdom k) as [n Hn]; [left|]. rewrite Hn.
  assert ((List.filter (λ k, bool_decide (nat_de !! k = Some Entrada)) ks
           ++ List.filter (λ k, bool_decide (nat_de !! k = Some Saida)) ks)%list ≡ₚ ks) as IH'.
  { apply IH. intros c Hc. apply Hdom. by right. }
  destruct n.
  - rewrite bool_decide_true, bool_decide_false by done. cbn [app]. by rewrite IH'.
  - rewrite bool_decide_false, bool_decide_true by done.
    rewrite <- Permutation_middle. by rewrite IH'.
Qed.

(** X16. On a plan as [transformar_plano] stores it, every account is
    drawn exactly once: the codes drawn in a column are, up to their
    order, the accounts of that nature, and the two columns together are
    the codes of the plan. *)
Theorem X16_arvore_cobre_o_plano plano df recebimentos pagamentos :
  plano_coerente plano →
  dfc_hierarquico plano df = Some (recebimentos, pagamentos) →
  map fst (flat_map linhas recebimentos) ≡ₚ contas_de plano Entrada
  ∧ map fst (flat_map linhas pagamentos) ≡ₚ contas_de plano Saida
  ∧ (map fst (flat_map linhas recebimentos) ++ map fst (flat_map linhas pagamentos))%list
    ≡ₚ chaves (ler_plano plano).
Proof.
  intros Hco H.
  destruct (dfc_hierarquico_ok plano df) as (rec & pag & H' & _ & _ & Hl).
  rewrite H in H'. injection H' as <- <-.
  assert (∀ N nos, (N = Entrada ∧ nos = recebimentos) ∨ (N = Saida ∧ nos = pagamentos) →
            map fst (flat_map linhas nos) ≡ₚ contas_de plano N) as Hcol.
  { intros N nos HN. rewrite (Hl N nos HN), map_map. cbn [fst]. rewrite map_id.
    unfold roots_de, contas_de. rewrite (ler_plano_id plano Hco).
    apply (visita_raizes _ _ _ (chaves_desc _) (chaves_NoDup _)).
    - intros c Hc. apply plano_nat_dom. by apply elem_of_chaves.
    - intros c p. apply plano_nat_pai, Hco. }
  split; [apply Hcol; auto|]. split; [apply Hcol; auto|].
  rewrite (Hcol Entrada recebimentos), (Hcol Saida pagamentos) by auto.
  unfold contas_de. apply chaves_nat_particao.
  intros c Hc. apply plano_nat_dom. by apply elem_of_chaves.
Qed.

Lemma lfilter_todos {A} (f : A → bool) l : (∀ x, x ∈ l → f x = true) → List.filter f l = l.
Proof.
  induction l as [|x l IH]; intros H; cbn [List.filter]; [done|].
  rewrite (H x) by left. f_equal. apply IH. intros y Hy. apply H. by right.
Qed.

(** X17. On a plan as [transformar_plano] stores it a child has the
    nature of its parent: the test of the nature in [total_no] and in
    [render_no] skips no child of an account of the nature asked for, and
    every child when another nature is asked for. *)
Theorem X17_filhos_tem_a_natureza_do_pai plano cod N :
  plano_coerente plano →
  plano_nat (ler_plano plano) !! cod = Some N →
  filhos_mesma_natureza plano cod N = default [] (filhos_de plano !! cod)
  ∧ (∀ N', N' ≠ N → filhos_mesma_natureza plano cod N' = []).
Proof.
  intros Hco Hn.
  assert (∀ ch, ch ∈ default [] (filhos_de plano !! cod) →
                plano_nat (ler_plano plano) !! ch = Some N) as Hch.
  { intros ch [Hk Hp]%filhos_de_elem. unfold pai_de in Hp.
    rewrite (ler_plano_id plano Hco) in *.
    by rewrite <- (plano_nat_pai plano Hco ch cod Hk Hp). }
  unfold filhos_mesma_natureza. split.
  - apply lfilter_todos. intros ch Hin. apply bool_decide_eq_true. by apply Hch.
  - intros N' Hne. apply lfilter_nil. intros ch Hin. apply bool_decide_eq_false.
    rewrite (Hch ch Hin). congruence.
Qed.

End arvore_plano.

(** ** The statuses the application writes *)

Section estados.
Import Passos Nucleo Formularios.

(** X18. The status the form "Novo Lancamento" shows first is the default
    of the nature, for every text of the nature (none included): the
    default is always among the options offered, at their head. *)
Theorem X18_status_inicial natureza :
  status_inicial natureza = Some (default_status_por_natureza natureza)
  ∧ default_status_por_natureza natureza ∈ status_opcoes_por_natureza natureza
  ∧ head (status_opcoes_por_natureza natureza) = Some (default_status_por_natureza natureza).
Proof.
  unfold status_inicial, status_opcoes_por_natureza, default_status_por_natureza. cbv zeta.
  destruct (bool_decide (Str.strip (default "" natureza) = "Entrada"));
    (split; [reflexivity|]); (split; [left|reflexivity]).
Qed.

(** X19. Of the statuses the form offers for an account exactly one, the
    last, passes the filter of the settled entries; an entry saved with
    the default status changes nothing in either view under "considerar
    somente conciliados". *)
Theorem X19_status_do_formulario desempate cfg plano lancs conta_row venc v saldos ini fim :
  (∀ d x c,
     List.filter (λ s, conciliado (mkMov d x s c (natureza conta_row)))
       (status_opcoes_por_natureza (Some (natureza_sel conta_row)))
     = [match natureza conta_row with Entrada => "Recebido" | Saida => "Pago" end])
  ∧ (considerar_somente_conciliados cfg = true →
     DFC.dfc_caixa cfg plano
       (lancs ++ [novo_lancamento conta_row venc v
                    (default_status_por_natureza (Some (natureza_sel conta_row)))])
       saldos ini fim
     = DFC.dfc_caixa cfg plano lancs saldos ini fim
     ∧ Simulacao.simular desempate cfg plano
         (lancs ++ [novo_lancamento conta_row venc v
                      (default_status_por_natureza (Some (natureza_sel conta_row)))])
         saldos ini fim
       = Simulacao.simular desempate cfg plano lancs saldos ini fim).
Proof.
  split.
  - intros d x c. unfold natureza_sel, conciliado. cbn [mov_natureza mov_status].
    destruct (natureza conta_row); reflexivity.
  - intros Hc.
    rewrite <- (app_nil_r lancs) at 2 4.
    apply vistas_sem_linha. rewrite admissiveis_um, Hc.
    unfold filtro_conciliacao, dropna. rewrite lfilter_lfilter. apply lfilter_nil.
    intros m Hm. apply list_elem_of_In, in_map_iff in Hm as (p & <- & _).
    apply andb_false_iff. right. unfold conciliado, natureza_sel.
    cbn [mov_natureza mov_status status novo_lancamento].
    destruct (natureza conta_row), (natureza p); reflexivity.
Qed.

(** X20. The import gives a row the settled status of the nature found
    for its code when "importar como conciliado" is set, so that the row
    passes the filter of the settled entries; without it the row gets an
    open status, passes the filter for no account, and is one of those
    [atualizar_atrasados] marks when overdue. *)
Theorem X20_status_importado d v c n x hoje venc :
  conciliado (mkMov d v (status_importado true (texto_natureza n)) c n) = true
  ∧ conciliado (mkMov d v (status_importado false x) c n) = false
  ∧ (venc < hoje →
     status (atrasar hoje (mkLanc (Some venc) v (status_importado false x) c)) = "Atrasado").
Proof.
  split; [destruct n; reflexivity|]. unfold status_importado, conciliado, atrasar.
  cbn [mov_natureza mov_status data_pagamento status].
  split.
  - destruct (bool_decide (Str.strip x = "Entrada")), n; reflexivity.
  - intros Hlt. rewrite (proj2 (Z.ltb_lt venc hoje) Hlt).
    destruct (bool_decide (Str.strip x = "Entrada")); reflexivity.
Qed.

End estados.

(** ** The adjustment of the status in "Validacao" *)

Section validacao.
Import Passos Nucleo Formularios.

Lemma alter_meio {A} (f : A → A) i (l : list A) x :
  l !! i = Some x → alter f i l = (take i l ++ f x :: drop (S i) l)%list.
Proof.
  revert i. induction l as [|y l IH]; intros [|i] H; try done.
  - by injection H as ->.
  - cbn. f_equal. by apply IH.
Qed.

(** X21. The adjustment of an entry in "Validacao" changes neither its
    amount nor its account. Set to the settled status of the nature of its
    account, the entry is admitted by both views at the real date; set to
    any other status, it counts under "considerar somente conciliados" as
    if the entry were not in the table. *)
Theorem X21_ajuste_na_validacao desempate cfg plano lancs id l novo_status data_real
    saldos ini fim :
  lancs !! id = Some l →
  map (λ l, (valor l, plano_conta_id l)) (ajustar id novo_status data_real lancs)
  = map (λ l, (valor l, plano_conta_id l)) lancs
  ∧ (∀ p, p ∈ plano → codigo p = plano_conta_id l →
       novo_status = match natureza p with Entrada => "Recebido" | Saida => "Pago" end →
       mkMov (Some data_real) (valor l) novo_status (codigo p) (natureza p)
       ∈ DFC.admissiveis cfg plano (ajustar id novo_status data_real lancs))
  ∧ (considerar_somente_conciliados cfg = true →
     (∀ p, p ∈ plano → codigo p = plano_conta_id l →
        novo_status ≠ match natureza p with Entrada => "Recebido" | Saida => "Pago" end) →
     DFC.dfc_caixa cfg plano (ajustar id novo_status data_real lancs) saldos ini fim
     = DFC.dfc_caixa cfg plano (delete id lancs) saldos ini fim
     ∧ Simulacao.simular desempate cfg plano (ajustar id novo_status data_real lancs)
         saldos ini fim
       = Simulacao.simular desempate cfg plano (delete id lancs) saldos ini fim).
Proof.
  intros Hl. unfold ajustar. rewrite (alter_meio _ _ _ _ Hl). split; [|split].
  - rewrite <- (take_drop_middle _ _ _ Hl) at 3. by rewrite !map_app.
  - intros p Hp Hcod Hst.
    change (ajustar_linha novo_status data_real l :: drop (S id) lancs)
      with ([ajustar_linha novo_status data_real l] ++ drop (S id) lancs)%list.
    rewrite !admissiveis_app, !elem_of_app. right. left.
    rewrite admissiveis_um. cbn [ajustar_linha data_pagamento valor status plano_conta_id].
    assert (bool_decide (novo_status ∈ ["Pago"; "Recebido"]) = true) as ->.
    { apply bool_decide_eq_true. rewrite Hst. destruct (natureza p); [right|]; left. }
    assert (mkMov (Some data_real) (valor l) novo_status (codigo p) (natureza p)
            ∈ dropna (map (λ p : Conta,
                             mkMov (Some data_real) (valor l) novo_status (codigo p) (natureza p))
                        (List.filter (λ p : Conta, bool_decide (plano_conta_id l = codigo p))
                           plano))) as Hin.
    { apply elem_of_lfilter. split; [|apply bool_decide_eq_true; cbn; eauto].
      apply list_elem_of_In, in_map_iff. exists p. split; [done|].
      apply filter_In. split; [by apply list_elem_of_In|]. by apply bool_decide_eq_true. }
    unfold filtro_conciliacao. destruct (considerar_somente_conciliados cfg); [|done].
    apply elem_of_lfilter. split; [done|]. unfold conciliado. cbn [mov_natureza mov_status].
    rewrite Hst. by destruct (natureza p).
  - intros Hc Hst. rewrite delete_take_drop. apply vistas_sem_linha.
    rewrite admissiveis_um, Hc.
    unfold filtro_conciliacao, dropna. rewrite lfilter_lfilter. apply lfilter_nil.
    intros m Hm. apply list_elem_of_In, in_map_iff in Hm as (p & <- & Hp).
    apply filter_In in Hp as [Hp Hcod%bool_decide_eq_true].
    apply andb_false_iff. right. unfold conciliado.
    cbn [mov_natureza mov_status status ajustar_linha plano_conta_id] in *.
    specialize (Hst p (proj2 (list_elem_of_In _ _) Hp) (eq_sym Hcod)).
    by destruct (natureza p); apply bool_decide_eq_false.
Qed.

End validacao.

(** ** Instances of the further properties *)

Section instancias_adicionais.
Import Passos Rollup Codigo Formularios Nucleo Arvore.

Lemma X3_witness :
  sem_empate Exemplos.saldos
  ∧ sem_empate (salvar_saldo 1 Inicial 500 Exemplos.saldos)
  ∧ sem_empate (saldos_salvos [(1, Inicial, 100); (1, Inicial, 300); (0, Inicial, 50)]).
Proof.
  assert (sem_empate Exemplos.saldos) as Hs.
  { apply (bool_decide_eq_true_1 _). vm_compute. reflexivity. }
  split; [exact Hs|]. split.
  - exact (proj1 X3_formulario_sem_empate 1 Inicial 500 Exemplos.saldos Hs).
  - exact (proj2 X3_formulario_sem_empate
             [(1, Inicial, 100); (1, Inicial, 300); (0, Inicial, 50)]).
Defined.

Lemma X4_witness :
  DFC.consulta_saldo Inicial (salvar_saldo 1 Inicial 500 Exemplos.saldos_empatados) 1
  = Some 500
  ∧ (Final ≠ Inicial ∨ 40 < 1)
  ∧ DFC.consulta_saldo Final (salvar_saldo 1 Inicial 500 Exemplos.saldos) 40
    = DFC.consulta_saldo Final Exemplos.saldos 40.
Proof.
  assert (Final ≠ Inicial ∨ 40 < 1) as H by (left; discriminate).
  split; [exact (proj1 (X4_saldo_salvo_consultado 1 Inicial 500 Exemplos.saldos_empatados))|].
  split; [exact H|].
  exact (proj2 (X4_saldo_salvo_consultado 1 Inicial 500 Exemplos.saldos) Final 40 H).
Defined.

Lemma X5_witness :
  11 ≤ 20
  ∧ atualizar_atrasados 20 (atualizar_atrasados 11 Exemplos.lancs_abertos)
    = atualizar_atrasados 20 Exemplos.lancs_abertos.
Proof.
  assert (11 ≤ 20) as H by lia. split; [exact H|].
  exact (proj1 (X5_atualizar_atrasados_compoe 11 20 Exemplos.lancs_abertos H)).
Defined.

Lemma X7_witness :
  (plano_conta_id Exemplos.lanc_orfao ∉ map codigo Exemplos.plano
   ∨ data_pagamento Exemplos.lanc_orfao = None)
  ∧ DFC.dfc_caixa Exemplos.cfg Exemplos.plano (Exemplos.lancs ++ Exemplos.lanc_orfao :: [])
      Exemplos.saldos 1 30
    = DFC.dfc_caixa Exemplos.cfg Exemplos.plano (Exemplos.lancs ++ []) Exemplos.saldos 1 30.
Proof.
  assert (plano_conta_id Exemplos.lanc_orfao ∉ map codigo Exemplos.plano
          ∨ data_pagamento Exemplos.lanc_orfao = None) as H.
  { left. apply (bool_decide_eq_false_1 _). vm_compute. reflexivity. }
  split; [exact H|].
  exact (proj1 (X7_orfaos_e_sem_data_ignorados primeira_linha Exemplos.cfg Exemplos.plano
                  Exemplos.lancs Exemplos.lanc_orfao [] Exemplos.saldos 1 30 H)).
Defined.

Lemma X8_witness :
  considerar_somente_conciliados Exemplos.cfg = true
  ∧ status Exemplos.lanc_aberto ∉ ["Pago"; "Recebido"]
  ∧ Simulacao.simular primeira_linha Exemplos.cfg Exemplos.plano
      (Exemplos.lancs ++ Exemplos.lanc_aberto :: []) Exemplos.saldos 1 30
    = Simulacao.simular primeira_linha Exemplos.cfg Exemplos.plano (Exemplos.lancs ++ [])
        Exemplos.saldos 1 30.
Proof.
  assert (status Exemplos.lanc_aberto ∉ ["Pago"; "Recebido"]) as H.
  { apply (bool_decide_eq_false_1 _). vm_compute. reflexivity. }
  split; [reflexivity|]. split; [exact H|].
  exact (proj2 (X8_nao_conciliados_ignorados primeira_linha Exemplos.cfg Exemplos.plano
                  Exemplos.lancs Exemplos.lanc_aberto [] Exemplos.saldos 1 30 eq_refl
                  (or_introl H))).
Defined.

Lemma X9_witness :
  codigo_pais "1.02.03.04" = (["1.02.03.00"] ++ "1.02.00.00" :: ["1.00.00.00"])%list
  ∧ codigo_pais "1.02.00.00" = ["1.00.00.00"]
  ∧ eh_sintetico "1.02.00.00" = true.
Proof.
  assert (codigo_pais "1.02.03.04" = (["1.02.03.00"] ++ "1.02.00.00" :: ["1.00.00.00"])%list)
    as H by (vm_compute; reflexivity).
  split; [exact H|].
  exact (X9_candidatos_encadeados "1.02.03.04" ["1.02.03.00"] "1.02.00.00" ["1.00.00.00"] H).
Defined.

Lemma X11_witness :
  (∀ l, l ∈ Exemplos.lancs → 0 ≤ valor l)
  ∧ DFC.dfc_caixa (com_forcar true Exemplos.cfg) Exemplos.plano Exemplos.lancs
      Exemplos.saldos 1 30
    = DFC.dfc_caixa (com_forcar false Exemplos.cfg) Exemplos.plano Exemplos.lancs
        Exemplos.saldos 1 30.
Proof.
  assert (∀ l, l ∈ Exemplos.lancs → 0 ≤ valor l) as H.
  { apply Forall_forall. repeat (constructor; [cbn; lia|]). constructor. }
  split; [exact H|].
  exact (proj1 (proj2 (X11_forcar_saida_negativa primeira_linha Exemplos.cfg Exemplos.plano
                         Exemplos.lancs Exemplos.saldos 1 30) H)).
Defined.

Lemma X12_witness :
  eh_sintetico "1.02.03.04" = false
  ∧ default [] (filhos_de Exemplos.plano_lacuna !! "1.02.03.04") = []
  ∧ total_de Exemplos.plano_lacuna [mkMov (Some 10) 100 "Recebido" "1.02.03.04" Entrada]
      "1.02.03.04" Entrada
    = Some (soma_propria [mkMov (Some 10) 100 "Recebido" "1.02.03.04" Entrada]
              "1.02.03.04" Entrada).
Proof.
  assert (eh_sintetico "1.02.03.04" = false) as H by reflexivity.
  split; [exact H|].
  exact (proj2 (X12_analitica_e_folha Exemplos.plano_lacuna
                  [mkMov (Some 10) 100 "Recebido" "1.02.03.04" Entrada]
                  "1.02.03.04" Entrada H)).
Defined.

Lemma X14_witness :
  (∀ c M w, Exemplos.cache_um !! (c, M) = Some w →
            total_de Exemplos.plano
              (DFC.periodo Exemplos.cfg Exemplos.plano Exemplos.lancs 1 30) c M = Some w)
  ∧ ∃ v cache',
      total_no (plano_desc (ler_plano Exemplos.plano)) (plano_nat (ler_plano Exemplos.plano))
        (chaves (ler_plano Exemplos.plano))
        (soma_por_codigo (DFC.periodo Exemplos.cfg Exemplos.plano Exemplos.lancs 1 30))
        4 Exemplos.cache_um "1.00.00.00" Entrada = Some (v, cache')
      ∧ total_de Exemplos.plano
          (DFC.periodo Exemplos.cfg Exemplos.plano Exemplos.lancs 1 30) "1.00.00.00" Entrada
        = Some v
      ∧ cache' !! ("1.00.00.00", Entrada) = Some v
      ∧ Exemplos.cache_um ⊆ cache'
      ∧ (∀ c M w, cache' !! (c, M) = Some w →
                  total_de Exemplos.plano
                    (DFC.periodo Exemplos.cfg Exemplos.plano Exemplos.lancs 1 30) c M
                  = Some w).
Proof.
  assert (∀ c M w, Exemplos.cache_um !! (c, M) = Some w →
            total_de Exemplos.plano
              (DFC.periodo Exemplos.cfg Exemplos.plano Exemplos.lancs 1 30) c M = Some w) as H.
  { intros c M w Hw. unfold Exemplos.cache_um in Hw.
    apply lookup_singleton_Some in Hw as [[= <- <-] <-]. vm_compute. reflexivity. }
  split; [exact H|].
  exact (X14_cache_transparente Exemplos.plano
           (DFC.periodo Exemplos.cfg Exemplos.plano Exemplos.lancs 1 30)
           Exemplos.cache_um "1.00.00.00" Entrada H).
Defined.

Lemma X16_witness :
  plano_coerente Exemplos.plano
  ∧ ∃ recebimentos pagamentos,
      dfc_hierarquico Exemplos.plano
        (DFC.periodo Exemplos.cfg Exemplos.plano Exemplos.lancs 1 30)
      = Some (recebimentos, pagamentos)
      ∧ map fst (flat_map linhas recebimentos) ≡ₚ contas_de Exemplos.plano Entrada.
Proof.
  assert (plano_coerente Exemplos.plano) as H by apply transformar_plano_coerente.
  split; [exact H|]. eexists _, _. split; [vm_compute; reflexivity|].
  refine (proj1 (X16_arvore_cobre_o_plano Exemplos.plano
                   (DFC.periodo Exemplos.cfg Exemplos.plano Exemplos.lancs 1 30) _ _ H _)).
  vm_compute. reflexivity.
Defined.

Lemma X17_witness :
  plano_coerente Exemplos.plano
  ∧ plano_nat (ler_plano Exemplos.plano) !! "1.00.00.00" = Some Entrada
  ∧ filhos_mesma_natureza Exemplos.plano "1.00.00.00" Entrada
    = default [] (filhos_de Exemplos.plano !! "1.00.00.00").
Proof.
  assert (plano_coerente Exemplos.plano) as H by apply transformar_plano_coerente.
  assert (plano_nat (ler_plano Exemplos.plano) !! "1.00.00.00" = Some Entrada) as Hn
    by (vm_compute; reflexivity).
  split; [exact H|]. split; [exact Hn|].
  exact (proj1 (X17_filhos_tem_a_natureza_do_pai Exemplos.plano "1.00.00.00" Entrada H Hn)).
Defined.

Lemma X19_witness :
  considerar_somente_conciliados Exemplos.cfg = true
  ∧ DFC.dfc_caixa Exemplos.cfg Exemplos.plano_lacuna
      (Exemplos.lancs
       ++ [novo_lancamento Exemplos.conta_item 12 70
             (default_status_por_natureza (Some (natureza_sel Exemplos.conta_item)))])
      Exemplos.saldos 1 30
    = DFC.dfc_caixa Exemplos.cfg Exemplos.plano_lacuna Exemplos.lancs Exemplos.saldos 1 30.
Proof.
  split; [reflexivity|].
  exact (proj1 (proj2 (X19_status_do_formulario primeira_linha Exemplos.cfg
                         Exemplos.plano_lacuna Exemplos.lancs Exemplos.conta_item 12 70
                         Exemplos.saldos 1 30) eq_refl)).
Defined.

Lemma X20_witness :
  10 < 20
  ∧ status (atrasar 20 (mkLanc (Some 10) 70 (status_importado false "Saída") "2.00.00.00"))
    = "Atrasado".
Proof.
  assert (10 < 20) as H by lia. split; [exact H|].
  exact (proj2 (proj2 (X20_status_importado (Some 10) 70 "2.00.00.00" Saida "Saída" 20 10)) H).
Defined.

Lemma X21_witness :
  Exemplos.lancs_abertos !! 0%nat = Some (mkLanc (Some 10) 100 "A receber" "1.01.00.00")
  ∧ map (λ l, (valor l, plano_conta_id l)) (ajustar 0 "Recebido" 15 Exemplos.lancs_abertos)
    = map (λ l, (valor l, plano_conta_id l)) Exemplos.lancs_abertos.
Proof.
  assert (Exemplos.lancs_abertos !! 0%nat
          = Some (mkLanc (Some 10) 100 "A receber" "1.01.00.00")) as H by reflexivity.
  split; [exact H|].
  exact (proj1 (X21_ajuste_na_validacao primeira_linha Exemplos.cfg Exemplos.plano
                  Exemplos.lancs_abertos 0 _ "Recebido" 15 Exemplos.saldos 1 30 H)).
Defined.

End instancias_adicionais.
